(** * LogiLinux MX keypad driver: image packetizer, channel writer,
      input decoder and animation bookkeeping

    Shallow embedding of [lib/src/devices/mx_keypad_device.cpp].

    Conventions.
    - A byte ([uint8_t]) is a [Z]; every conversion to [uint8_t] or
      [uint16_t] that the C++ performs is written out as [mod 256] or
      [mod 65536].
    - [size_t] quantities that are sizes of, or offsets into, a
      [std::vector] are [nat]: the source only ever subtracts a smaller
      size from a larger one, so no wrap-around can occur on them.
    - [std::vector<uint8_t>] is [list Z]; [std::set<uint8_t>] is a strictly
      increasing [list Z] (iteration order of [std::set] is ascending);
      [std::map<int, ...>] is a [gmap Z _]. *)

From stdpp Require Import base list gmap sorting strings pretty.
From Stdlib Require Import ZArith Lia ZifyNat.

Local Open Scope Z_scope.

(** ** Raw memory helpers ([memset], [memcpy] on a vector's storage) *)

Definition memset (buf : list Z) (c : Z) (n : nat) : list Z :=
  replicate n c ++ drop n buf.

(** [memcpy dst off src] is [memcpy(dst.data() + off, src, src.size())]. *)
Definition memcpy (dst : list Z) (off : nat) (src : list Z) : list Z :=
  take off dst ++ src ++ drop (off + length src) dst.

(** ** Constants *)

Definition MAX_PACKET_SIZE : nat := 4095.
Definition LCD_SIZE : Z := 118.
Definition SCREEN_WIDTH : Z := 434.
Definition SCREEN_HEIGHT : Z := 434.
Definition PACKET_BASE_HEADER : list Z := [0x14; 0xff; 0x02; 0x2b].
Definition PACKET1_GEOMETRY : list Z := [0x01; 0x00; 0x01; 0x00; 0x00; 0x00].
Definition PACKET1_HEADER : nat := 20.
Definition SUBSEQUENT_HEADER : nat := 5.

(** ** The packet buffer pool *)

Definition POOL_SIZE : nat := 16.

Record PacketBufferPool := mkPool {
  pool : list (list Z);
  next_free : Z (* std::atomic<size_t> *)
}.

(** [acquire] returns (a reference to) slot [next_free % POOL_SIZE] and
    increments the counter, which wraps as a 64-bit [size_t]. *)
Definition acquire (p : PacketBufferPool) : nat * PacketBufferPool :=
  (Z.to_nat (next_free p mod Z.of_nat POOL_SIZE),
   mkPool (pool p) ((next_free p + 1) mod 2 ^ 64)).

Definition slot (p : PacketBufferPool) (idx : nat) : list Z :=
  default [] (pool p !! idx).

Definition store (p : PacketBufferPool) (idx : nat) (buf : list Z)
  : PacketBufferPool :=
  mkPool (<[idx := buf]> (pool p)) (next_free p).

(** The constructor resizes every slot to [MAX_PACKET_SIZE]; nothing ever
    resizes a slot afterwards. *)
Definition pool_wf (p : PacketBufferPool) : Prop :=
  length (pool p) = POOL_SIZE /\
  Forall (fun b => length b = MAX_PACKET_SIZE) (pool p) /\
  0 <= next_free p < 2 ^ 64.

Definition fresh_pool : PacketBufferPool :=
  mkPool (replicate POOL_SIZE (replicate MAX_PACKET_SIZE 0)) 0.

(** ** Image packetizer *)

Definition generateWritePacketByte (index : Z) (isFirst isLast : bool) : Z :=
  let value := Z.lor index 0x20 mod 256 in
  let value := if isFirst then Z.lor value 0x80 mod 256 else value in
  let value := if isLast then Z.lor value 0x40 mod 256 else value in
  value.

(** The 20-byte header of the first packet, assembled statement by
    statement as in the source.  [x], [y], [width], [height] are
    [uint16_t]; [size] is [jpegData.size()]. *)
Definition packet1_header (x y width height : Z) (size : nat) : list Z :=
  let h := replicate PACKET1_HEADER 0 in
  let h := memcpy h 0 PACKET_BASE_HEADER in
  let h := <[4%nat := generateWritePacketByte 1 true
                 (bool_decide (size <= MAX_PACKET_SIZE - PACKET1_HEADER)%nat)]> h in
  let h := memcpy h 5 PACKET1_GEOMETRY in
  let h := <[9%nat := Z.land (Z.shiftr x 8) 0xff]> h in
  let h := <[10%nat := Z.land x 0xff]> h in
  let h := <[11%nat := Z.land (Z.shiftr y 8) 0xff]> h in
  let h := <[12%nat := Z.land y 0xff]> h in
  let h := <[13%nat := Z.land (Z.shiftr width 8) 0xff]> h in
  let h := <[14%nat := Z.land width 0xff]> h in
  let h := <[15%nat := Z.land (Z.shiftr height 8) 0xff]> h in
  let h := <[16%nat := Z.land height 0xff]> h in
  let h := <[18%nat := Z.land (Z.shiftr (Z.of_nat size) 8) 0xff]> h in
  let h := <[19%nat := Z.land (Z.of_nat size) 0xff]> h in
  h.

(** The 5-byte header of a subsequent packet: base header, then byte 4. *)
Definition packet_header (ctl : Z) : list Z :=
  let h := replicate SUBSEQUENT_HEADER 0 in
  let h := memcpy h 0 PACKET_BASE_HEADER in
  <[4%nat := ctl]> h.

(** State of the [while (remainingBytes > 0)] loop. *)
Record loop_state := mkLoop {
  remainingBytes : nat;
  currentOffset : nat;
  part : Z;
  lpool : PacketBufferPool;
  result : list (list Z)
}.

Definition loop_body (jpegData : list Z) (s : loop_state) : loop_state :=
  let byteCount := (remainingBytes s `min` (MAX_PACKET_SIZE - SUBSEQUENT_HEADER))%nat in
  let '(idx, p) := acquire (lpool s) in
  let packet := memset (slot p idx) 0 MAX_PACKET_SIZE in
  let hdr := packet_header
               (generateWritePacketByte (part s) false
                  (bool_decide (remainingBytes s - byteCount = 0)%nat)) in
  let packet := memcpy packet 0 hdr in
  let packet :=
    if bool_decide (0 < byteCount)%nat
    then memcpy packet SUBSEQUENT_HEADER
           (take byteCount (drop (currentOffset s) jpegData))
    else packet in
  mkLoop (remainingBytes s - byteCount) (currentOffset s + byteCount)
         (part s + 1) (store p idx packet) (result s ++ [packet]).

(** The loop, with explicit fuel; [generate_packets] supplies
    [remainingBytes] itself as fuel, which always suffices. *)
Fixpoint while_remaining (fuel : nat) (jpegData : list Z) (s : loop_state)
  : loop_state :=
  match fuel with
  | O => s
  | S fuel' =>
      if bool_decide (0 < remainingBytes s)%nat
      then while_remaining fuel' jpegData (loop_body jpegData s)
      else s
  end.

(** [totalPackets], the count computed up front for [reserve]. *)
Definition totalPackets (size : nat) : nat :=
  let remainingAfterFirst :=
    if bool_decide (MAX_PACKET_SIZE - PACKET1_HEADER < size)%nat
    then (size - (MAX_PACKET_SIZE - PACKET1_HEADER))%nat else 0%nat in
  if bool_decide (0 < remainingAfterFirst)%nat
  then (1 + (remainingAfterFirst + (MAX_PACKET_SIZE - SUBSEQUENT_HEADER) - 1)
            `div` (MAX_PACKET_SIZE - SUBSEQUENT_HEADER))%nat
  else 1%nat.

(** Common body of [generateImagePackets] and [generateRawImagePackets]
    (the two differ only in how the rectangle is obtained). *)
Definition generate_packets (x y width height : Z) (jpegData : list Z)
    (p0 : PacketBufferPool) : loop_state :=
  let hdr := packet1_header x y width height (length jpegData) in
  let '(idx, p) := acquire p0 in
  let packet1 := memset (slot p idx) 0 MAX_PACKET_SIZE in
  let packet1 := memcpy packet1 0 hdr in
  let byteCount1 := (length jpegData `min` (MAX_PACKET_SIZE - PACKET1_HEADER))%nat in
  let packet1 :=
    if bool_decide (0 < byteCount1)%nat
    then memcpy packet1 PACKET1_HEADER (take byteCount1 jpegData)
    else packet1 in
  let s := mkLoop (length jpegData - byteCount1) byteCount1 2
                  (store p idx packet1) [packet1] in
  while_remaining (remainingBytes s) jpegData s.

Definition generateRawImagePackets (x y width height : Z) (jpegData : list Z)
    (p0 : PacketBufferPool) : list (list Z) * PacketBufferPool :=
  let s := generate_packets x y width height jpegData p0 in
  (result s, lpool s).

(** [keyIndex] is an [int]: [/] and [%] truncate towards zero; [x] and
    [y] are narrowed to [uint16_t]. *)
Definition generateImagePackets (keyIndex : Z) (jpegData : list Z)
    (p0 : PacketBufferPool) : list (list Z) * PacketBufferPool :=
  let row := Z.quot keyIndex 3 in
  let col := Z.rem keyIndex 3 in
  let x := (23 + col * (118 + 40)) mod 65536 in
  let y := (6 + row * (118 + 40)) mod 65536 in
  let s := generate_packets x y LCD_SIZE LCD_SIZE jpegData p0 in
  (result s, lpool s).

(** ** The channel: system calls on the hidraw descriptor *)

Definition O_NONBLOCK : Z := 2048. (* 04000 *)
Definition O_RDWR : Z := 2.
Definition EAGAIN : Z := 11.
Definition EWOULDBLOCK : Z := 11. (* same value as EAGAIN on Linux *)

(** What the kernel answers to one [writev]: the number of bytes it took,
    or [-1] with [errno] set. *)
Inductive writev_result :=
| Wrote (n : N)
| Failed (err : Z).

Definition writev_return (r : writev_result) : Z :=
  match r with Wrote n => Z.of_N n | Failed _ => -1 end.

(** Programs over the three system calls the write path issues.  The
    continuation of [Writev] receives the return value and the value of
    [errno] after the call. *)
Inductive io (R : Type) : Type :=
| Ret (r : R)
| Fcntl_GETFL (k : Z -> io R)
| Fcntl_SETFL (flags : Z) (k : io R)
| Writev (iov : list (list Z)) (k : Z -> Z -> io R).
Arguments Ret {R} r.
Arguments Fcntl_GETFL {R} k.
Arguments Fcntl_SETFL {R} flags k.
Arguments Writev {R} iov k.

(** The tail shared by [setKeyImage] and [setRawImage]: from the [fcntl]
    that reads the flags to the final comparison. *)
Definition transmit (packets : list (list Z)) : io bool :=
  let packet_count := length packets in
  let expectedTotal := Z.of_nat packet_count * Z.of_nat MAX_PACKET_SIZE in
  Fcntl_GETFL (fun flags =>
  Fcntl_SETFL (Z.lor flags O_NONBLOCK) (
  Writev packets (fun totalWritten errno =>
  Fcntl_SETFL flags (
  if bool_decide (totalWritten < 0) then
    if bool_decide (errno = EAGAIN) || bool_decide (errno = EWOULDBLOCK) then
      Writev packets (fun totalWritten _ =>
      Ret (bool_decide (totalWritten = expectedTotal)))
    else Ret false
  else Ret (bool_decide (totalWritten = expectedTotal)))))).

(** One entry of the descriptor's I/O history. *)
Inductive io_event :=
| EvGetFl
| EvSetFl (flags : Z)
| EvWritev (nonblocking : bool) (iov : list (list Z)) (res : writev_result).

Record os_state := mkOs {
  fd_flags : Z;          (* file status flags of hidraw_fd *)
  errno : Z;
  nwritev : nat;         (* writev calls issued so far *)
  io_log : list io_event (* oldest first *)
}.

(** ** Events, animations and the device object *)

Inductive EventType := BUTTON_PRESS | BUTTON_RELEASE.

(** [ButtonEvent] without its timestamp. *)
Record ButtonEvent := mkEvent {
  type : EventType;
  button_code : Z;
  pressed : bool
}.

Record GifFrame := mkFrame { jpeg_data : list Z; delay_ms : Z }.
Record GifAnimation := mkGif { frames : list GifFrame; loop : bool }.

(** [animation_thread] is [Some tid] for a joinable [std::thread] and
    [None] for a default-constructed one. *)
Record KeyAnimation := mkAnim {
  animation : GifAnimation;
  running : bool;
  animation_thread : option nat;
  current_frame : nat
}.

Record Impl := mkImpl {
  initialized : bool;
  monitoring : bool;
  monitor_thread : option nat;
  pressed_buttons : list Z;
  last_p_button : Z;
  animations : gmap Z KeyAnimation;
  screen_animation : option KeyAnimation
}.

(** [event_callback_] is [None] for an empty [std::function]. *)
Record Device := mkDevice {
  impl_ : Impl;
  event_callback_ : option nat
}.

Definition set_monitoring (b : bool) (i : Impl) : Impl :=
  mkImpl (initialized i) b (monitor_thread i) (pressed_buttons i) (last_p_button i)
         (animations i) (screen_animation i).
Definition set_monitor_thread (t : option nat) (i : Impl) : Impl :=
  mkImpl (initialized i) (monitoring i) t (pressed_buttons i) (last_p_button i)
         (animations i) (screen_animation i).
Definition set_pressed_buttons (s : list Z) (i : Impl) : Impl :=
  mkImpl (initialized i) (monitoring i) (monitor_thread i) s (last_p_button i)
         (animations i) (screen_animation i).
Definition set_last_p_button (b : Z) (i : Impl) : Impl :=
  mkImpl (initialized i) (monitoring i) (monitor_thread i) (pressed_buttons i) b
         (animations i) (screen_animation i).
Definition set_animations (m : gmap Z KeyAnimation) (i : Impl) : Impl :=
  mkImpl (initialized i) (monitoring i) (monitor_thread i) (pressed_buttons i) (last_p_button i)
         m (screen_animation i).
Definition set_screen_animation (a : option KeyAnimation) (i : Impl) : Impl :=
  mkImpl (initialized i) (monitoring i) (monitor_thread i) (pressed_buttons i) (last_p_button i)
         (animations i) a.

Definition fresh_impl : Impl := mkImpl false false None [] 0 ∅ None.
Definition fresh_device : Device := mkDevice fresh_impl None.

(** What an animation worker displays on. *)
Inductive target := Key (keyIndex : Z) | Screen.

Global Instance target_eq_dec : EqDecision target.
Proof. solve_decision. Defined.

(** Thread-level actions, in the order the program performs them. *)
Inductive thread_event :=
| EvRunFlagFalse (tid : nat)   (* running = false on the task run by tid *)
| EvJoin (tid : nat)           (* animation_thread.join() has returned *)
| EvSpawn (tid : nat) (t : target)
| EvStore (t : target) (tid : nat)
| EvSpawnMonitor (tid : nat)
| EvTerminate.                 (* std::terminate was called: the process is gone *)

Global Instance thread_event_eq_dec : EqDecision thread_event.
Proof. solve_decision. Defined.

(** Everything outside the device object: the static packet pool, the
    descriptor, and the threads created so far. *)
Record World := mkWorld {
  packet_pool : PacketBufferPool;
  os : os_state;
  next_tid : nat;
  thread_log : list thread_event (* oldest first *)
}.

Definition set_packet_pool (p : PacketBufferPool) (w : World) : World :=
  mkWorld p (os w) (next_tid w) (thread_log w).
Definition set_os (o : os_state) (w : World) : World :=
  mkWorld (packet_pool w) o (next_tid w) (thread_log w).
Definition log_thread (e : thread_event) (w : World) : World :=
  mkWorld (packet_pool w) (os w) (next_tid w) (thread_log w ++ [e]).
Definition bump_tid (w : World) : World :=
  mkWorld (packet_pool w) (os w) (S (next_tid w)) (thread_log w).

Definition fresh_world : World :=
  mkWorld fresh_pool (mkOs O_RDWR 0 0 []) 0 [].

(** [std::map] is iterated in ascending key order. *)
Definition by_key (a b : Z * KeyAnimation) : Prop := a.1 <= b.1.

#[global] Instance by_key_dec a b : Decision (by_key a b).
Proof. unfold by_key. apply _. Defined.

(** ** Operations of the device *)

Section Operations.

(** The kernel's answer to the [n]-th [writev] on the descriptor. *)
Variable channel : nat -> writev_result.

(** [GifDecoder::decodeGif] and [decodeGifFromFile] are defined outside
    this file; each fills the animation it is handed and reports
    success. *)
Variable decodeGif : list Z -> GifAnimation -> Z -> Z -> bool * GifAnimation.
Variable decodeGifFromFile :
  list Z -> GifAnimation -> Z -> Z -> bool * GifAnimation.

(** Sequential execution of an [io] program against the descriptor.
    A successful call leaves [errno] alone; a failing [writev] sets it. *)
Fixpoint run {R} (p : io R) (o : os_state) : R * os_state :=
  match p with
  | Ret r => (r, o)
  | Fcntl_GETFL k =>
      run (k (fd_flags o))
          (mkOs (fd_flags o) (errno o) (nwritev o) (io_log o ++ [EvGetFl]))
  | Fcntl_SETFL flags k =>
      run k (mkOs flags (errno o) (nwritev o) (io_log o ++ [EvSetFl flags]))
  | Writev iov k =>
      let res := channel (nwritev o) in
      let errno' := match res with Failed e => e | Wrote _ => errno o end in
      run (k (writev_return res) errno')
          (mkOs (fd_flags o) errno' (S (nwritev o))
                (io_log o ++
                 [EvWritev (Z.testbit (fd_flags o) 11) iov res]))
  end.

Definition setKeyImage (keyIndex : Z) (jpegData : list Z)
    (d : Impl) (w : World) : bool * World :=
  if bool_decide (keyIndex < 0) || bool_decide (keyIndex > 8)
     || negb (initialized d)
  then (false, w)
  else
    let '(packets, p) := generateImagePackets keyIndex jpegData (packet_pool w) in
    let w := set_packet_pool p w in
    if bool_decide (packets = []) then (false, w)
    else
      let '(r, o) := run (transmit packets) (os w) in
      (r, set_os o w).

Definition setRawImage (x y width height : Z) (jpegData : list Z)
    (d : Impl) (w : World) : bool * World :=
  if negb (initialized d) then (false, w)
  else
    let '(packets, p) :=
      generateRawImagePackets x y width height jpegData (packet_pool w) in
    let w := set_packet_pool p w in
    if bool_decide (packets = []) then (false, w)
    else
      let '(r, o) := run (transmit packets) (os w) in
      (r, set_os o w).

Definition setScreenImage (jpegData : list Z) (d : Impl) (w : World)
  : bool * World :=
  setRawImage 23 6 SCREEN_WIDTH SCREEN_HEIGHT jpegData d w.

(** *** Animations *)

Definition stop_task (a : KeyAnimation) (w : World) : World :=
  match animation_thread a with
  | Some tid => log_thread (EvJoin tid) (log_thread (EvRunFlagFalse tid) w)
  | None => w
  end.

Definition stopKeyAnimation (keyIndex : Z) (d : Impl) (w : World)
  : Impl * World :=
  match animations d !! keyIndex with
  | Some a => (set_animations (delete keyIndex (animations d)) d, stop_task a w)
  | None => (d, w)
  end.

Definition stopScreenAnimation (d : Impl) (w : World) : Impl * World :=
  match screen_animation d with
  | Some a => (set_screen_animation None d, stop_task a w)
  | None => (d, w)
  end.

Definition stopAllAnimations (d : Impl) (w : World) : Impl * World :=
  let '(d, w) := stopScreenAnimation d w in
  let w := foldl (fun w pair => stop_task pair.2 w) w
                 (merge_sort by_key (map_to_list (animations d))) in
  (set_animations ∅ d, w).

(** From [make_unique<KeyAnimation>] to the store into the device, for
    a task on target [t]; [decode] is the decoder call of the
    operation. *)
Definition start_task (t : target) (loop : bool)
    (decode : GifAnimation -> bool * GifAnimation)
    (store_task : KeyAnimation -> Impl -> Impl)
    (d : Impl) (w : World) : bool * Impl * World :=
  let '(ok, anim) := decode (mkGif [] loop) in
  if negb ok then (false, d, w)
  else if bool_decide (frames anim = []) then (false, d, w)
  else
    let tid := next_tid w in
    let a := mkAnim anim true (Some tid) 0 in
    let w := log_thread (EvSpawn tid t) (bump_tid w) in
    (true, store_task a d, log_thread (EvStore t tid) w).

Definition store_key (keyIndex : Z) (a : KeyAnimation) (d : Impl) : Impl :=
  set_animations (<[keyIndex := a]> (animations d)) d.
Definition store_screen (a : KeyAnimation) (d : Impl) : Impl :=
  set_screen_animation (Some a) d.

Definition setKeyGif (keyIndex : Z) (gifData : list Z) (loop : bool)
    (d : Impl) (w : World) : bool * Impl * World :=
  if bool_decide (keyIndex < 0) || bool_decide (keyIndex > 8)
     || negb (initialized d)
  then (false, d, w)
  else
    let '(d, w) := stopKeyAnimation keyIndex d w in
    start_task (Key keyIndex) loop
      (fun a => decodeGif gifData a LCD_SIZE LCD_SIZE)
      (store_key keyIndex) d w.

Definition setKeyGifFromFile (keyIndex : Z) (gifPath : list Z) (loop : bool)
    (d : Impl) (w : World) : bool * Impl * World :=
  if bool_decide (keyIndex < 0) || bool_decide (keyIndex > 8)
     || negb (initialized d)
  then (false, d, w)
  else
    let '(d, w) := stopKeyAnimation keyIndex d w in
    start_task (Key keyIndex) loop
      (fun a => decodeGifFromFile gifPath a LCD_SIZE LCD_SIZE)
      (store_key keyIndex) d w.

Definition setScreenGif (gifData : list Z) (loop : bool)
    (d : Impl) (w : World) : bool * Impl * World :=
  if negb (initialized d) then (false, d, w)
  else
    let '(d, w) := stopScreenAnimation d w in
    start_task Screen loop
      (fun a => decodeGif gifData a SCREEN_WIDTH SCREEN_HEIGHT)
      store_screen d w.

Definition setScreenGifFromFile (gifPath : list Z) (loop : bool)
    (d : Impl) (w : World) : bool * Impl * World :=
  if negb (initialized d) then (false, d, w)
  else
    let '(d, w) := stopScreenAnimation d w in
    start_task Screen loop
      (fun a => decodeGifFromFile gifPath a SCREEN_WIDTH SCREEN_HEIGHT)
      store_screen d w.

(** The calls a client can make on the animation interface. *)
Inductive anim_op :=
| OpSetKeyGif (keyIndex : Z) (gifData : list Z) (loop : bool)
| OpSetKeyGifFromFile (keyIndex : Z) (gifPath : list Z) (loop : bool)
| OpSetScreenGif (gifData : list Z) (loop : bool)
| OpSetScreenGifFromFile (gifPath : list Z) (loop : bool)
| OpStopKeyAnimation (keyIndex : Z)
| OpStopScreenAnimation
| OpStopAllAnimations.

Definition anim_step (op : anim_op) (s : Impl * World) : Impl * World :=
  let '(d, w) := s in
  match op with
  | OpSetKeyGif k g l => let '(_, d, w) := setKeyGif k g l d w in (d, w)
  | OpSetKeyGifFromFile k g l =>
      let '(_, d, w) := setKeyGifFromFile k g l d w in (d, w)
  | OpSetScreenGif g l => let '(_, d, w) := setScreenGif g l d w in (d, w)
  | OpSetScreenGifFromFile g l =>
      let '(_, d, w) := setScreenGifFromFile g l d w in (d, w)
  | OpStopKeyAnimation k => stopKeyAnimation k d w
  | OpStopScreenAnimation => stopScreenAnimation d w
  | OpStopAllAnimations => stopAllAnimations d w
  end.

Definition anim_run (ops : list anim_op) (s : Impl * World) : Impl * World :=
  foldl (fun s op => anim_step op s) s ops.

End Operations.

(** ** The image-write operations as one family *)

Inductive image_op :=
| ImgSetKeyImage (keyIndex : Z) (jpegData : list Z)
| ImgSetKeyGif (keyIndex : Z) (gifData : list Z) (loop : bool)
| ImgSetKeyGifFromFile (keyIndex : Z) (gifPath : list Z) (loop : bool)
| ImgSetRawImage (x y width height : Z) (jpegData : list Z)
| ImgSetScreenImage (jpegData : list Z).

Definition run_image_op (channel : nat -> writev_result)
    (decodeGif decodeGifFromFile :
       list Z -> GifAnimation -> Z -> Z -> bool * GifAnimation)
    (op : image_op) (d : Impl) (w : World) : bool * Impl * World :=
  match op with
  | ImgSetKeyImage k jpegData =>
      let '(r, w) := setKeyImage channel k jpegData d w in (r, d, w)
  | ImgSetKeyGif k gifData loop => setKeyGif decodeGif k gifData loop d w
  | ImgSetKeyGifFromFile k gifPath loop =>
      setKeyGifFromFile decodeGifFromFile k gifPath loop d w
  | ImgSetRawImage x y width height jpegData =>
      let '(r, w) := setRawImage channel x y width height jpegData d w in (r, d, w)
  | ImgSetScreenImage jpegData =>
      let '(r, w) := setScreenImage channel jpegData d w in (r, d, w)
  end.

Definition key_index_of (op : image_op) : option Z :=
  match op with
  | ImgSetKeyImage k _ | ImgSetKeyGif k _ _ | ImgSetKeyGifFromFile k _ _ => Some k
  | ImgSetRawImage _ _ _ _ _ | ImgSetScreenImage _ => None
  end.

(** The image or GIF bytes handed to the operation (for the file
    variant, the path). *)
Definition payload_of_op (op : image_op) : list Z :=
  match op with
  | ImgSetKeyImage _ data | ImgSetKeyGif _ data _ | ImgSetKeyGifFromFile _ data _
  | ImgSetRawImage _ _ _ _ data | ImgSetScreenImage data => data
  end.

Definition bad_key_or_uninitialized (op : image_op) (d : Impl) : Prop :=
  initialized d = false \/
  exists k, key_index_of op = Some k /\ (k < 0 \/ k > 8).

(** ** Vocabulary of the writer's statements *)

Definition is_writev (e : io_event) : bool :=
  match e with EvWritev _ _ _ => true | _ => false end.

Definition writevs (log : list io_event) : list io_event :=
  filter (fun e => is_writev e = true) log.



(** ** Sample inputs *)

(** An initialized session with nothing else going on. *)
Definition ready_impl : Impl := mkImpl true false None [] 0 ∅ None.

(** A channel that would block on the first call and then takes one
    packet. *)
Definition busy_then_ok (n : nat) : writev_result :=
  match n with O => Failed EAGAIN | S _ => Wrote 4095 end.

(** A decoder that rejects everything. *)
Definition no_decoder (data : list Z) (a : GifAnimation) (width height : Z)
  : bool * GifAnimation := (false, a).

(** ** Monitoring and the input decoder *)

Definition setEventCallback (callback : option nat) (dev : Device) : Device :=
  mkDevice (impl_ dev) callback.

(** Up to the creation of the monitoring thread.  The flag is set, the
    new [std::thread] is constructed, and then move-assigned to
    [monitor_thread]: over a handle that is still joinable the
    assignment calls [std::terminate]. *)
Definition startMonitoring (dev : Device) (w : World) : Device * World :=
  if monitoring (impl_ dev) || negb (bool_decide (is_Some (event_callback_ dev)))
  then (dev, w)
  else
    let tid := next_tid w in
    let i := set_monitoring true (impl_ dev) in
    let w := log_thread (EvSpawnMonitor tid) (bump_tid w) in
    match monitor_thread i with
    | Some _ => (mkDevice i (event_callback_ dev), log_thread EvTerminate w)
    | None =>
        (mkDevice (set_monitor_thread (Some tid) i) (event_callback_ dev), w)
    end.

Definition stopMonitoring (dev : Device) (w : World) : Device * World :=
  if monitoring (impl_ dev)
  then
    let i := set_monitoring false (impl_ dev) in
    match monitor_thread i with
    | Some tid =>
        (mkDevice (set_monitor_thread None i) (event_callback_ dev),
         log_thread (EvJoin tid) w)
    | None => (mkDevice i (event_callback_ dev), w)
    end
  else (dev, w).

(** The last statement of the monitoring thread, and its early exit when
    [open] fails: [impl_->monitoring = false]. *)
Definition monitor_thread_exit (dev : Device) : Device :=
  mkDevice (set_monitoring false (impl_ dev)) (event_callback_ dev).

Inductive monitor_op :=
| OpSetEventCallback (callback : option nat)
| OpStartMonitoring
| OpStopMonitoring
| OpMonitorThreadExit.

(** Whether the process has been terminated. *)
Definition terminated (w : World) : bool :=
  bool_decide (EvTerminate ∈ thread_log w).

(** One call on the monitoring interface; nothing runs in a process
    that has been terminated. *)
Definition monitor_step (op : monitor_op) (s : Device * World) : Device * World :=
  if terminated s.2 then s
  else
    match op with
    | OpSetEventCallback cb => (setEventCallback cb s.1, s.2)
    | OpStartMonitoring => startMonitoring s.1 s.2
    | OpStopMonitoring => stopMonitoring s.1 s.2
    | OpMonitorThreadExit => (monitor_thread_exit s.1, s.2)
    end.

Definition monitor_run (ops : list monitor_op) (s : Device * World)
  : Device * World :=
  foldl (fun s op => monitor_step op s) s ops.

(** Number of monitoring threads created so far. *)
Definition is_spawn_monitor (e : thread_event) : bool :=
  match e with EvSpawnMonitor _ => true | _ => false end.

Definition monitors_spawned (w : World) : nat :=
  length (filter (fun e => is_spawn_monitor e = true) (thread_log w)).

(** [report[i]] on the 256-byte read buffer. *)
Definition byte_at (report : list Z) (i : nat) : Z := default 0 (report !! i).

(** [std::set<uint8_t>::insert]. *)
Fixpoint set_insert (x : Z) (s : list Z) : list Z :=
  match s with
  | [] => [x]
  | y :: s' =>
      if bool_decide (x < y) then x :: s
      else if bool_decide (x = y) then s
      else y :: set_insert x s'
  end.

(** [s.find(x) != s.end()]. *)
Definition set_mem (x : Z) (s : list Z) : bool := bool_decide (x ∈ s).

(** The loop [for (i = 6; i < bytes_read; i++)] over the bytes
    [report[6 .. bytes_read)], stopping at the first zero. *)
Fixpoint collect_pressed (codes : list Z) (current_pressed : list Z) : list Z :=
  match codes with
  | [] => current_pressed
  | button_code_raw :: rest =>
      if bool_decide (button_code_raw = 0) then current_pressed
      else
        collect_pressed rest
          (if bool_decide (1 <= button_code_raw) && bool_decide (button_code_raw <= 9)
           then set_insert ((button_code_raw - 1) mod 256) current_pressed
           else current_pressed)
  end.

Definition current_pressed_of (bytes_read : Z) (report : list Z) : list Z :=
  collect_pressed (take (Z.to_nat bytes_read - 6) (drop 6 report)) [].

(** [if (event_callback_) event_callback_(event)]: what reaches the
    callback. *)
Definition deliver (callback : option nat) (e : ButtonEvent) : list ButtonEvent :=
  if bool_decide (is_Some callback) then [e] else [].

Definition press_event (code : Z) : ButtonEvent := mkEvent BUTTON_PRESS code true.
Definition release_event (code : Z) : ButtonEvent := mkEvent BUTTON_RELEASE code false.

Definition is_p_button_report (bytes_read : Z) (report : list Z) : bool :=
  bool_decide (bytes_read >= 6) && bool_decide (byte_at report 0 = 0x11)
  && bool_decide (byte_at report 1 = 0xff) && bool_decide (byte_at report 2 = 0x0b)
  && bool_decide (byte_at report 3 = 0x00).

Definition has_grid_signature (report : list Z) : bool :=
  bool_decide (byte_at report 0 = 0x13) && bool_decide (byte_at report 1 = 0xff)
  && bool_decide (byte_at report 2 = 0x02) && bool_decide (byte_at report 3 = 0x00)
  && bool_decide (byte_at report 5 = 0x01).

(** The P1/P2 block of the monitoring loop. *)
Definition process_p_button (callback : option nat) (report : list Z) (i : Impl)
  : list ButtonEvent * Impl :=
  if bool_decide (byte_at report 4 = 0x01)
     && (bool_decide (byte_at report 5 = 0xa1) || bool_decide (byte_at report 5 = 0xa2))
  then (deliver callback (press_event (byte_at report 5)),
        set_last_p_button (byte_at report 5) i)
  else if bool_decide (byte_at report 4 = 0x00)
          && negb (bool_decide (last_p_button i = 0))
  then (deliver callback (release_event (last_p_button i)),
        set_last_p_button 0 i)
  else ([], i).

(** The grid block, once the signature has matched. *)
Definition process_grid (callback : option nat) (bytes_read : Z)
    (report : list Z) (i : Impl) : list ButtonEvent * Impl :=
  let current_pressed := current_pressed_of bytes_read report in
  let presses :=
    flat_map (fun button_code =>
                if set_mem button_code (pressed_buttons i) then []
                else deliver callback (press_event button_code))
             current_pressed in
  let to_release :=
    filter (fun button_code => set_mem button_code current_pressed = false)
           (pressed_buttons i) in
  let releases :=
    flat_map (fun button_code => deliver callback (release_event button_code))
             to_release in
  (presses ++ releases, set_pressed_buttons current_pressed i).

(** What one pass of the monitoring loop does with the report it read. *)
Definition process_report (bytes_read : Z) (report : list Z) (dev : Device)
  : list ButtonEvent * Device :=
  let is_p_button_event := is_p_button_report bytes_read report in
  let '(ev1, i) :=
    if is_p_button_event
    then process_p_button (event_callback_ dev) report (impl_ dev)
    else ([], impl_ dev) in
  let '(ev2, i) :=
    if negb is_p_button_event && bool_decide (bytes_read > 0)
       && bool_decide (bytes_read >= 7)
    then
      if has_grid_signature report
      then process_grid (event_callback_ dev) bytes_read report i
      else ([], i)
    else ([], i) in
  (ev1 ++ ev2, mkDevice i (event_callback_ dev)).

(** ** Vocabulary of the decoder's statements *)

(** Representation invariant of [std::set<uint8_t>]. *)
Definition set_ok (s : list Z) : Prop := StronglySorted Z.lt s.

(** The guard of the grid block together with the signature test. *)
Definition is_grid_report (bytes_read : Z) (report : list Z) : bool :=
  negb (is_p_button_report bytes_read report)
  && bool_decide (bytes_read > 0) && bool_decide (bytes_read >= 7)
  && has_grid_signature report.

(** A grid report: signature, a flag byte, then the listed raw codes. *)
Definition grid_report (codes : list Z) : list Z :=
  [0x13; 0xff; 0x02; 0x00; 0x00; 0x01] ++ codes ++ [0].

Definition p_press_report (code : Z) : list Z := [0x11; 0xff; 0x0b; 0x00; 0x01; code].
Definition p_release_report : list Z := [0x11; 0xff; 0x0b; 0x00; 0x00; 0x00].

Definition listening (i : Impl) : Device := mkDevice i (Some 0%nat).

(** What one grid report must produce, given the set [C] it lists. *)
Definition grid_decoding_ok (dev : Device) (C : list Z)
    (out : list ButtonEvent * Device) : Prop :=
  let P := pressed_buttons (impl_ dev) in
  out.1 = (press_event <$> list_difference C P)
          ++ (release_event <$> list_difference P C) /\
  NoDup (list_difference C P) /\ NoDup (list_difference P C) /\
  (forall b, press_event b ∈ out.1 <-> (b ∈ C /\ b ∉ P)) /\
  (forall b, release_event b ∈ out.1 <-> (b ∈ P /\ b ∉ C)) /\
  pressed_buttons (impl_ out.2) = C /\ set_ok C /\
  last_p_button (impl_ out.2) = last_p_button (impl_ dev) /\
  (C = P -> out.1 = [] /\ out.2 = dev).

(** What one navigation report must produce. *)
Definition navigation_decoding_ok (dev : Device) (report : list Z)
    (out : list ButtonEvent * Device) : Prop :=
  let code := byte_at report 5 in
  let last := last_p_button (impl_ dev) in
  pressed_buttons (impl_ out.2) = pressed_buttons (impl_ dev) /\
  (length out.1 <= 1)%nat /\
  (byte_at report 4 = 0x01 -> code = 0xa1 \/ code = 0xa2 ->
   out.1 = [press_event code] /\ last_p_button (impl_ out.2) = code) /\
  (byte_at report 4 = 0x00 -> last <> 0 ->
   out.1 = [release_event last] /\ last_p_button (impl_ out.2) = 0) /\
  (byte_at report 4 = 0x00 -> last = 0 -> out.1 = [] /\ out.2 = dev).

(** ** Vocabulary of the animation statements *)

(** Animation workers that have been created and not yet joined, as the
    thread log is replayed. *)
Definition apply_thread_event (live : list (nat * target)) (e : thread_event)
  : list (nat * target) :=
  match e with
  | EvSpawn tid t => live ++ [(tid, t)]
  | EvJoin tid => filter (fun p => p.1 <> tid) live
  | _ => live
  end.

Definition live_workers (log : list thread_event) : list (nat * target) :=
  foldl apply_thread_event [] log.

Definition one_worker_per_target (live : list (nat * target)) : Prop :=
  NoDup (live.*2).

(** [P] held of the live workers after every event of the log. *)
Definition at_all_times (P : list (nat * target) -> Prop)
    (log : list thread_event) : Prop :=
  forall n : nat, P (live_workers (take n log)).

Definition task_of (t : target) (d : Impl) : option KeyAnimation :=
  match t with
  | Key k => animations d !! k
  | Screen => screen_animation d
  end.

Definition task_thread (t : target) (d : Impl) : option nat :=
  task_of t d ≫= animation_thread.

(** Every live worker is the thread of the task stored for its target. *)
Definition live_ok (d : Impl) (w : World) : Prop :=
  forall tid t, (tid, t) ∈ live_workers (thread_log w) ->
    task_thread t d = Some tid /\ (tid < next_tid w)%nat.

Definition anim_inv (d : Impl) (w : World) : Prop :=
  at_all_times one_worker_per_target (thread_log w) /\ live_ok d w.

Definition stop_events (prior : option KeyAnimation) : list thread_event :=
  match prior ≫= animation_thread with
  | Some old => [EvRunFlagFalse old; EvJoin old]
  | None => []
  end.

Definition start_events (ok : bool) (tid : nat) (t : target)
  : list thread_event :=
  if ok then [EvSpawn tid t; EvStore t tid] else [].

(** What a [set...Gif] call on target [t] does to the threads: the prior
    task of [t], if any, is told to stop and joined, and only then is
    the new worker created and stored. *)
Definition restart_ok (t : target) (d : Impl) (w : World)
    (out : bool * Impl * World) : Prop :=
  thread_log out.2 =
    thread_log w ++ stop_events (task_of t d)
                 ++ start_events out.1.1 (next_tid w) t /\
  (out.1.1 = true -> task_thread t out.1.2 = Some (next_tid w)) /\
  (out.1.1 = false -> task_of t out.1.2 = None).

(** The device without the task stored for [t]. *)
Definition remove_task (t : target) (d : Impl) : Impl :=
  match t with
  | Key k => set_animations (delete k (animations d)) d
  | Screen => set_screen_animation None d
  end.

(** A decoder that yields a single frame holding the data itself. *)
Definition one_frame_decoder (data : list Z) (a : GifAnimation)
    (width height : Z) : bool * GifAnimation :=
  (true, mkGif [mkFrame data 100] (loop a)).

(** ** Two writers on one descriptor

    hidraw takes one report per [write]; a [writev] of several packets
    reaches the device as one write per packet.  A thread is either in
    user code, about to issue its next system call, or inside [writev]
    with some packets still to hand over.  Nothing in the write path
    takes a lock, so the scheduler may switch threads between any two
    steps. *)

Inductive thread_state :=
| InUser (p : io bool)
| InWritev (rest : list (list Z)) (written : Z) (k : Z -> Z -> io bool).

Record shared_fd := mkShared {
  sh_flags : Z;
  wire : list (nat * list Z) (* (writer, packet), in order of arrival *)
}.

Definition thread_step (tid : nat) (t : thread_state) (sh : shared_fd)
  : thread_state * shared_fd :=
  match t with
  | InUser (Ret r) => (t, sh)
  | InUser (Fcntl_GETFL k) => (InUser (k (sh_flags sh)), sh)
  | InUser (Fcntl_SETFL flags k) => (InUser k, mkShared flags (wire sh))
  | InUser (Writev iov k) => (InWritev iov 0 k, sh)
  | InWritev [] n k => (InUser (k n 0), sh)
  | InWritev (pkt :: rest) n k =>
      (InWritev rest (n + Z.of_nat (length pkt)) k,
       mkShared (sh_flags sh) (wire sh ++ [(tid, pkt)]))
  end.

(** A schedule names the thread (0 or 1) that takes each step. *)
Fixpoint run_schedule (sched : list bool) (t0 t1 : thread_state)
    (sh : shared_fd) : thread_state * thread_state * shared_fd :=
  match sched with
  | [] => (t0, t1, sh)
  | false :: sched' =>
      let '(t0', sh') := thread_step 0 t0 sh in run_schedule sched' t0' t1 sh'
  | true :: sched' =>
      let '(t1', sh') := thread_step 1 t1 sh in run_schedule sched' t0 t1' sh'
  end.

Definition tagged (tid : nat) (packets : list (list Z)) : list (nat * list Z) :=
  map (fun pkt => (tid, pkt)) packets.

(** The packets of [tid] arrived as one uninterrupted run. *)
Definition transmitted_as_unit (tid : nat) (packets : list (list Z))
    (w : list (nat * list Z)) : Prop :=
  exists before after : list (nat * list Z),
    w = before ++ tagged tid packets ++ after /\
    Forall (fun p : nat * list Z => p.1 <> tid) before /\
    Forall (fun p : nat * list Z => p.1 <> tid) after.

(** ** Vocabulary of the statements *)

(** Least [k] with [a <= k * b] (see [ceil_div_spec]). *)
Definition ceil_div (a b : Z) : Z := (a + b - 1) / b.

Definition packetCount (N : Z) : Z :=
  1 + ceil_div (Z.max 0 (N - (4095 - 20))) (4095 - 5).

(** Layout of the [k]-th packet (counted from 0) of an image of [size]
    bytes: where its header ends, which slice of the image it carries. *)
Definition header_size (k : nat) : nat :=
  match k with O => PACKET1_HEADER | S _ => SUBSEQUENT_HEADER end.

Definition payload_offset (k : nat) : nat :=
  match k with
  | O => 0
  | S j => (MAX_PACKET_SIZE - PACKET1_HEADER)
           + j * (MAX_PACKET_SIZE - SUBSEQUENT_HEADER)
  end.

Definition payload_length (size k : nat) : nat :=
  (size - payload_offset k) `min` (MAX_PACKET_SIZE - header_size k).

Definition payload_of (size k : nat) (pkt : list Z) : list Z :=
  take (payload_length size k) (drop (header_size k) pkt).

Definition padding_of (size k : nat) (pkt : list Z) : list Z :=
  drop (header_size k + payload_length size k) pkt.

Definition control_byte (pkt : list Z) : Z := byte_at pkt 4.

(** Big-endian value of header bytes 18 and 19. *)
Definition length_field (pkt : list Z) : Z :=
  byte_at pkt 18 * 256 + byte_at pkt 19.

(** Total number of bytes handed to the channel. *)
Definition total_size (pkts : list (list Z)) : nat :=
  length (concat pkts).

(** Closed form of the [k]-th packet. *)
Definition mk_packet (hdr payload : list Z) : list Z :=
  hdr ++ payload
      ++ replicate (MAX_PACKET_SIZE - length hdr - length payload) 0.

Definition ctl_at (size k : nat) : Z :=
  generateWritePacketByte (Z.of_nat k + 1) (bool_decide (k = 0%nat))
    (bool_decide (size <= payload_offset k + (MAX_PACKET_SIZE - header_size k))%nat).

Definition chunk_at (jpegData : list Z) (k : nat) : list Z :=
  take (MAX_PACKET_SIZE - header_size k) (drop (payload_offset k) jpegData).

Definition packet_at (x y width height : Z) (jpegData : list Z) (k : nat)
  : list Z :=
  match k with
  | O => mk_packet (packet1_header x y width height (length jpegData))
                   (chunk_at jpegData 0)
  | S _ => mk_packet (packet_header (ctl_at (length jpegData) k))
                     (chunk_at jpegData k)
  end.

(** Iterations the loop makes on [remaining] bytes. *)
Definition loop_iterations (remaining : nat) : nat :=
  ((remaining + (MAX_PACKET_SIZE - SUBSEQUENT_HEADER) - 1)
     `div` (MAX_PACKET_SIZE - SUBSEQUENT_HEADER))%nat.

(** What the packetizer owes for an image [jpegData]: the packet count,
    the payloads read back in order, the number of bytes to transmit. *)
Definition count_payload_size_ok (jpegData : list Z) (pkts : list (list Z))
  : Prop :=
  Z.of_nat (length pkts) = packetCount (Z.of_nat (length jpegData)) /\
  concat (imap (payload_of (length jpegData)) pkts) = jpegData /\
  Z.of_nat (total_size pkts) = packetCount (Z.of_nat (length jpegData)) * 4095.

Definition flags_value (isFirst isLast : bool) : Z :=
  Z.lor (if isFirst then 0x80 else 0) (if isLast then 0x40 else 0).

(** The sequence-control byte of every packet, by position. *)
Definition control_bytes_ok (pkts : list (list Z)) : Prop :=
  forall (k : nat) (pkt : list Z), pkts !! k = Some pkt ->
    let i := Z.of_nat k + 1 in
    let first := bool_decide (k = 0%nat) in
    let last := bool_decide (S k = length pkts) in
    control_byte pkt = Z.lor (Z.lor i 0x20) (flags_value first last) /\
    Z.testbit (control_byte pkt) 7 = first /\
    Z.testbit (control_byte pkt) 6 = last /\
    (length pkts = 1%nat -> control_byte pkt = 0xe1).

(** [generateWritePacketByte] on part index [k + 1]; when that index is
    64 the packet is assumed to be the last one. *)
Definition ctl_small (k : nat) (f l : bool) : Prop :=
  (k = 63%nat -> l = true) ->
  let i := Z.of_nat k + 1 in
  let v := generateWritePacketByte i f l in
  v = Z.lor (Z.lor i 0x20) (flags_value f l) /\
  Z.testbit v 7 = f /\ Z.testbit v 6 = l.

#[local] Instance ctl_small_dec k f l : Decision (ctl_small k f l).
Proof. unfold ctl_small. cbv zeta. apply _. Defined.

(** Full-size packets with zero padding after header and payload. *)
Definition padded_ok (size : nat) (pkts : list (list Z)) : Prop :=
  forall (k : nat) (pkt : list Z), pkts !! k = Some pkt ->
    length pkt = MAX_PACKET_SIZE /\
    Forall (fun b => b = 0) (padding_of size k pkt).

(** The length field of the first packet holds the low 16 bits of the
    image size. *)
Definition length_field_ok (size : nat) (pkts : list (list Z)) : Prop :=
  exists pkt, pkts !! 0%nat = Some pkt /\
    length_field pkt = Z.of_nat size mod 65536 /\
    (Z.of_nat size < 65536 -> length_field pkt = Z.of_nat size).

(** [n] consecutive steps of one thread. *)
Fixpoint solo_steps (tid : nat) (n : nat) (t : thread_state) (sh : shared_fd)
  : thread_state * shared_fd :=
  match n with
  | O => (t, sh)
  | S n' => let '(t', sh') := thread_step tid t sh in solo_steps tid n' t' sh'
  end.

(** The schedule that lets thread 0 finish before thread 1 starts. *)
Definition one_after_the_other (n0 n1 : nat) : list bool :=
  replicate n0 false ++ replicate n1 true.

(** Two images of two packets each, for keys 0 and 1. *)
Definition two_packets_A : list (list Z) :=
  (generateImagePackets 0 (replicate 4076 7) fresh_pool).1.
Definition two_packets_B : list (list Z) :=
  (generateImagePackets 1 (replicate 4076 9) fresh_pool).1.

(** Both threads enter [writev], then hand over packets in turn. *)
Definition alternating : list bool :=
  [false; false; false; false; true; true; true; true;
   false; true; false; false; true; true].



(** ** Further vocabulary: reading a packet back *)

(** Big-endian 16-bit value at offset [off] of a packet. *)
Definition be16 (pkt : list Z) (off : nat) : Z :=
  byte_at pkt off * 256 + byte_at pkt (S off).

(** The rectangle [(x, y, width, height)] announced by a first packet. *)
Definition rect_of (pkt : list Z) : Z * Z * Z * Z :=
  (be16 pkt 9, be16 pkt 11, be16 pkt 13, be16 pkt 15).

Definition is_byte (b : Z) : Prop := 0 <= b < 256.

(** The rectangle [generateImagePackets] computes for a key. *)
Definition key_rect (keyIndex : Z) : Z * Z * Z * Z :=
  (23 + (keyIndex mod 3) * 158, 6 + (keyIndex / 3) * 158, 118, 118).

(** Two rectangles share no pixel. *)
Definition disjoint_rects (r1 r2 : Z * Z * Z * Z) : Prop :=
  let '(x1, y1, w1, h1) := r1 in
  let '(x2, y2, w2, h2) := r2 in
  x1 + w1 <= x2 \/ x2 + w2 <= x1 \/ y1 + h1 <= y2 \/ y2 + h2 <= y1.

(** Rectangle [r1] lies inside rectangle [r2]. *)
Definition inside_rect (r1 r2 : Z * Z * Z * Z) : Prop :=
  let '(x1, y1, w1, h1) := r1 in
  let '(x2, y2, w2, h2) := r2 in
  x2 <= x1 /\ x1 + w1 <= x2 + w2 /\ y2 <= y1 /\ y1 + h1 <= y2 + h2.

(** The sequence-control byte of every packet, for images of any size:
    the value is taken modulo 256. *)
Definition control_flags_ok (pkts : list (list Z)) : Prop :=
  forall (k : nat) (pkt : list Z), pkts !! k = Some pkt ->
    let c := control_byte pkt in
    c = Z.lor (Z.lor (Z.of_nat k + 1) 0x20)
          (flags_value (bool_decide (k = 0%nat))
                       (bool_decide (S k = length pkts))) mod 256 /\
    Z.testbit c 5 = true /\
    (k = 0%nat -> Z.testbit c 7 = true) /\
    (S k = length pkts -> Z.testbit c 6 = true).

(** ** The monitoring thread *)

(** What [poll] reports in one pass of the loop. *)
Inductive poll_result :=
| PollError     (* ret < 0 *)
| PollTimeout   (* ret == 0 *)
| PollNoData    (* ret > 0 without POLLIN *)
| PollIn.

(** What [read] answers: the bytes it stored at the start of the buffer,
    or [-1] with [errno] set. *)
Inductive read_result :=
| ReadData (data : list Z)
| ReadError (err : Z).

(** One pass of the loop as the thread sees it: whether another thread
    has cleared the monitoring flag since the last pass, then the
    answers of [poll] and, when it is reached, of [read]. *)
Record loop_input := mkInput {
  flag_cleared : bool;
  polled : poll_result;
  was_read : read_result
}.

Definition REPORT_SIZE : nat := 256.

(** [read(fd, report.data(), report.size())]: at most 256 bytes arrive
    and overwrite the start of the buffer; an error leaves it as it
    was. *)
Definition read_report (r : read_result) (report : list Z) : Z * list Z :=
  match r with
  | ReadData data =>
      let got := take REPORT_SIZE data in
      (Z.of_nat (length got), got ++ drop (length got) report)
  | ReadError _ => (-1, report)
  end.

Definition read_errno (r : read_result) (errno : Z) : Z :=
  match r with ReadData _ => errno | ReadError e => e end.

Record monitor_state := mkMonitor {
  m_dev : Device;
  m_report : list Z;             (* the 256-byte buffer *)
  m_errno : Z;
  m_delivered : list ButtonEvent; (* events handed to the callback, oldest first *)
  m_exited : bool                (* the loop has been left and the fd closed *)
}.

(** Leaving the loop: [close(fd); impl_->monitoring = false]. *)
Definition leave_loop (st : monitor_state) : monitor_state :=
  mkMonitor (monitor_thread_exit (m_dev st)) (m_report st) (m_errno st)
            (m_delivered st) true.

Definition monitor_pass (inp : loop_input) (st : monitor_state) : monitor_state :=
  if m_exited st then st
  else
    let dev :=
      if flag_cleared inp
      then mkDevice (set_monitoring false (impl_ (m_dev st)))
                    (event_callback_ (m_dev st))
      else m_dev st in
    let st := mkMonitor dev (m_report st) (m_errno st) (m_delivered st) false in
    if negb (monitoring (impl_ dev)) then leave_loop st
    else
      match polled inp with
      | PollError => leave_loop st
      | PollTimeout | PollNoData => st
      | PollIn =>
          let '(bytes_read, report) := read_report (was_read inp) (m_report st) in
          let errno := read_errno (was_read inp) (m_errno st) in
          let '(events, dev') := process_report bytes_read report dev in
          let st' := mkMonitor dev' report errno (m_delivered st ++ events) false in
          if bool_decide (bytes_read < 0) && negb (bool_decide (errno = EAGAIN))
          then leave_loop st'
          else st'
      end.

Definition monitor_loop (inputs : list loop_input) (st : monitor_state)
  : monitor_state :=
  foldl (fun st inp => monitor_pass inp st) st inputs.

(** The thread as it starts, once [open] has succeeded. *)
Definition monitor_start (dev : Device) : monitor_state :=
  mkMonitor dev (replicate REPORT_SIZE 0) 0 [] false.

(** ** Vocabulary of the decoder's invariants *)

Definition nav_code (c : Z) : Prop := c = 0xa1 \/ c = 0xa2.

Definition decoder_inv (i : Impl) : Prop :=
  set_ok (pressed_buttons i) /\
  Forall (fun b => 0 <= b <= 8) (pressed_buttons i) /\
  (last_p_button i = 0 \/ nav_code (last_p_button i)).

(** An event the decoder may deliver: a press or a release, with the
    [pressed] flag to match, of a grid button 0-8 or of P1/P2. *)
Definition event_ok (e : ButtonEvent) : Prop :=
  (e = press_event (button_code e) \/ e = release_event (button_code e)) /\
  (0 <= button_code e <= 8 \/ nav_code (button_code e)).

Definition button_events (b : Z) (events : list ButtonEvent) : list ButtonEvent :=
  filter (fun e => button_code e = b) events.

(** The events of button [b] come as press, release, press, ...: from
    [held] (whether [b] was down before) to [held'] (whether it is down
    after). *)
Inductive alternates (b : Z) : bool -> list ButtonEvent -> bool -> Prop :=
| alt_nil held : alternates b held [] held
| alt_press l held' :
    alternates b true l held' ->
    alternates b false (press_event b :: l) held'
| alt_release l held' :
    alternates b false l held' ->
    alternates b true (release_event b :: l) held'.

(** An input on which the thread leaves its loop: the flag was cleared,
    [poll] failed, or [read] failed with anything but [EAGAIN]. *)
Definition ends_loop (inp : loop_input) : bool :=
  flag_cleared inp ||
  match polled inp with
  | PollError => true
  | PollIn =>
      match was_read inp with
      | ReadError e => negb (bool_decide (e = EAGAIN))
      | ReadData _ => false
      end
  | PollTimeout | PollNoData => false
  end.

(** The inputs before the first one that ends the loop. *)
Fixpoint before_end (inputs : list loop_input) : list loop_input :=
  match inputs with
  | [] => []
  | inp :: rest => if ends_loop inp then [] else inp :: before_end rest
  end.

(** The reports that were actually read. *)
Definition reports_read (inputs : list loop_input) : list (list Z) :=
  omap (fun inp =>
          match polled inp, was_read inp with
          | PollIn, ReadData data => Some data
          | _, _ => None
          end) inputs.

(** Decoding a series of reports through the one buffer. *)
Fixpoint decode_reports (reads : list (list Z)) (report : list Z) (dev : Device)
  : list ButtonEvent * Device :=
  match reads with
  | [] => ([], dev)
  | data :: rest =>
      let '(bytes_read, report') := read_report (ReadData data) report in
      let '(events, dev') := process_report bytes_read report' dev in
      let '(events', dev'') := decode_reports rest report' dev' in
      (events ++ events', dev'')
  end.


(** The device as its monitoring thread first sees it: a callback is set
    and [startMonitoring] has run. *)
Definition monitored_device : Device :=
  (startMonitoring (listening ready_impl) fresh_world).1.

(** The monitoring thread from its first statement: [open], then the
    loop; a failed [open] clears the flag and returns. *)
Definition monitor_thread_body (opened : bool) (inputs : list loop_input)
    (dev : Device) : Device :=
  if opened then m_dev (monitor_loop inputs (monitor_start dev))
  else monitor_thread_exit dev.

(** ** Animations: which task a call works on *)

(** The one target an operation of the animation interface addresses;
    [stopAllAnimations] addresses them all. *)
Definition op_target (op : anim_op) : option target :=
  match op with
  | OpSetKeyGif k _ _ | OpSetKeyGifFromFile k _ _ | OpStopKeyAnimation k =>
      Some (Key k)
  | OpSetScreenGif _ _ | OpSetScreenGifFromFile _ _ | OpStopScreenAnimation =>
      Some Screen
  | OpStopAllAnimations => None
  end.

(** The fields of the device object that are no part of the animation
    bookkeeping. *)
Definition same_rest (d d' : Impl) : Prop :=
  initialized d' = initialized d /\ monitoring d' = monitoring d /\
  monitor_thread d' = monitor_thread d /\
  pressed_buttons d' = pressed_buttons d /\
  last_p_button d' = last_p_button d.

(** What identifies the task stored for a target and is never written
    by its worker: the thread handle and the decoded animation.  (The
    worker does write [running] and [current_frame].) *)
Definition task_identity (t : target) (d : Impl)
  : option (option nat * GifAnimation) :=
  (fun a => (animation_thread a, animation a)) <$> task_of t d.

(** The events [stopAllAnimations] logs for the key tasks, in the order
    of the map. *)
Definition key_stop_events (d : Impl) : list thread_event :=
  flat_map (fun pair : Z * KeyAnimation => stop_events (Some pair.2))
           (merge_sort by_key (map_to_list (animations d))).

(** ** The worker thread of an animation

    The lambda handed to [std::thread] by the four [set...Gif]
    operations.  The task is shared with the thread that may call a stop
    operation: [stop_requested] tells whether [running] was cleared from
    outside since the previous pass. *)

(** [setKeyImage(keyIndex, ...)] for a key worker, [setScreenImage(...)]
    for the screen worker. *)
Definition show_frame (channel : nat -> writev_result) (t : target)
    (jpegData : list Z) (d : Impl) (w : World) : bool * World :=
  match t with
  | Key keyIndex => setKeyImage channel keyIndex jpegData d w
  | Screen => setScreenImage channel jpegData d w
  end.

Record worker_state := mkWorker {
  wk_anim : KeyAnimation;
  wk_world : World;
  wk_shown : list GifFrame   (* frames displayed and slept on, oldest first *)
}.

(** One test of [while (anim_ptr->running)] and, when it holds, one
    execution of the body.  [None] stands for an access
    [frames[current_frame]] past the end of the vector. *)
Definition worker_pass (channel : nat -> writev_result) (t : target) (d : Impl)
    (stop_requested : bool) (st : worker_state) : option worker_state :=
  let a := wk_anim st in
  let still_running := if stop_requested then false else running a in
  if negb still_running
  then Some (mkWorker (mkAnim (animation a) false (animation_thread a)
                              (current_frame a))
                      (wk_world st) (wk_shown st))
  else
    match frames (animation a) !! current_frame a with
    | None => None
    | Some frame =>
        let w := (show_frame channel t (jpeg_data frame) d (wk_world st)).2 in
        let next := S (current_frame a) in
        let a' :=
          (* current_frame >= frames.size() *)
          if bool_decide (length (frames (animation a)) <= next)%nat
          then
            if loop (animation a)
            then mkAnim (animation a) true (animation_thread a) 0
            else mkAnim (animation a) false (animation_thread a) next
          else mkAnim (animation a) true (animation_thread a) next in
        Some (mkWorker a' w (wk_shown st ++ [frame]))
    end.

Definition worker_run (channel : nat -> writev_result) (t : target) (d : Impl)
    (stops : list bool) (st : worker_state) : option worker_state :=
  foldl (fun o stop_requested => o ≫= worker_pass channel t d stop_requested)
        (Some st) stops.

(** The task as [start_task] creates it. *)
Definition new_task (anim : GifAnimation) (tid : nat) : KeyAnimation :=
  mkAnim anim true (Some tid) 0.

(** Passes made before the first stop request. *)
Fixpoint quiet_passes (stops : list bool) : nat :=
  match stops with
  | false :: rest => S (quiet_passes rest)
  | _ => 0
  end.

Definition stop_seen (stops : list bool) : bool :=
  bool_decide (true ∈ stops).

(** The first [n] frames of the animation played round and round. *)
Definition cycled (fs : list GifFrame) (n : nat) : list GifFrame :=
  omap (fun i => fs !! (i mod length fs)%nat) (seq 0 n).

(** The world after the listed frames were sent one after the other. *)
Definition after_frames (channel : nat -> writev_result) (t : target)
    (d : Impl) (shown : list GifFrame) (w : World) : World :=
  foldl (fun w frame => (show_frame channel t (jpeg_data frame) d w).2) w shown.

(** ** A session of still-image updates

    Image updates made one after the other by the one thread that writes
    to the device; the GIF operations, which start threads that write
    too, are not among them. *)

Inductive still_op :=
| StillKeyImage (keyIndex : Z) (jpegData : list Z)
| StillRawImage (x y width height : Z) (jpegData : list Z)
| StillScreenImage (jpegData : list Z).

Definition run_still_op (channel : nat -> writev_result) (op : still_op)
    (d : Impl) (w : World) : bool * World :=
  match op with
  | StillKeyImage k jpegData => setKeyImage channel k jpegData d w
  | StillRawImage x y width height jpegData =>
      setRawImage channel x y width height jpegData d w
  | StillScreenImage jpegData => setScreenImage channel jpegData d w
  end.

Definition still_session (channel : nat -> writev_result)
    (ops : list still_op) (d : Impl) (w : World) : World :=
  foldl (fun w op => (run_still_op channel op d w).2) w ops.

(** What every still-image update keeps. *)
Definition channel_kept (w w' : World) : Prop :=
  pool_wf (packet_pool w') /\ fd_flags (os w') = fd_flags (os w) /\
  (nwritev (os w) <= nwritev (os w') <= nwritev (os w) + 2)%nat /\
  thread_log w' = thread_log w.

(** ** Construction, capabilities and initialization

    [DeviceInfo], [DeviceCapability] and the base class [Device] are
    declared in [logilinux/device.h]; the embedding keeps the one field
    of [DeviceInfo] this file reads and the capability names its sources
    use. *)

Inductive DeviceCapability :=
| BUTTONS | ROTATION | HIGH_RES_SCROLL | LCD_DISPLAY | IMAGE_UPLOAD.

Global Instance DeviceCapability_eq_dec : EqDecision DeviceCapability.
Proof. solve_decision. Defined.

Record DeviceInfo := mkInfo { device_path : string }.

(** [s.find(p) == 0] for a non-empty [p]. *)
Definition starts_with (p s : string) : bool := String.prefix p s.

(** [s.find_last_of(c)], counting from [pos]; [None] is [npos]. *)
Fixpoint find_last_of (c : Ascii.ascii) (s : string) (pos : nat) : option nat :=
  match s with
  | EmptyString => None
  | String a rest =>
      match find_last_of c rest (S pos) with
      | Some p => Some p
      | None => if Ascii.eqb a c then Some pos else None
      end
  end.

(** [s.substr(n)] for [n <= s.size()]. *)
Definition substr (n : nat) (s : string) : string :=
  String.substring n (String.length s - n) s.

(** The character ['/']. *)
Definition slash : Ascii.ascii := Eval cbv in Ascii.ascii_of_nat 47.

(** [event_path.substr(event_path.find_last_of('/') + 1)]; [npos + 1]
    wraps to 0. *)
Definition event_name_of (event_path : string) : string :=
  substr (match find_last_of slash event_path 0 with
          | Some p => S p
          | None => 0%nat
          end) event_path.

(** A [__s16] field as C++ reads it: its 16 bits taken as a
    two's-complement number, which the promotion to [int] keeps. *)
Definition to_s16 (bits : Z) : Z := (bits + 32768) mod 65536 - 32768.

(** What the system answers when [/dev/hidraw<i>] is probed: [open]
    fails, [ioctl(HIDIOCGRAWINFO)] fails, or the ids of the device
    behind the node come back.  The kernel stores them in [info.vendor]
    and [info.product], which [linux/hidraw.h] declares [__s16]. *)
Inductive probe_answer :=
| OpenFailed
| IoctlFailed
| RawInfo (vendor product : Z).

(** [info.vendor == 0x046d && info.product == 0xc354], both sides
    [int]. *)
Definition is_mx_keypad (a : probe_answer) : bool :=
  match a with
  | RawInfo vendor product =>
      bool_decide (to_s16 vendor = 0x046d)
      && bool_decide (to_s16 product = 0xc354)
  | _ => false
  end.

(** ["/dev/hidraw" + std::to_string(i)] *)
Definition hidraw_name (i : nat) : string := "/dev/hidraw" +:+ pretty i.

(** The loop [for (int i = 0; i < 20; i++)] from index [i] with
    [remaining] rounds to go: the path found, and the indices whose
    device node it tried to open. *)
Fixpoint probe_hidraw (probe : nat -> probe_answer) (remaining i : nat)
  : string * list nat :=
  match remaining with
  | O => (EmptyString, [])
  | S remaining' =>
      if is_mx_keypad (probe i) then (hidraw_name i, [i])
      else
        let '(path, tried) := probe_hidraw probe remaining' (S i) in
        (path, i :: tried)
  end.

Definition findHidrawPath (probe : nat -> probe_answer) (event_path : string)
  : string * list nat :=
  if negb (starts_with "event" (event_name_of event_path))
  then (EmptyString, [])
  else probe_hidraw probe 20 0.

(** The object: the fields of [Impl] that the sections above do not
    need ([hidraw_fd], [hidraw_path]) beside those they do. *)
Record MXKeypadDevice := mkKeypad {
  device : Device;
  hidraw_fd : Z;
  hidraw_path : string;
  info_ : DeviceInfo;
  capabilities_ : list DeviceCapability
}.

Definition MXKeypadDevice_new (probe : nat -> probe_answer) (info : DeviceInfo)
  : MXKeypadDevice * list nat :=
  let capabilities := [BUTTONS] in
  let '(path, tried) :=
    if starts_with "/dev/hidraw" (device_path info)
    then (device_path info, [])
    else findHidrawPath probe (device_path info) in
  let capabilities :=
    if negb (bool_decide (path = EmptyString))
    then capabilities ++ [LCD_DISPLAY; IMAGE_UPLOAD]
    else capabilities in
  (mkKeypad fresh_device (-1) path info capabilities, tried).

(** [std::find(...) != capabilities_.end()] *)
Definition hasCapability (cap : DeviceCapability) (k : MXKeypadDevice) : bool :=
  bool_decide (cap ∈ capabilities_ k).

Definition hasLCD (k : MXKeypadDevice) : bool :=
  negb (bool_decide (hidraw_path k = EmptyString)).

Definition INIT_REPORTS : list (list Z) :=
  [ [0x11; 0xff; 0x0b; 0x3b; 0x01; 0xa1; 0x03; 0x00; 0x00; 0x00;
     0x00; 0x00; 0x00; 0x00; 0x00; 0x00; 0x00; 0x00; 0x00; 0x00];
    [0x11; 0xff; 0x0b; 0x3b; 0x01; 0xa2; 0x03; 0x00; 0x00; 0x00;
     0x00; 0x00; 0x00; 0x00; 0x00; 0x00; 0x00; 0x00; 0x00; 0x00] ].

Inductive sys_event :=
| SysOpen (path : string) (flags : Z) (fd : Z)
| SysWrite (fd : Z) (data : list Z)
| SysSleep (usec : Z)
| SysClose (fd : Z).

Definition set_initialized (b : bool) (i : Impl) : Impl :=
  mkImpl b (monitoring i) (monitor_thread i) (pressed_buttons i)
         (last_p_button i) (animations i) (screen_animation i).

(** [initialize]; [opened] is what [open(hidraw_path, O_RDWR)] returns
    if it is called.  The results of the two [write] calls are not
    looked at.  ([impl_] is never null.) *)
Definition initialize (opened : Z) (k : MXKeypadDevice)
  : bool * MXKeypadDevice * list sys_event :=
  let i := impl_ (device k) in
  if initialized i || bool_decide (hidraw_path k = EmptyString)
  then (initialized i, k, [])
  else
    let k := mkKeypad (device k) opened (hidraw_path k) (info_ k)
                      (capabilities_ k) in
    let log := [SysOpen (hidraw_path k) O_RDWR opened] in
    if bool_decide (opened < 0) then (false, k, log)
    else
      let log :=
        log ++ flat_map (fun report => [SysWrite opened report; SysSleep 10000])
                        INIT_REPORTS in
      (true,
       mkKeypad (mkDevice (set_initialized true i) (event_callback_ (device k)))
                opened (hidraw_path k) (info_ k) (capabilities_ k),
       log).

Definition writes_of (log : list sys_event) : list (list Z) :=
  omap (fun e => match e with SysWrite _ data => Some data | _ => None end) log.

Definition opens_of (log : list sys_event) : list string :=
  omap (fun e => match e with SysOpen path _ _ => Some path | _ => None end) log.

(** Three nodes that are not the keypad, then nodes that answer with
    the keypad's ids, 0x046d:0xc354. *)
Definition sample_probe (i : nat) : probe_answer :=
  match i with
  | 0%nat => OpenFailed
  | 1%nat => RawInfo 0x046d 0xc52b
  | 2%nat => IoctlFailed
  | _ => RawInfo 0x046d 0xc354
  end.

(** A keypad object on a hidraw node given directly. *)
Definition hidraw_keypad : MXKeypadDevice :=
  (MXKeypadDevice_new sample_probe (mkInfo "/dev/hidraw3")).1.

(** The destructor: [stopAllAnimations(); stopMonitoring();], the
    [close] of a descriptor that was opened, and then the destruction of
    the members.  By then the animation tasks are gone; what is left to
    destroy that can act is [impl_->monitor_thread], and destroying a
    [std::thread] that is still joinable calls [std::terminate]. *)
Definition MXKeypadDevice_delete (k : MXKeypadDevice) (w : World)
  : MXKeypadDevice * World * list sys_event :=
  let '(i, w) := stopAllAnimations (impl_ (device k)) w in
  let '(dev, w) := stopMonitoring (mkDevice i (event_callback_ (device k))) w in
  let closes :=
    if bool_decide (hidraw_fd k >= 0) then [SysClose (hidraw_fd k)] else [] in
  let w :=
    match monitor_thread (impl_ dev) with
    | Some _ => log_thread EvTerminate w
    | None => w
    end in
  (mkKeypad dev (hidraw_fd k) (hidraw_path k) (info_ k) (capabilities_ k), w,
   closes).

(** What [stopMonitoring] logs on a device. *)
Definition monitor_stop_events (i : Impl) : list thread_event :=
  if monitoring i
  then match monitor_thread i with Some tid => [EvJoin tid] | None => [] end
  else [].

(** The flag is down but the thread handle is still joinable: the
    monitoring thread has ended by itself and was not joined. *)
Definition left_joinable (i : Impl) : bool :=
  negb (monitoring i) && bool_decide (is_Some (monitor_thread i)).

(** ** The monitor tool ([tools/keypad-monitor.cpp]) *)

Record Options := mkOptions { json : bool; gridOnly : bool; navOnly : bool }.

Definition isNavigationButton (code : Z) : bool :=
  bool_decide (code = 0xa1) || bool_decide (code = 0xa2).

(** [handleEvent] up to its two filters: the events that go on to be
    printed. *)
Definition handleEvent (opts : Options) (e : ButtonEvent) : list ButtonEvent :=
  let isNav := isNavigationButton (button_code e) in
  if gridOnly opts && isNav then []
  else if navOnly opts && negb isNav then []
  else [e].

Definition printed (opts : Options) (events : list ButtonEvent)
  : list ButtonEvent :=
  flat_map (handleEvent opts) events.

Global Instance nav_code_dec c : Decision (nav_code c).
Proof. unfold nav_code. apply _. Defined.

(** ** The tic-tac-toe example ([examples/tic-tac-toe.cpp]) *)

Module player.
Inductive t := red | blue.
End player.

Module tileState.
Inductive t := none | red | blue.
End tileState.

Module winningPlayerType.
Inductive t := none | cats | red | blue.
End winningPlayerType.

Global Instance player_eq_dec : EqDecision player.t.
Proof. solve_decision. Defined.
Global Instance tileState_eq_dec : EqDecision tileState.t.
Proof. solve_decision. Defined.
Global Instance winningPlayerType_eq_dec : EqDecision winningPlayerType.t.
Proof. solve_decision. Defined.

Module TicTacToe.

(** [gameState[i]] on the [std::array<tileState, 9>]. *)
Definition tile (gameState : list tileState.t) (i : nat) : tileState.t :=
  default tileState.none (gameState !! i).

(** One of the eight tests of [checkWinner]:
    [if (gameState[a] == gameState[b] && gameState[a] == gameState[c])
       winningTile = winningTile == none ? gameState[a] : winningTile;] *)
Definition check_line (gameState : list tileState.t) (a b c : nat)
    (winningTile : tileState.t) : tileState.t :=
  if bool_decide (tile gameState a = tile gameState b)
     && bool_decide (tile gameState a = tile gameState c)
  then
    if bool_decide (winningTile = tileState.none) then tile gameState a
    else winningTile
  else winningTile.

Definition checkWinner (gameState : list tileState.t) : winningPlayerType.t :=
  let winningTile := tileState.none in
  (* check columns *)
  let winningTile := check_line gameState 0 3 6 winningTile in
  let winningTile := check_line gameState 1 4 7 winningTile in
  let winningTile := check_line gameState 2 5 8 winningTile in
  (* check rows *)
  let winningTile := check_line gameState 0 1 2 winningTile in
  let winningTile := check_line gameState 3 4 5 winningTile in
  let winningTile := check_line gameState 6 7 8 winningTile in
  (* check diagonals *)
  let winningTile := check_line gameState 0 4 8 winningTile in
  let winningTile := check_line gameState 2 4 6 winningTile in
  match winningTile with
  | tileState.none =>
      let tilesLeftEmpty :=
        existsb (fun t => bool_decide (t = tileState.none)) gameState in
      if negb tilesLeftEmpty then winningPlayerType.cats
      else winningPlayerType.none
  | tileState.red => winningPlayerType.red
  | tileState.blue => winningPlayerType.blue
  end.

(** The globals of the program, and the calls it has made to
    [setKeyImage]: the key and whose picture was sent. *)
Record game := mkGame {
  replicatedGameState : list tileState.t;
  turn : player.t;
  running : bool;
  painted : list (Z * player.t)
}.

Definition tile_of (p : player.t) : tileState.t :=
  match p with player.red => tileState.red | player.blue => tileState.blue end.

(** [static_cast<player>((playerTurn + 1) % 2)] *)
Definition next_turn (p : player.t) : player.t :=
  match p with player.red => player.blue | player.blue => player.red end.

(** [onEvent] on a button event.  [None] stands for an access
    [replicatedGameState[button_code]] outside the nine tiles. *)
Definition onEvent (e : ButtonEvent) (g : game) : option game :=
  if pressed e then Some g
  else if bool_decide (button_code e < 0) || bool_decide (button_code e >= 9)
  then None
  else
    let i := Z.to_nat (button_code e) in
    if bool_decide (tile (replicatedGameState g) i = tileState.none)
    then
      let gameState := <[i := tile_of (turn g)]> (replicatedGameState g) in
      let painted := painted g ++ [(button_code e, turn g)] in
      let turn := next_turn (turn g) in
      let winner := checkWinner gameState in
      let running :=
        if bool_decide (winner = winningPlayerType.none) then running g
        else false in
      Some (mkGame gameState turn running painted)
    else Some g.

Definition play (events : list ButtonEvent) (g : game) : option game :=
  foldl (fun o e => o ≫= onEvent e) (Some g) events.

(** The state [main] leaves before it starts monitoring. *)
Definition start : game :=
  mkGame (replicate 9 tileState.none) player.red true [].

(** The eight lines in the order [checkWinner] tests them. *)
Definition lines : list (nat * nat * nat) :=
  [(0, 3, 6); (1, 4, 7); (2, 5, 8); (0, 1, 2); (3, 4, 5); (6, 7, 8);
   (0, 4, 8); (2, 4, 6)]%nat.

Definition owns (gameState : list tileState.t) (p : player.t)
    (line : nat * nat * nat) : Prop :=
  tile gameState line.1.1 = tile_of p /\ tile gameState line.1.2 = tile_of p /\
  tile gameState line.2 = tile_of p.

Definition has_line (gameState : list tileState.t) (p : player.t) : Prop :=
  exists line, line ∈ lines /\ owns gameState p line.

(** The moves made so far, seen from the board. *)
Definition board_of (moves : list (Z * player.t)) : list tileState.t :=
  foldl (fun b m => <[Z.to_nat m.1 := tile_of m.2]> b)
        (replicate 9 tileState.none) moves.

Definition mover (i : nat) : player.t :=
  if Nat.even i then player.red else player.blue.

Definition game_ok (g : game) : Prop :=
  length (replicatedGameState g) = 9%nat /\
  replicatedGameState g = board_of (painted g) /\
  NoDup (painted g).*1 /\
  Forall (fun m : Z * player.t => 0 <= m.1 <= 8) (painted g) /\
  (forall i m, painted g !! i = Some m -> m.2 = mover i) /\
  turn g = mover (length (painted g)) /\
  (forall k, tile (replicatedGameState g) k <> tileState.none <->
             Z.of_nat k ∈ (painted g).*1).

(** The winning tile after the tests of the listed lines. *)
Definition winning_tile (gameState : list tileState.t)
    (ls : list (nat * nat * nat)) (winningTile : tileState.t) : tileState.t :=
  foldl (fun winningTile line =>
           check_line gameState line.1.1 line.1.2 line.2 winningTile)
        winningTile ls.

End TicTacToe.
(** * Properties *)

(** ** The packetizer *)

Example packets_small :
  map (take 24) (generateImagePackets 4 [7; 8; 9] fresh_pool).1 =
  [[0x14; 0xff; 0x02; 0x2b; 0xe1; 0x01; 0x00; 0x01; 0x00;
    0x00; 0xb5; 0x00; 0xa4; 0x00; 0x76; 0x00; 0x76; 0x00; 0x00; 0x03;
    7; 8; 9; 0]].
Proof. vm_compute. reflexivity. Qed.

Lemma memset_full buf c n : length buf = n -> memset buf c n = replicate n c.
Proof.
  intros H. unfold memset. rewrite drop_ge by lia. apply app_nil_r.
Qed.

Lemma memcpy_header (n : nat) hdr :
  memcpy (replicate n 0) 0 hdr = hdr ++ replicate (n - length hdr) 0.
Proof.
  unfold memcpy. rewrite take_0, Nat.add_0_l, drop_replicate. reflexivity.
Qed.

Lemma memcpy_payload hdr payload (m : nat) :
  memcpy (hdr ++ replicate m 0) (length hdr) payload =
  hdr ++ payload ++ replicate (m - length payload) 0.
Proof.
  unfold memcpy. rewrite take_app_length.
  rewrite drop_app_add', drop_replicate by reflexivity. reflexivity.
Qed.

Lemma build_packet (n : nat) buf hdr payload :
  length buf = n ->
  memcpy (memcpy (memset buf 0 n) 0 hdr) (length hdr) payload
  = hdr ++ payload ++ replicate (n - length hdr - length payload) 0.
Proof.
  intros Hb. rewrite memset_full, memcpy_header by done.
  apply memcpy_payload.
Qed.

Lemma length_packet1_header x y w h n : length (packet1_header x y w h n) = 20%nat.
Proof. reflexivity. Qed.

Lemma length_packet_header c : length (packet_header c) = 5%nat.
Proof. reflexivity. Qed.

Lemma length_mk_packet hdr payload :
  (length hdr + length payload <= MAX_PACKET_SIZE)%nat ->
  length (mk_packet hdr payload) = MAX_PACKET_SIZE.
Proof.
  intros H. unfold mk_packet. rewrite !length_app, length_replicate. lia.
Qed.

Lemma pool_wf_acquire p :
  pool_wf p ->
  pool_wf (acquire p).2 /\ ((acquire p).1 < POOL_SIZE)%nat /\
  length (slot (acquire p).2 (acquire p).1) = MAX_PACKET_SIZE.
Proof.
  intros (Hl & Hf & Hn). unfold acquire, slot; simpl.
  assert (Hi : (Z.to_nat (next_free p mod Z.of_nat POOL_SIZE) < POOL_SIZE)%nat).
  { unfold POOL_SIZE. lia. }
  split; [|split]; [| exact Hi |].
  - split; [exact Hl | split; [exact Hf |]]. simpl. lia.
  - destruct (lookup_lt_is_Some_2 (pool p) _ ltac:(rewrite Hl; exact Hi)) as [b Hb].
    rewrite Hb. simpl. eapply Forall_lookup_1 in Hf; eauto.
Qed.

Lemma pool_wf_store p idx buf :
  pool_wf p -> length buf = MAX_PACKET_SIZE -> pool_wf (store p idx buf).
Proof.
  intros (Hl & Hf & Hn) Hb. unfold store, pool_wf; simpl.
  rewrite length_insert. split; [done | split; [| done]].
  apply Forall_insert; done.
Qed.

Lemma take_min_length {A} (l : list A) n : take (n `min` length l) l = take n l.
Proof.
  destruct (decide (n <= length l)%nat).
  - by rewrite Nat.min_l.
  - rewrite Nat.min_r, !take_ge by lia. done.
Qed.

Lemma loop_body_spec x y w h jpeg s j :
  pool_wf (lpool s) -> part s = Z.of_nat j + 2 ->
  (currentOffset s + remainingBytes s = length jpeg)%nat ->
  (0 < remainingBytes s)%nat ->
  currentOffset s = payload_offset (S j) ->
  let s' := loop_body jpeg s in
  result s' = result s ++ [packet_at x y w h jpeg (S j)] /\
  pool_wf (lpool s') /\ part s' = Z.of_nat (S j) + 2 /\
  (currentOffset s' + remainingBytes s' = length jpeg)%nat /\
  remainingBytes s' =
    (remainingBytes s - remainingBytes s `min` (MAX_PACKET_SIZE - SUBSEQUENT_HEADER))%nat /\
  ((0 < remainingBytes s')%nat -> currentOffset s' = payload_offset (S (S j))).
Proof.
  intros Hwf Hpart Hsum Hrem Hoff. unfold loop_body.
  destruct (pool_wf_acquire _ Hwf) as (Hwf' & Hidx & Hslot).
  destruct (acquire (lpool s)) as [idx p] eqn:Hacq. simpl in Hwf', Hidx, Hslot.
  set (bc := (remainingBytes s `min` (MAX_PACKET_SIZE - SUBSEQUENT_HEADER))%nat).
  assert (Hbc : (0 < bc)%nat) by (unfold bc, MAX_PACKET_SIZE, SUBSEQUENT_HEADER; lia).
  rewrite (bool_decide_eq_true_2 _ Hbc).
  set (payload := take bc (drop (currentOffset s) jpeg)).
  assert (Hpl : length payload = bc).
  { unfold payload. rewrite length_take, length_drop. unfold bc. lia. }
  set (hdr := packet_header _).
  assert (Hpk : memcpy (memcpy (memset (slot p idx) 0 MAX_PACKET_SIZE) 0 hdr)
                  SUBSEQUENT_HEADER payload = packet_at x y w h jpeg (S j)).
  { change SUBSEQUENT_HEADER with (length hdr).
    rewrite build_packet by exact Hslot.
    unfold packet_at, chunk_at, mk_packet.
    assert (Hh : hdr = packet_header (ctl_at (length jpeg) (S j))).
    { unfold hdr, ctl_at. do 2 f_equal.
      + lia.
      + apply bool_decide_ext. rewrite <- Hsum, Hoff. fold bc.
        unfold bc, header_size, MAX_PACKET_SIZE, SUBSEQUENT_HEADER. lia. }
    assert (Hp : payload = take (MAX_PACKET_SIZE - header_size (S j))
                             (drop (payload_offset (S j)) jpeg)).
    { unfold payload. rewrite <- Hoff.
      rewrite <- (take_min_length _ (MAX_PACKET_SIZE - _)), length_drop.
      f_equal. unfold bc, header_size. lia. }
    rewrite <- Hh, <- Hp. reflexivity. }
  rewrite Hpk. cbn [result lpool part currentOffset remainingBytes].
  split; [done|].
  split.
  { apply pool_wf_store; [done|]. rewrite <- Hpk.
    change SUBSEQUENT_HEADER with (length hdr).
    rewrite build_packet by exact Hslot. apply length_mk_packet.
    rewrite Hpl. unfold hdr. rewrite length_packet_header.
    unfold bc, MAX_PACKET_SIZE, SUBSEQUENT_HEADER. lia. }
  split; [lia|]. split; [unfold bc; lia|]. split; [done|].
  intros Hr. rewrite Hoff. unfold payload_offset.
  assert (bc = MAX_PACKET_SIZE - SUBSEQUENT_HEADER)%nat by (unfold bc in *; lia).
  lia.
Qed.

Lemma loop_iterations_0 : loop_iterations 0 = 0%nat.
Proof. reflexivity. Qed.

Lemma loop_iterations_step r :
  (0 < r)%nat ->
  loop_iterations r =
  S (loop_iterations (r - r `min` (MAX_PACKET_SIZE - SUBSEQUENT_HEADER))).
Proof.
  intros Hr. unfold loop_iterations.
  assert (Hc : Z.of_nat (MAX_PACKET_SIZE - SUBSEQUENT_HEADER) = 4090) by reflexivity.
  revert Hc. generalize (MAX_PACKET_SIZE - SUBSEQUENT_HEADER)%nat. intros c Hc.
  assert (Hq : forall a : nat, Z.of_nat (a `div` c) = Z.of_nat a / 4090).
  { intros a. rewrite Nat2Z.inj_div, Hc. reflexivity. }
  apply Nat2Z.inj. rewrite Nat2Z.inj_succ, !Hq. lia.
Qed.

Lemma while_remaining_spec x y w h jpeg fuel : forall s j,
  (remainingBytes s <= fuel)%nat ->
  pool_wf (lpool s) -> part s = Z.of_nat j + 2 ->
  (currentOffset s + remainingBytes s = length jpeg)%nat ->
  ((0 < remainingBytes s)%nat -> currentOffset s = payload_offset (S j)) ->
  let s' := while_remaining fuel jpeg s in
  remainingBytes s' = 0%nat /\ pool_wf (lpool s') /\
  result s' = result s ++ map (packet_at x y w h jpeg)
                              (seq (S j) (loop_iterations (remainingBytes s))).
Proof.
  induction fuel as [|fuel IH]; intros s j Hfuel Hwf Hpart Hsum Hoff.
  - assert (Hz : remainingBytes s = 0%nat) by lia.
    cbn [while_remaining]. rewrite Hz, loop_iterations_0. cbn [seq map].
    rewrite app_nil_r. done.
  - cbn [while_remaining]. case_bool_decide as Hr.
    + destruct (loop_body_spec x y w h jpeg s j Hwf Hpart Hsum Hr (Hoff Hr))
        as (Hres & Hwf' & Hpart' & Hsum' & Hrem' & Hoff').
      destruct (IH (loop_body jpeg s) (S j)) as (Hz & Hwf'' & Hres'');
        [ rewrite Hrem'; unfold MAX_PACKET_SIZE, SUBSEQUENT_HEADER; lia
        | done | done | done | done |].
      split; [done|]. split; [done|].
      rewrite Hres'', Hres, <- app_assoc, (loop_iterations_step _ Hr), <- Hrem'.
      reflexivity.
    + assert (Hz : remainingBytes s = 0%nat) by lia.
      rewrite Hz, loop_iterations_0. cbn [seq map]. rewrite app_nil_r. done.
Qed.

Lemma generate_packets_spec x y w h jpeg p0 :
  pool_wf p0 ->
  let s := generate_packets x y w h jpeg p0 in
  remainingBytes s = 0%nat /\ pool_wf (lpool s) /\
  result s = map (packet_at x y w h jpeg)
               (seq 0 (S (loop_iterations
                            (length jpeg - (MAX_PACKET_SIZE - PACKET1_HEADER))))).
Proof.
  intros Hwf. unfold generate_packets.
  destruct (pool_wf_acquire _ Hwf) as (Hwf' & Hidx & Hslot).
  destruct (acquire p0) as [idx p] eqn:Hacq. cbn [fst snd] in Hwf', Hidx, Hslot.
  set (bc := (length jpeg `min` (MAX_PACKET_SIZE - PACKET1_HEADER))%nat).
  set (hdr := packet1_header x y w h (length jpeg)).
  set (pk := if bool_decide (0 < bc)%nat then _ else _).
  assert (Hpk : pk = packet_at x y w h jpeg 0).
  { assert (Ht : take (MAX_PACKET_SIZE - PACKET1_HEADER) jpeg = take bc jpeg).
    { unfold bc. rewrite Nat.min_comm. symmetry. apply take_min_length. }
    unfold pk, packet_at, chunk_at, payload_offset, header_size.
    rewrite drop_0, Ht. fold hdr.
    case_bool_decide as Hb.
    - change PACKET1_HEADER with (length hdr).
      rewrite build_packet by exact Hslot. reflexivity.
    - assert (Hz : bc = 0%nat) by lia. rewrite Hz, take_0.
      rewrite memset_full, memcpy_header by exact Hslot.
      unfold mk_packet. cbn [app length]. by rewrite Nat.sub_0_r. }
  rewrite Hpk. cbn [remainingBytes].
  assert (Hlen : length (packet_at x y w h jpeg 0) = MAX_PACKET_SIZE).
  { unfold packet_at. apply length_mk_packet. unfold chunk_at.
    rewrite length_take, length_packet1_header.
    unfold header_size, MAX_PACKET_SIZE, PACKET1_HEADER. lia. }
  edestruct (while_remaining_spec x y w h jpeg (length jpeg - bc)
              (mkLoop (length jpeg - bc) bc 2
                 (store p idx (packet_at x y w h jpeg 0))
                 [packet_at x y w h jpeg 0]) 0)
    as (Hz & Hwf'' & Hres); cbn [remainingBytes lpool part currentOffset result].
  - done.
  - by apply pool_wf_store.
  - done.
  - unfold bc. lia.
  - intros Hr. unfold payload_offset. subst bc.
    rewrite Nat.mul_0_l, Nat.add_0_r. lia.
  - split; [done|]. split; [done|]. rewrite Hres.
    cbn [seq map app remainingBytes]. do 4 f_equal. unfold bc. lia.
Qed.

Lemma ceil_div_spec a b :
  0 < b -> (ceil_div a b - 1) * b < a <= ceil_div a b * b.
Proof. intros Hb. unfold ceil_div. nia. Qed.

Lemma consts_Z :
  Z.of_nat (MAX_PACKET_SIZE - PACKET1_HEADER) = 4075 /\
  Z.of_nat (MAX_PACKET_SIZE - SUBSEQUENT_HEADER) = 4090 /\
  Z.of_nat MAX_PACKET_SIZE = 4095.
Proof. split; [|split]; reflexivity. Qed.

Lemma loop_iterations_Z r :
  Z.of_nat (loop_iterations r) = ceil_div (Z.of_nat r) 4090.
Proof.
  unfold loop_iterations, ceil_div.
  destruct consts_Z as (_ & Hc & _). revert Hc.
  generalize (MAX_PACKET_SIZE - SUBSEQUENT_HEADER)%nat. intros c Hc.
  rewrite Nat2Z.inj_div, Hc. f_equal. lia.
Qed.

Lemma packet_count_Z N :
  Z.of_nat (S (loop_iterations (N - (MAX_PACKET_SIZE - PACKET1_HEADER)))) =
  packetCount (Z.of_nat N).
Proof.
  rewrite Nat2Z.inj_succ, loop_iterations_Z. unfold packetCount.
  destruct consts_Z as (Hc & _ & _). revert Hc.
  generalize (MAX_PACKET_SIZE - PACKET1_HEADER)%nat. intros c Hc.
  replace (Z.of_nat (N - c)) with (Z.max 0 (Z.of_nat N - (4095 - 20))) by lia.
  change (4095 - 5) with 4090. lia.
Qed.

Lemma totalPackets_count N :
  totalPackets N = S (loop_iterations (N - (MAX_PACKET_SIZE - PACKET1_HEADER))).
Proof.
  unfold totalPackets, loop_iterations.
  generalize (MAX_PACKET_SIZE - PACKET1_HEADER)%nat. intros c1.
  destruct (bool_decide (c1 < N)%nat) eqn:H1.
  - apply bool_decide_eq_true_1 in H1.
    rewrite bool_decide_eq_true_2 by lia. reflexivity.
  - apply bool_decide_eq_false_1 in H1.
    replace (N - c1)%nat with 0%nat by lia.
    rewrite bool_decide_eq_false_2 by lia. reflexivity.
Qed.

Lemma loop_iterations_cover r :
  (r <= loop_iterations r * (MAX_PACKET_SIZE - SUBSEQUENT_HEADER))%nat.
Proof.
  pose proof (loop_iterations_Z r) as H.
  pose proof (ceil_div_spec (Z.of_nat r) 4090 ltac:(lia)) as H'.
  destruct consts_Z as (_ & Hc & _). revert Hc.
  generalize (MAX_PACKET_SIZE - SUBSEQUENT_HEADER)%nat. intros c Hc. nia.
Qed.

Lemma concat_chunks {A} (c : nat) : forall (m : nat) (data : list A),
  (length data <= m * c)%nat ->
  concat (map (fun j => take c (drop (j * c) data)) (seq 0 m)) = data.
Proof.
  induction m as [|m IH]; intros data Hlen.
  - destruct data; [done | simpl in Hlen; lia].
  - cbn [seq map concat]. rewrite <- fmap_S_seq.
    change (map ?f (S <$> ?l)) with (f <$> (S <$> l)).
    rewrite <- list_fmap_compose, Nat.mul_0_l, drop_0.
    transitivity (take c data ++ drop c data); [| apply take_drop]. f_equal.
    etransitivity; [| apply (IH (drop c data)); rewrite length_drop; lia].
    f_equal. apply list_fmap_ext. intros _ j _. cbn.
    rewrite drop_drop. f_equal; f_equal; lia.
Qed.

Lemma concat_chunk_at jpeg :
  concat (map (chunk_at jpeg)
            (seq 0 (S (loop_iterations
                         (length jpeg - (MAX_PACKET_SIZE - PACKET1_HEADER))))))
  = jpeg.
Proof.
  cbn [seq map concat]. rewrite <- fmap_S_seq.
  change (map ?f (S <$> ?l)) with (f <$> (S <$> l)).
  rewrite <- list_fmap_compose.
  unfold chunk_at at 1. unfold header_size, payload_offset at 1. rewrite drop_0.
  transitivity (take (MAX_PACKET_SIZE - PACKET1_HEADER) jpeg
                ++ drop (MAX_PACKET_SIZE - PACKET1_HEADER) jpeg);
    [| apply take_drop].
  f_equal.
  etransitivity;
    [| apply (concat_chunks (MAX_PACKET_SIZE - SUBSEQUENT_HEADER)
                (loop_iterations (length jpeg - (MAX_PACKET_SIZE - PACKET1_HEADER))));
       rewrite length_drop; apply loop_iterations_cover].
  f_equal. apply list_fmap_ext. intros _ j _. cbn.
  unfold chunk_at, header_size, payload_offset.
  rewrite drop_drop. reflexivity.
Qed.

Lemma packet_at_layout x y w h (jpeg : list Z) k :
  exists hdr, length hdr = header_size k /\
    packet_at x y w h jpeg k =
    hdr ++ chunk_at jpeg k
        ++ replicate (MAX_PACKET_SIZE - header_size k - length (chunk_at jpeg k)) 0.
Proof.
  destruct k as [|k]; eexists; (split; [| unfold packet_at, mk_packet; reflexivity]);
    reflexivity.
Qed.

Lemma length_chunk_at (jpeg : list Z) k :
  length (chunk_at jpeg k) = payload_length (length jpeg) k.
Proof.
  unfold chunk_at, payload_length. rewrite length_take, length_drop. lia.
Qed.

Lemma header_size_le k : (header_size k <= PACKET1_HEADER)%nat.
Proof. destruct k; unfold header_size, PACKET1_HEADER, SUBSEQUENT_HEADER; lia. Qed.

Lemma payload_length_le size k :
  (header_size k + payload_length size k <= MAX_PACKET_SIZE)%nat.
Proof.
  pose proof (header_size_le k). unfold payload_length.
  unfold MAX_PACKET_SIZE, PACKET1_HEADER in *. lia.
Qed.

Lemma length_packet_at x y w h (jpeg : list Z) k :
  length (packet_at x y w h jpeg k) = MAX_PACKET_SIZE.
Proof.
  destruct (packet_at_layout x y w h jpeg k) as (hdr & Hh & ->).
  pose proof (payload_length_le (length jpeg) k).
  rewrite !length_app, length_replicate, Hh, length_chunk_at. lia.
Qed.

Lemma payload_of_packet_at x y w h (jpeg : list Z) k :
  payload_of (length jpeg) k (packet_at x y w h jpeg k) = chunk_at jpeg k.
Proof.
  destruct (packet_at_layout x y w h jpeg k) as (hdr & Hh & ->).
  unfold payload_of. rewrite <- Hh, drop_app_length, <- length_chunk_at.
  apply take_app_length.
Qed.

Lemma padding_of_packet_at x y w h (jpeg : list Z) k :
  padding_of (length jpeg) k (packet_at x y w h jpeg k) =
  replicate (MAX_PACKET_SIZE - header_size k - payload_length (length jpeg) k) 0.
Proof.
  destruct (packet_at_layout x y w h jpeg k) as (hdr & Hh & ->).
  unfold padding_of. rewrite <- Hh, <- length_chunk_at.
  rewrite drop_app_add', drop_app_length by reflexivity. reflexivity.
Qed.

Lemma imap_map_seq {A B} (f : nat -> A -> B) (g : nat -> A) n :
  imap f (map g (seq 0 n)) = map (fun k => f k (g k)) (seq 0 n).
Proof.
  induction n as [|n IH]; [done|].
  rewrite seq_S, !map_app, imap_app, IH. cbn.
  rewrite length_map, length_seq, Nat.add_0_r. reflexivity.
Qed.

Lemma length_concat_uniform {A} (c : nat) (l : list (list A)) :
  Forall (fun p => length p = c) l -> length (concat l) = (length l * c)%nat.
Proof.
  induction 1 as [|p l Hp _ IH]; [done|].
  cbn. rewrite length_app, IH, Hp. lia.
Qed.

Lemma generated_ok x y w h (jpeg : list Z) p0 :
  pool_wf p0 ->
  count_payload_size_ok jpeg (result (generate_packets x y w h jpeg p0)).
Proof.
  intros Hwf.
  destruct (generate_packets_spec x y w h jpeg p0 Hwf) as (_ & _ & ->).
  set (n := S _).
  assert (Hn : Z.of_nat n = packetCount (Z.of_nat (length jpeg)))
    by apply packet_count_Z.
  split; [| split].
  - rewrite length_map, length_seq. exact Hn.
  - rewrite imap_map_seq.
    rewrite (map_ext _ (chunk_at jpeg))
      by (intros k; apply payload_of_packet_at).
    apply concat_chunk_at.
  - unfold total_size.
    rewrite (length_concat_uniform MAX_PACKET_SIZE).
    + rewrite length_map, length_seq, Nat2Z.inj_mul, Hn. reflexivity.
    + apply Forall_forall. intros p Hp. apply list_elem_of_fmap in Hp.
      destruct Hp as (k & -> & _). apply length_packet_at.
Qed.

Lemma header1_byte_18 x y w h n :
  packet1_header x y w h n !! 18%nat = Some (Z.land (Z.shiftr (Z.of_nat n) 8) 0xff).
Proof. reflexivity. Qed.

Lemma header1_byte_19 x y w h n :
  packet1_header x y w h n !! 19%nat = Some (Z.land (Z.of_nat n) 0xff).
Proof. reflexivity. Qed.

Lemma header1_byte_4 x y w h n :
  packet1_header x y w h n !! 4%nat = Some (ctl_at n 0).
Proof. reflexivity. Qed.

Lemma header_byte_4 c : packet_header c !! 4%nat = Some c.
Proof. reflexivity. Qed.

Lemma be16_value n :
  0 <= n ->
  Z.land (Z.shiftr n 8) 0xff * 256 + Z.land n 0xff = n mod 65536.
Proof.
  intros Hn. change 0xff with (Z.ones 8).
  rewrite !Z.land_ones, Z.shiftr_div_pow2 by lia.
  change (2 ^ 8) with 256. lia.
Qed.

Lemma length_field_packet_at_0 x y w h (jpeg : list Z) :
  length_field (packet_at x y w h jpeg 0) = Z.of_nat (length jpeg) mod 65536.
Proof.
  unfold length_field, byte_at, packet_at, mk_packet.
  rewrite !lookup_app_l by (rewrite length_packet1_header; lia).
  rewrite header1_byte_18, header1_byte_19. cbn [default].
  apply be16_value. lia.
Qed.

Lemma control_byte_packet_at x y w h (jpeg : list Z) k :
  control_byte (packet_at x y w h jpeg k) = ctl_at (length jpeg) k.
Proof.
  unfold control_byte, byte_at, packet_at, mk_packet. destruct k as [|k].
  - rewrite lookup_app_l by (rewrite length_packet1_header; lia).
    by rewrite header1_byte_4.
  - rewrite lookup_app_l by (rewrite length_packet_header; lia).
    by rewrite header_byte_4.
Qed.

(** Among the packets produced, the one that meets the loop's [isLast]
    test is the one in last position. *)
Lemma last_test_iff (N k : nat) :
  (k < S (loop_iterations (N - (MAX_PACKET_SIZE - PACKET1_HEADER))))%nat ->
  (N <= payload_offset k + (MAX_PACKET_SIZE - header_size k))%nat <->
  S k = S (loop_iterations (N - (MAX_PACKET_SIZE - PACKET1_HEADER))).
Proof.
  intros Hk.
  pose proof (loop_iterations_Z (N - (MAX_PACKET_SIZE - PACKET1_HEADER))) as Hi.
  pose proof (ceil_div_spec
                (Z.of_nat (N - (MAX_PACKET_SIZE - PACKET1_HEADER))) 4090
                ltac:(lia)) as Hc.
  rewrite <- Hi in Hc. revert Hk Hc. clear Hi.
  generalize (loop_iterations (N - (MAX_PACKET_SIZE - PACKET1_HEADER))).
  intros m Hk Hc.
  destruct consts_Z as (H1 & H2 & _).
  destruct k as [|j]; unfold payload_offset, header_size.
  - rewrite Nat.add_0_l.
    revert H1 Hc. generalize (MAX_PACKET_SIZE - PACKET1_HEADER)%nat.
    intros c1 H1 Hc. nia.
  - revert H1 H2 Hc.
    generalize (MAX_PACKET_SIZE - PACKET1_HEADER)%nat,
               (MAX_PACKET_SIZE - SUBSEQUENT_HEADER)%nat.
    intros c1 c H1 H2 Hc. nia.
Qed.

Lemma ctl_small_all :
  Forall (fun k => ctl_small k true true /\ ctl_small k true false /\
                   ctl_small k false true /\ ctl_small k false false)
         (seq 0 64).
Proof.
  apply (bool_decide_unpack _). vm_compute. exact I.
Qed.

Lemma ctl_small_lt k f l : (k < 64)%nat -> ctl_small k f l.
Proof.
  intros Hk. pose proof ctl_small_all as H.
  rewrite Forall_forall in H. specialize (H k).
  destruct H as (H1 & H2 & H3 & H4); [apply list_elem_of_In, in_seq; lia|].
  destruct f, l; assumption.
Qed.

Lemma generated_lookup x y w h (jpeg : list Z) p0 k pkt :
  pool_wf p0 ->
  result (generate_packets x y w h jpeg p0) !! k = Some pkt ->
  pkt = packet_at x y w h jpeg k /\
  (k < length (result (generate_packets x y w h jpeg p0)))%nat /\
  length (result (generate_packets x y w h jpeg p0)) =
    S (loop_iterations (length jpeg - (MAX_PACKET_SIZE - PACKET1_HEADER))).
Proof.
  intros Hwf Hk.
  destruct (generate_packets_spec x y w h jpeg p0 Hwf) as (_ & _ & Hres).
  rewrite Hres in *. rewrite length_map, length_seq.
  apply list_lookup_fmap_Some in Hk. destruct Hk as (k' & -> & Hk').
  apply lookup_seq in Hk'. destruct Hk' as [-> Hlt]. done.
Qed.

Lemma small_image_packet_count (N : nat) :
  Z.of_nat N <= 261745 ->
  (S (loop_iterations (N - (MAX_PACKET_SIZE - PACKET1_HEADER))) <= 64)%nat.
Proof.
  intros HN. pose proof (packet_count_Z N) as H. unfold packetCount, ceil_div in H.
  lia.
Qed.

Lemma generated_control_bytes x y w h (jpeg : list Z) p0 :
  pool_wf p0 -> Z.of_nat (length jpeg) <= 261745 ->
  control_bytes_ok (result (generate_packets x y w h jpeg p0)).
Proof.
  intros Hwf HN k pkt Hk.
  destruct (generated_lookup _ _ _ _ _ _ _ _ Hwf Hk) as (-> & Hlt & Hlen).
  rewrite Hlen in *. clear Hk Hlen.
  pose proof (small_image_packet_count _ HN) as H64.
  rewrite control_byte_packet_at. unfold ctl_at.
  rewrite (bool_decide_ext _ _ (last_test_iff _ _ Hlt)).
  set (n := S (loop_iterations _)) in *.
  destruct (ctl_small_lt k (bool_decide (k = 0%nat)) (bool_decide (S k = n)))
    as (Hv & H7 & H6).
  - lia.
  - intros ->. apply bool_decide_eq_true_2. lia.
  - split; [exact Hv|]. split; [exact H7|]. split; [exact H6|].
    intros Hn. assert (k = 0%nat) as -> by lia. rewrite Hn. reflexivity.
Qed.


Lemma fresh_pool_wf : pool_wf fresh_pool.
Proof.
  split; [reflexivity | split; [| cbn; lia]].
  apply Forall_forall. intros b Hb. apply elem_of_replicate in Hb.
  destruct Hb as [-> _]. apply length_replicate.
Qed.

Lemma generate_packets_terminates x y w h (jpeg : list Z) p0 :
  pool_wf p0 ->
  remainingBytes (generate_packets x y w h jpeg p0) = 0%nat /\
  pool_wf (lpool (generate_packets x y w h jpeg p0)) /\
  length (result (generate_packets x y w h jpeg p0)) = totalPackets (length jpeg).
Proof.
  intros Hwf.
  destruct (generate_packets_spec x y w h jpeg p0 Hwf) as (Hz & Hwf' & Hres).
  split; [done|]. split; [done|].
  rewrite Hres, length_map, length_seq. symmetry. apply totalPackets_count.
Qed.

(** C2.  For every rectangle (or key index) and every image buffer of [N]
    bytes, the packetizer produces [1 + ceil (max 0 (N - 4075) / 4090)]
    packets; the payload slices of the packets, read after each header
    and before the padding, concatenate to the input; and the packets
    total [packetCount * 4095] bytes. *)
Theorem packetizer_count_payload_size
    (p0 : PacketBufferPool) (x y width height keyIndex : Z) (jpegData : list Z) :
  pool_wf p0 ->
  count_payload_size_ok jpegData
    (generateRawImagePackets x y width height jpegData p0).1 /\
  count_payload_size_ok jpegData (generateImagePackets keyIndex jpegData p0).1.
Proof.
  intros Hwf. split; apply generated_ok; exact Hwf.
Qed.

Lemma packetizer_count_payload_size_witness :
  pool_wf fresh_pool /\
  count_payload_size_ok [1; 2; 3]
    (generateRawImagePackets 23 6 434 434 [1; 2; 3] fresh_pool).1 /\
  count_payload_size_ok [1; 2; 3] (generateImagePackets 4 [1; 2; 3] fresh_pool).1.
Proof.
  split; [exact fresh_pool_wf |].
  apply (packetizer_count_payload_size fresh_pool 23 6 434 434 4 [1; 2; 3]).
  exact fresh_pool_wf.
Defined.

Lemma generated_padded x y w h (jpeg : list Z) p0 :
  pool_wf p0 ->
  padded_ok (length jpeg) (result (generate_packets x y w h jpeg p0)) /\
  length_field_ok (length jpeg) (result (generate_packets x y w h jpeg p0)).
Proof.
  intros Hwf. split.
  - intros k pkt Hk.
    destruct (generated_lookup _ _ _ _ _ _ _ _ Hwf Hk) as (-> & _ & _).
    split; [apply length_packet_at |].
    rewrite padding_of_packet_at. apply Forall_forall.
    intros b Hb. apply elem_of_replicate in Hb. tauto.
  - destruct (generate_packets_spec x y w h jpeg p0 Hwf) as (_ & _ & Hres).
    exists (packet_at x y w h jpeg 0). rewrite Hres. split; [reflexivity |].
    rewrite length_field_packet_at_0. split; [reflexivity |].
    intros Hlt. apply Z.mod_small. lia.
Qed.

(** C8 (amended).  Every packet is exactly 4095 bytes long and all bytes
    beyond header plus payload are zero; the first packet's big-endian
    field at offsets 18-19 holds the image size modulo 65536, which is the
    true payload size [N] for every image shorter than 65536 bytes. *)
Theorem packets_padded_and_length_field
    (p0 : PacketBufferPool) (x y width height keyIndex : Z) (jpegData : list Z) :
  pool_wf p0 ->
  (padded_ok (length jpegData)
     (generateRawImagePackets x y width height jpegData p0).1 /\
   length_field_ok (length jpegData)
     (generateRawImagePackets x y width height jpegData p0).1) /\
  (padded_ok (length jpegData) (generateImagePackets keyIndex jpegData p0).1 /\
   length_field_ok (length jpegData) (generateImagePackets keyIndex jpegData p0).1).
Proof.
  intros Hwf. split; apply generated_padded; exact Hwf.
Qed.

Lemma packets_padded_and_length_field_witness :
  pool_wf fresh_pool /\
  padded_ok 3 (generateImagePackets 4 [1; 2; 3] fresh_pool).1 /\
  length_field_ok 3 (generateImagePackets 4 [1; 2; 3] fresh_pool).1.
Proof.
  split; [exact fresh_pool_wf |].
  apply (packets_padded_and_length_field fresh_pool 23 6 434 434 4 [1; 2; 3]).
  exact fresh_pool_wf.
Defined.

(** C8, as stated, fails on an image of 65536 bytes: the length field of
    its first packet reads 0, not 65536. *)
Lemma length_field_wraps_at_65536 :
  let jpegData := replicate (Z.to_nat 65536) 0 in
  let pkts := (generateRawImagePackets 23 6 434 434 jpegData fresh_pool).1 in
  Z.of_nat (length jpegData) = 65536 /\
  exists pkt, pkts !! 0%nat = Some pkt /\ length_field pkt = 0 /\
              length_field pkt <> Z.of_nat (length jpegData).
Proof.
  vm_compute. split; [reflexivity |]. eexists.
  split; [reflexivity |]. split; [reflexivity | discriminate].
Qed.

(** C3 (amended).  In every sequence of at most 64 packets, that is for
    every image of at most 261745 bytes, the packet at 1-based position
    [i] carries [(i | 0x20)] in its fifth byte, with bit 0x80 added on
    exactly the first packet and bit 0x40 on exactly the last; a
    single-packet sequence carries both (0xe1). *)
Theorem control_bytes_upto_64_packets
    (p0 : PacketBufferPool) (x y width height keyIndex : Z) (jpegData : list Z) :
  pool_wf p0 ->
  Z.of_nat (length jpegData) <= 261745 ->
  control_bytes_ok (generateRawImagePackets x y width height jpegData p0).1 /\
  control_bytes_ok (generateImagePackets keyIndex jpegData p0).1.
Proof.
  intros Hwf HN. split; apply generated_control_bytes; assumption.
Qed.

Lemma control_bytes_upto_64_packets_witness :
  (pool_wf fresh_pool /\ Z.of_nat (length [1; 2; 3]) <= 261745) /\
  control_bytes_ok (generateRawImagePackets 23 6 434 434 [1; 2; 3] fresh_pool).1 /\
  control_bytes_ok (generateImagePackets 4 [1; 2; 3] fresh_pool).1.
Proof.
  split; [split; [exact fresh_pool_wf | cbn; lia] |].
  apply (control_bytes_upto_64_packets fresh_pool 23 6 434 434 4 [1; 2; 3]).
  - exact fresh_pool_wf.
  - cbn. lia.
Defined.

(** C3, as stated, fails on an image of 261746 bytes: it takes 65
    packets, and the 64th, which is not the last, carries 0x60, so bit
    0x40 is set on it. *)
Lemma control_byte_of_packet_64_of_65 :
  let jpegData := replicate (Z.to_nat 261746) 0 in
  let pkts := (generateRawImagePackets 23 6 434 434 jpegData fresh_pool).1 in
  length pkts = 65%nat /\
  (exists pkt, pkts !! 63%nat = Some pkt /\ control_byte pkt = 0x60 /\
               Z.testbit (control_byte pkt) 6 = true) /\
  ~ control_bytes_ok pkts.
Proof.
  intros jpegData pkts.
  assert (Hlen : length pkts = 65%nat) by (vm_compute; reflexivity).
  assert (H64 : exists pkt, pkts !! 63%nat = Some pkt /\ control_byte pkt = 0x60 /\
                            Z.testbit (control_byte pkt) 6 = true).
  { vm_compute. eexists. split; [reflexivity |]. split; reflexivity. }
  split; [exact Hlen |]. split; [exact H64 |].
  intros Hok. destruct H64 as (pkt & Hk & _ & Hbit).
  destruct (Hok 63%nat pkt Hk) as (_ & _ & H6 & _).
  rewrite Hlen, Hbit in H6. discriminate H6.
Qed.

(** ** The channel writer *)



Lemma generated_nonempty x y w h (jpeg : list Z) p0 :
  pool_wf p0 -> result (generate_packets x y w h jpeg p0) <> [].
Proof.
  intros Hwf.
  destruct (generate_packets_spec x y w h jpeg p0 Hwf) as (_ & _ & ->).
  discriminate.
Qed.

Lemma setKeyImage_transmits channel keyIndex jpegData d w :
  initialized d = true -> pool_wf (packet_pool w) -> 0 <= keyIndex <= 8 ->
  setKeyImage channel keyIndex jpegData d w =
  let gen := generateImagePackets keyIndex jpegData (packet_pool w) in
  let r := run channel (transmit gen.1) (os w) in
  (r.1, set_os r.2 (set_packet_pool gen.2 w)).
Proof.
  intros Hinit Hwf Hk. unfold setKeyImage.
  rewrite Hinit, (bool_decide_eq_false_2 (keyIndex < 0)),
    (bool_decide_eq_false_2 (keyIndex > 8)) by lia.
  cbn [orb negb]. unfold generateImagePackets. cbv zeta.
  rewrite bool_decide_eq_false_2 by (apply generated_nonempty; exact Hwf).
  cbn [os set_packet_pool fst snd]. destruct (run _ _ _). reflexivity.
Qed.

Lemma setRawImage_transmits channel x y width height jpegData d w :
  initialized d = true -> pool_wf (packet_pool w) ->
  setRawImage channel x y width height jpegData d w =
  let gen := generateRawImagePackets x y width height jpegData (packet_pool w) in
  let r := run channel (transmit gen.1) (os w) in
  (r.1, set_os r.2 (set_packet_pool gen.2 w)).
Proof.
  intros Hinit Hwf. unfold setRawImage.
  rewrite Hinit. cbn [negb]. unfold generateRawImagePackets. cbv zeta.
  rewrite bool_decide_eq_false_2 by (apply generated_nonempty; exact Hwf).
  cbn [os set_packet_pool fst snd]. destruct (run _ _ _). reflexivity.
Qed.




Example would_block_then_retry :
  let out := setKeyImage busy_then_ok 4 [1; 2; 3] ready_impl fresh_world in
  out.1 = true /\
  map (fun e => match e with
                | EvWritev nb iov res => Some (nb, length iov, res)
                | _ => None
                end) (io_log (os out.2)) =
  [None; None; Some (true, 1%nat, Failed EAGAIN); None;
   Some (false, 1%nat, Wrote 4095)].
Proof. vm_compute. split; reflexivity. Qed.

(** The two guards that do reject: every image-write operation returns
    failure at once, leaving the device, the packet pool, the descriptor
    and the threads untouched, when the session is not initialized or
    when its key index lies outside 0-8. *)
Theorem guards_reject_before_io
    (channel : nat -> writev_result)
    (decodeGif decodeGifFromFile :
       list Z -> GifAnimation -> Z -> Z -> bool * GifAnimation)
    (op : image_op) (d : Impl) (w : World) :
  bad_key_or_uninitialized op d ->
  run_image_op channel decodeGif decodeGifFromFile op d w = (false, d, w).
Proof.
  intros [Huninit | (k & Hk & Hbad)].
  - destruct op; cbn [run_image_op];
      unfold setKeyImage, setKeyGif, setKeyGifFromFile, setScreenImage, setRawImage;
      rewrite Huninit; cbn [negb]; rewrite ?orb_true_r; reflexivity.
  - destruct op; cbn [key_index_of] in Hk; try discriminate Hk;
      injection Hk as ->; cbn [run_image_op];
      unfold setKeyImage, setKeyGif, setKeyGifFromFile;
      (destruct Hbad as [Hlt | Hgt];
       [ rewrite (bool_decide_eq_true_2 (k < 0)) by exact Hlt
       | rewrite (bool_decide_eq_true_2 (k > 8)) by exact Hgt;
         rewrite orb_true_r ]);
      reflexivity.
Qed.

Lemma guards_reject_before_io_witness :
  bad_key_or_uninitialized (ImgSetKeyImage 9 [1; 2; 3]) ready_impl /\
  run_image_op busy_then_ok no_decoder no_decoder
    (ImgSetKeyImage 9 [1; 2; 3]) ready_impl fresh_world
  = (false, ready_impl, fresh_world).
Proof.
  assert (H : bad_key_or_uninitialized (ImgSetKeyImage 9 [1; 2; 3]) ready_impl).
  { right. exists 9. split; [reflexivity | right; lia]. }
  split; [exact H |].
  apply (guards_reject_before_io busy_then_ok no_decoder no_decoder
           (ImgSetKeyImage 9 [1; 2; 3]) ready_impl fresh_world H).
Defined.

(** C7.  The code breaks the claim on an empty image.  [setKeyImage]
    and [setRawImage] both test [packets.empty()] before any I/O, but
    the packetizer always emits the first packet ([generated_nonempty]),
    so the test never holds: on an initialized session [setKeyImage 0 []]
    passes the guards, hands one header-only packet to [writev], and
    returns success when the channel takes it. *)
Lemma empty_image_is_written :
  let op := ImgSetKeyImage 0 [] in
  let out := run_image_op (fun _ => Wrote 4095) no_decoder no_decoder
               op ready_impl fresh_world in
  payload_of_op op = [] /\
  out.1.1 = true /\
  length (writevs (io_log (os out.2))) = 1%nat /\
  out <> (false, ready_impl, fresh_world).
Proof.
  vm_compute. split; [reflexivity |]. split; [reflexivity |].
  split; [reflexivity | discriminate].
Qed.

(** The same on the other two still-image operations. *)
Example empty_raw_and_screen_images_are_written :
  let raw := setRawImage (fun _ => Wrote 4095) 0 0 118 118 [] ready_impl
               fresh_world in
  let screen := setScreenImage (fun _ => Wrote 4095) [] ready_impl fresh_world in
  raw.1 = true /\ length (writevs (io_log (os raw.2))) = 1%nat /\
  screen.1 = true /\ length (writevs (io_log (os screen.2))) = 1%nat.
Proof. vm_compute. repeat split; reflexivity. Qed.
(** ** The input decoder *)

Lemma set_insert_elem x y s : y ∈ set_insert x s <-> y = x \/ y ∈ s.
Proof.
  induction s as [|z s IH]; cbn [set_insert].
  - rewrite list_elem_of_singleton, elem_of_nil. tauto.
  - repeat case_bool_decide; subst; rewrite ?elem_of_cons; try rewrite IH; tauto.
Qed.

Lemma set_insert_ok x s : set_ok s -> set_ok (set_insert x s).
Proof.
  unfold set_ok. induction 1 as [|z s Hs IH Hz]; cbn [set_insert].
  - repeat constructor.
  - repeat case_bool_decide.
    + constructor; [by constructor |]. constructor; [done |].
      eapply Forall_impl; [exact Hz |]. cbn. lia.
    + by constructor.
    + constructor; [exact IH |]. apply Forall_forall. intros y Hy.
      apply set_insert_elem in Hy. destruct Hy as [-> | Hy]; [lia |].
      rewrite Forall_forall in Hz. by apply Hz.
Qed.

Lemma collect_pressed_ok codes : forall acc,
  set_ok acc -> Forall (fun b => 0 <= b <= 8) acc ->
  set_ok (collect_pressed codes acc) /\
  Forall (fun b => 0 <= b <= 8) (collect_pressed codes acc).
Proof.
  induction codes as [|c codes IH]; intros acc Hok Hrange; cbn [collect_pressed];
    [done |].
  case_bool_decide; [done |]. apply IH.
  - destruct (_ && _); [by apply set_insert_ok | done].
  - destruct (bool_decide (1 <= c)) eqn:H1, (bool_decide (c <= 9)) eqn:H9;
      cbn [andb]; try done.
    apply bool_decide_eq_true_1 in H1, H9.
    apply Forall_forall. intros y Hy. apply set_insert_elem in Hy.
    destruct Hy as [-> | Hy]; [lia |].
    rewrite Forall_forall in Hrange. by apply Hrange.
Qed.

Lemma current_pressed_ok bytes_read report :
  set_ok (current_pressed_of bytes_read report) /\
  Forall (fun b => 0 <= b <= 8) (current_pressed_of bytes_read report).
Proof. apply collect_pressed_ok; [constructor | constructor]. Qed.

Lemma set_ok_NoDup s : set_ok s -> NoDup s.
Proof.
  induction 1 as [|z s Hs IH Hz]; constructor; [| exact IH].
  intros Hin. rewrite Forall_forall in Hz. specialize (Hz z Hin). lia.
Qed.

Lemma flat_map_difference (f : Z -> ButtonEvent) (l k : list Z) :
  flat_map (fun b => if set_mem b k then [] else [f b]) l
  = f <$> list_difference l k.
Proof.
  induction l as [|b l IH]; [done |].
  cbn [flat_map list_difference]. unfold set_mem at 1.
  rewrite IH. unfold bool_decide. destruct (decide_rel elem_of b k); reflexivity.
Qed.

Lemma filter_difference (l k : list Z) :
  filter (fun b => set_mem b k = false) l = list_difference l k.
Proof.
  induction l as [|b l IH]; [done |].
  cbn [list_difference]. rewrite filter_cons, IH. unfold set_mem.
  destruct (decide_rel elem_of b k) as [Hin | Hnin].
  - rewrite decide_False; [done |]. rewrite bool_decide_eq_true_2 by done. discriminate.
  - rewrite decide_True; [done |]. by apply bool_decide_eq_false_2.
Qed.

Lemma flat_map_singleton {A B} (f : A -> B) (l : list A) :
  flat_map (fun a => [f a]) l = f <$> l.
Proof. induction l as [|a l IH]; [done |]. cbn. by rewrite IH. Qed.

Lemma list_difference_self (l : list Z) : list_difference l l = [].
Proof.
  apply elem_of_nil_inv. intros x Hx.
  apply list_elem_of_difference in Hx. tauto.
Qed.

Lemma process_grid_events cb bytes_read report i :
  process_grid (Some cb) bytes_read report i =
  ((press_event <$> list_difference (current_pressed_of bytes_read report)
                                    (pressed_buttons i))
   ++ (release_event <$> list_difference (pressed_buttons i)
                                         (current_pressed_of bytes_read report)),
   set_pressed_buttons (current_pressed_of bytes_read report) i).
Proof.
  unfold process_grid, deliver. cbv zeta.
  rewrite (bool_decide_eq_true_2 (is_Some (Some cb))) by eauto.
  rewrite flat_map_difference, filter_difference, flat_map_singleton.
  reflexivity.
Qed.

Lemma set_pressed_buttons_same i : set_pressed_buttons (pressed_buttons i) i = i.
Proof. by destruct i. Qed.

Lemma process_report_grid bytes_read report dev :
  is_grid_report bytes_read report = true ->
  process_report bytes_read report dev =
  let out := process_grid (event_callback_ dev) bytes_read report (impl_ dev) in
  (out.1, mkDevice out.2 (event_callback_ dev)).
Proof.
  unfold is_grid_report, process_report. intros H.
  apply andb_prop in H. destruct H as [H Hsig].
  apply andb_prop in H. destruct H as [H H7].
  apply andb_prop in H. destruct H as [Hp H0].
  apply negb_true_iff in Hp. rewrite Hp, H0, H7, Hsig. cbn [negb andb app].
  cbv zeta. destruct (process_grid _ _ _ _). reflexivity.
Qed.

Lemma process_report_navigation bytes_read report dev :
  is_p_button_report bytes_read report = true ->
  process_report bytes_read report dev =
  let out := process_p_button (event_callback_ dev) report (impl_ dev) in
  (out.1, mkDevice out.2 (event_callback_ dev)).
Proof.
  unfold process_report. intros ->. cbn [negb andb]. cbv zeta.
  destruct (process_p_button _ _ _). cbn [fst snd]. by rewrite app_nil_r.
Qed.

Lemma press_in_events (C P : list Z) b :
  press_event b ∈ (press_event <$> list_difference C P)
                  ++ (release_event <$> list_difference P C)
  <-> (b ∈ C /\ b ∉ P).
Proof.
  rewrite elem_of_app, !list_elem_of_fmap, <- list_elem_of_difference. split.
  - intros [(x & Hx & Hin) | (x & Hx & _)]; [| discriminate Hx].
    injection Hx as ->. exact Hin.
  - intros Hin. left. by exists b.
Qed.

Lemma release_in_events (C P : list Z) b :
  release_event b ∈ (press_event <$> list_difference C P)
                    ++ (release_event <$> list_difference P C)
  <-> (b ∈ P /\ b ∉ C).
Proof.
  rewrite elem_of_app, !list_elem_of_fmap, <- list_elem_of_difference. split.
  - intros [(x & Hx & _) | (x & Hx & Hin)]; [discriminate Hx |].
    injection Hx as ->. exact Hin.
  - intros Hin. right. by exists b.
Qed.

(** C4.  A grid report listing the set [C], decoded with stored set [P],
    delivers one press event per index of [C] not in [P], then one
    release event per index of [P] not in [C], and stores [C]; when
    [C = P] it delivers nothing and changes nothing. *)
Theorem grid_report_decoding
    (dev : Device) (cb : nat) (bytes_read : Z) (report : list Z) :
  event_callback_ dev = Some cb ->
  is_grid_report bytes_read report = true ->
  set_ok (pressed_buttons (impl_ dev)) ->
  grid_decoding_ok dev (current_pressed_of bytes_read report)
    (process_report bytes_read report dev).
Proof.
  intros Hcb Hgrid HP. rewrite (process_report_grid _ _ _ Hgrid). cbv zeta.
  rewrite Hcb, process_grid_events. cbn [fst snd].
  destruct (current_pressed_ok bytes_read report) as [HC _].
  unfold grid_decoding_ok. cbn [fst snd impl_].
  split; [reflexivity |].
  split; [apply NoDup_list_difference, set_ok_NoDup, HC |].
  split; [apply NoDup_list_difference, set_ok_NoDup, HP |].
  split; [apply press_in_events |]. split; [apply release_in_events |].
  split; [reflexivity |]. split; [exact HC |]. split; [reflexivity |].
  intros ->. rewrite list_difference_self. split; [reflexivity |].
  rewrite set_pressed_buttons_same. destruct dev. cbn in *. by subst.
Qed.

Lemma grid_report_decoding_witness :
  let dev := listening (set_pressed_buttons [0; 1; 2] ready_impl) in
  (event_callback_ dev = Some 0%nat /\
   is_grid_report 8 (grid_report [2]) = true /\
   set_ok (pressed_buttons (impl_ dev))) /\
  grid_decoding_ok dev (current_pressed_of 8 (grid_report [2]))
    (process_report 8 (grid_report [2]) dev).
Proof.
  assert (Hs : set_ok [0; 1; 2]).
  { repeat constructor; lia. }
  split; [split; [reflexivity | split; [reflexivity | exact Hs]] |].
  apply (grid_report_decoding
           (listening (set_pressed_buttons [0; 1; 2] ready_impl)) 0%nat 8
           (grid_report [2])); [reflexivity | reflexivity | exact Hs].
Defined.

Example grid_press_third :
  (process_report 10 (grid_report [2; 3; 1])
     (listening (set_pressed_buttons [0; 1] ready_impl))).1
  = [press_event 2].
Proof. vm_compute. reflexivity. Qed.

Example grid_release_two :
  (process_report 8 (grid_report [2])
     (listening (set_pressed_buttons [0; 1; 2] ready_impl))).1
  = [release_event 0; release_event 2].
Proof. vm_compute. reflexivity. Qed.

Example grid_press_before_release :
  (process_report 9 (grid_report [9; 4])
     (listening (set_pressed_buttons [0; 1] ready_impl))).1
  = [press_event 3; press_event 8; release_event 0; release_event 1].
Proof. vm_compute. reflexivity. Qed.

(** C5.  A navigation report with the press action and code 0xa1 or 0xa2
    delivers a press event for that code and remembers it; one with the
    release action delivers a release event for the remembered code and
    forgets it, or nothing when no code is remembered.  The report never
    reaches the grid block: the pressed set is untouched and at most one
    event is delivered.  A press followed by a release therefore yields
    press(code), release(code). *)
Theorem navigation_report_decoding
    (dev : Device) (cb : nat) (bytes_read bytes_read' : Z)
    (report report' : list Z) :
  event_callback_ dev = Some cb ->
  is_p_button_report bytes_read report = true ->
  is_p_button_report bytes_read' report' = true ->
  let out := process_report bytes_read report dev in
  navigation_decoding_ok dev report out /\
  (byte_at report 4 = 0x01 ->
   byte_at report 5 = 0xa1 \/ byte_at report 5 = 0xa2 ->
   byte_at report' 4 = 0x00 ->
   out.1 ++ (process_report bytes_read' report' out.2).1 =
   [press_event (byte_at report 5); release_event (byte_at report 5)]).
Proof.
  intros Hcb Hnav Hnav' out.
  assert (Hone : navigation_decoding_ok dev report out).
  { unfold out. rewrite (process_report_navigation _ _ _ Hnav). cbv zeta.
    rewrite Hcb. unfold navigation_decoding_ok, process_p_button, deliver.
    rewrite (bool_decide_eq_true_2 (is_Some (Some cb))) by eauto.
    repeat case_bool_decide; cbn [andb orb negb fst snd impl_ pressed_buttons
      last_p_button set_last_p_button length];
      (split; [reflexivity |]); (split; [lia |]);
      repeat split; intros; try lia; try congruence; try tauto.
    all: destruct dev as [i c]; cbn in *; subst; destruct i; reflexivity. }
  split; [exact Hone |].
  intros H4 H5 H4'.
  destruct Hone as (_ & _ & Hpress & _). destruct (Hpress H4 H5) as [E1 L1].
  assert (Hcb' : event_callback_ out.2 = Some cb).
  { unfold out. rewrite (process_report_navigation _ _ _ Hnav). cbv zeta.
    exact Hcb. }
  rewrite E1, (process_report_navigation _ _ _ Hnav'). cbv zeta.
  rewrite Hcb'. unfold process_p_button, deliver.
  rewrite (bool_decide_eq_true_2 (is_Some (Some cb))) by eauto.
  rewrite (bool_decide_eq_false_2 (byte_at report' 4 = 1)) by lia.
  rewrite (bool_decide_eq_true_2 (byte_at report' 4 = 0)) by exact H4'.
  rewrite L1.
  rewrite (bool_decide_eq_false_2 (byte_at report 5 = 0)) by lia.
  reflexivity.
Qed.

Lemma navigation_report_decoding_witness :
  let dev := listening ready_impl in
  (event_callback_ dev = Some 0%nat /\
   is_p_button_report 20 (p_press_report 0xa1) = true /\
   is_p_button_report 20 p_release_report = true) /\
  navigation_decoding_ok dev (p_press_report 0xa1)
    (process_report 20 (p_press_report 0xa1) dev) /\
  (process_report 20 (p_press_report 0xa1) dev).1
  ++ (process_report 20 p_release_report
        (process_report 20 (p_press_report 0xa1) dev).2).1
  = [press_event 0xa1; release_event 0xa1].
Proof.
  split; [split; [reflexivity | split; reflexivity] |].
  destruct (navigation_report_decoding (listening ready_impl) 0%nat 20 20
              (p_press_report 0xa1) p_release_report
              eq_refl eq_refl eq_refl) as [H1 H2].
  split; [exact H1 |].
  apply H2; [reflexivity | left; reflexivity | reflexivity].
Defined.
(** ** Starting the monitor *)

Lemma startMonitoring_noop dev w :
  monitoring (impl_ dev) = true \/ event_callback_ dev = None ->
  startMonitoring dev w = (dev, w).
Proof.
  intros [Hm | Hc]; unfold startMonitoring.
  - by rewrite Hm.
  - rewrite Hc, (bool_decide_eq_false_2 (is_Some None)) by (by intros [? ?]).
    by rewrite orb_true_r.
Qed.

Lemma monitors_spawned_log e w :
  monitors_spawned (log_thread e w) =
  (monitors_spawned w + if is_spawn_monitor e then 1 else 0)%nat.
Proof.
  unfold monitors_spawned, log_thread. cbn [thread_log].
  rewrite filter_app, length_app. f_equal.
  rewrite filter_cons, filter_nil. destruct (is_spawn_monitor e); reflexivity.
Qed.

(** Without an installing call the callback stays empty and no monitor
    is created. *)
Lemma monitor_run_without_callback ops : forall s,
  event_callback_ s.1 = None ->
  (forall cb, OpSetEventCallback (Some cb) ∉ ops) ->
  event_callback_ (monitor_run ops s).1 = None /\
  monitors_spawned (monitor_run ops s).2 = monitors_spawned s.2.
Proof.
  induction ops as [|op ops IH]; intros s Hc Hno; [done |].
  assert (Hstep : event_callback_ (monitor_step op s).1 = None /\
                  monitors_spawned (monitor_step op s).2 = monitors_spawned s.2).
  { unfold monitor_step. destruct (terminated s.2); [done |].
    destruct op as [[cb|] | | |].
    - exfalso. apply (Hno cb). left.
    - done.
    - rewrite startMonitoring_noop by (right; exact Hc). done.
    - unfold stopMonitoring. destruct (monitoring (impl_ s.1)); [| done].
      cbn [monitor_thread set_monitoring].
      destruct (monitor_thread (impl_ s.1)); cbn [fst snd event_callback_];
        [| done].
      split; [done |]. rewrite monitors_spawned_log. cbn. lia.
    - done. }
  destruct Hstep as [Hc' Hn'].
  destruct (IH (monitor_step op s) Hc') as [Hc'' Hn''].
  - intros cb Hin. apply (Hno cb). by right.
  - cbn [monitor_run foldl]. fold (monitor_run ops (monitor_step op s)).
    split; [exact Hc'' | congruence].
Qed.

Lemma first_installing_call ops :
  (forall cb, OpSetEventCallback (Some cb) ∉ ops) \/
  exists pre cb post,
    ops = pre ++ OpSetEventCallback (Some cb) :: post /\
    forall cb', OpSetEventCallback (Some cb') ∉ pre.
Proof.
  induction ops as [|op ops IH].
  - left. intros cb H. by apply elem_of_nil in H.
  - destruct op as [[cb|] | | |].
    1: { right. exists [], cb, ops. split; [done |].
         intros cb' H. by apply elem_of_nil in H. }
    all: destruct IH as [Hno | (pre & cb & post & -> & Hpre)];
      [ left; intros cb H; apply elem_of_cons in H;
        destruct H as [H | H]; [discriminate H | by apply (Hno cb)]
      | right; eexists (_ :: pre), cb, post; split; [reflexivity |];
        intros cb' H; apply elem_of_cons in H;
        destruct H as [H | H]; [discriminate H | by apply (Hpre cb')] ].
Qed.

(** C10.  [startMonitoring] changes nothing, creating no thread and
    leaving the flag as it is, when monitoring is already active or no
    callback is registered; and on a session that starts without a
    callback, whatever the calls made, a monitoring thread is only ever
    created after a [setEventCallback] that installed a callback. *)
Theorem monitoring_needs_callback
    (dev : Device) (w : World) (ops : list monitor_op) :
  event_callback_ dev = None ->
  (forall dev' w',
     monitoring (impl_ dev') = true \/ event_callback_ dev' = None ->
     startMonitoring dev' w' = (dev', w')) /\
  (monitors_spawned (monitor_run ops (dev, w)).2 <> monitors_spawned w ->
   exists pre cb post,
     ops = pre ++ OpSetEventCallback (Some cb) :: post /\
     monitors_spawned (monitor_run pre (dev, w)).2 = monitors_spawned w).
Proof.
  intros Hc. split; [intros dev' w'; apply startMonitoring_noop |].
  intros Hspawn.
  destruct (first_installing_call ops) as [Hno | (pre & cb & post & -> & Hpre)].
  - exfalso. apply Hspawn.
    apply (monitor_run_without_callback ops (dev, w) Hc Hno).
  - exists pre, cb, post. split; [reflexivity |].
    apply (monitor_run_without_callback pre (dev, w) Hc Hpre).
Qed.

Lemma monitoring_needs_callback_witness :
  let ops := [OpStartMonitoring; OpSetEventCallback (Some 7%nat); OpStartMonitoring] in
  event_callback_ fresh_device = None /\
  monitors_spawned (monitor_run ops (fresh_device, fresh_world)).2 = 1%nat /\
  exists pre cb post,
    ops = pre ++ OpSetEventCallback (Some cb) :: post /\
    monitors_spawned (monitor_run pre (fresh_device, fresh_world)).2
    = monitors_spawned fresh_world.
Proof.
  split; [reflexivity |]. split; [reflexivity |].
  apply (monitoring_needs_callback fresh_device fresh_world
           [OpStartMonitoring; OpSetEventCallback (Some 7%nat); OpStartMonitoring]
           eq_refl).
  vm_compute. discriminate.
Defined.
(** ** Animation tasks *)

Lemma live_workers_snoc log e :
  live_workers (log ++ [e]) = apply_thread_event (live_workers log) e.
Proof. unfold live_workers. apply foldl_snoc. Qed.

Lemma at_all_times_nil (P : list (nat * target) -> Prop) :
  P [] -> at_all_times P [].
Proof. intros H n. by rewrite take_nil. Qed.

Lemma at_all_times_snoc (P : list (nat * target) -> Prop) log e :
  at_all_times P log -> P (live_workers (log ++ [e])) ->
  at_all_times P (log ++ [e]).
Proof.
  intros H He n. destruct (decide (n <= length log)%nat) as [Hle | Hgt].
  - rewrite take_app_le by exact Hle. apply H.
  - rewrite take_ge by (rewrite length_app; cbn; lia). exact He.
Qed.

Lemma at_all_times_now (P : list (nat * target) -> Prop) log :
  at_all_times P log -> P (live_workers log).
Proof. intros H. specialize (H (length log)). by rewrite take_ge in H. Qed.

Lemma thread_log_log e w : thread_log (log_thread e w) = thread_log w ++ [e].
Proof. reflexivity. Qed.

Lemma task_thread_store_key k a d :
  task_thread (Key k) (store_key k a d) = animation_thread a.
Proof. unfold task_thread, store_key. cbn. by rewrite lookup_insert_eq. Qed.

(** Logging an event that neither creates nor joins a worker. *)
Lemma history_neutral e w :
  apply_thread_event (live_workers (thread_log w)) e = live_workers (thread_log w) ->
  at_all_times one_worker_per_target (thread_log w) ->
  at_all_times one_worker_per_target (thread_log (log_thread e w)).
Proof.
  intros He Hh. rewrite thread_log_log. apply at_all_times_snoc; [exact Hh |].
  rewrite live_workers_snoc, He. by apply at_all_times_now.
Qed.

Lemma history_join tid w :
  at_all_times one_worker_per_target (thread_log w) ->
  at_all_times one_worker_per_target (thread_log (log_thread (EvJoin tid) w)).
Proof.
  intros Hh. rewrite thread_log_log. apply at_all_times_snoc; [exact Hh |].
  rewrite live_workers_snoc. cbn [apply_thread_event].
  unfold one_worker_per_target.
  eapply sublist_NoDup; [apply (at_all_times_now _ _ Hh) |].
  apply fmap_sublist, sublist_filter.
Qed.

Lemma anim_inv_neutral e d w :
  apply_thread_event (live_workers (thread_log w)) e = live_workers (thread_log w) ->
  anim_inv d w -> anim_inv d (log_thread e w).
Proof.
  intros He [Hh Hl]. split; [by apply history_neutral |].
  intros tid t. rewrite thread_log_log, live_workers_snoc, He. apply Hl.
Qed.

Lemma task_thread_remove_ne t t' d :
  t' <> t -> task_thread t' (remove_task t d) = task_thread t' d.
Proof.
  intros Hne. unfold task_thread. f_equal.
  destruct t as [k|], t' as [k'|]; cbn; try done.
  apply lookup_delete_ne. congruence.
Qed.

Lemma task_of_remove t d : task_of t (remove_task t d) = None.
Proof. destruct t as [k|]; cbn; [apply lookup_delete_eq | done]. Qed.

Lemma anim_inv_join tid d d' w :
  anim_inv d w ->
  (forall t', task_thread t' d <> Some tid -> task_thread t' d' = task_thread t' d) ->
  anim_inv d' (log_thread (EvJoin tid) w).
Proof.
  intros [Hh Hl] Hd. split; [by apply history_join |].
  intros tid' t. rewrite thread_log_log, live_workers_snoc.
  cbn [apply_thread_event]. rewrite list_elem_of_filter. cbn.
  intros [Hne Hin]. destruct (Hl _ _ Hin) as [Ht Hlt].
  split; [| exact Hlt]. rewrite Hd; [exact Ht |]. congruence.
Qed.

Lemma stop_task_inv t a d w :
  anim_inv d w -> task_of t d = Some a ->
  anim_inv (remove_task t d) (stop_task a w) /\
  thread_log (stop_task a w) = thread_log w ++ stop_events (task_of t d) /\
  next_tid (stop_task a w) = next_tid w.
Proof.
  intros Hinv Ht. unfold stop_task, stop_events. rewrite Ht. cbn [mbind option_bind].
  destruct (animation_thread a) as [tid|] eqn:Ha.
  - split; [| split; [by rewrite !thread_log_log, <- app_assoc | done]].
    apply (anim_inv_join tid d).
    + apply anim_inv_neutral; [done | exact Hinv].
    + intros t' Hne. apply task_thread_remove_ne. intros ->.
      apply Hne. unfold task_thread. by rewrite Ht.
  - split; [| split; [by rewrite app_nil_r | done]].
    destruct Hinv as [Hh Hl]. split; [exact Hh |].
    intros tid t' Hin. destruct (Hl _ _ Hin) as [Ht' Hlt].
    split; [| exact Hlt].
    rewrite task_thread_remove_ne; [exact Ht' |]. intros ->.
    unfold task_thread in Ht'. rewrite Ht in Ht'. cbn in Ht'. congruence.
Qed.

Lemma stopKeyAnimation_spec k d w :
  anim_inv d w ->
  let out := stopKeyAnimation k d w in
  anim_inv out.1 out.2 /\ task_of (Key k) out.1 = None /\
  thread_log out.2 = thread_log w ++ stop_events (task_of (Key k) d) /\
  next_tid out.2 = next_tid w /\ initialized out.1 = initialized d.
Proof.
  intros Hinv. unfold stopKeyAnimation. cbv zeta.
  destruct (animations d !! k) as [a|] eqn:Hk; cbn [fst snd].
  - destruct (stop_task_inv (Key k) a d w Hinv Hk) as (H1 & H2 & H3).
    split; [exact H1 |]. split; [apply (task_of_remove (Key k)) |].
    split; [exact H2 |]. split; [exact H3 | reflexivity].
  - split; [exact Hinv |]. split; [exact Hk |].
    unfold stop_events. cbn [task_of]. rewrite Hk. cbn. by rewrite app_nil_r.
Qed.

Lemma stopScreenAnimation_spec d w :
  anim_inv d w ->
  let out := stopScreenAnimation d w in
  anim_inv out.1 out.2 /\ task_of Screen out.1 = None /\
  thread_log out.2 = thread_log w ++ stop_events (task_of Screen d) /\
  next_tid out.2 = next_tid w /\ initialized out.1 = initialized d /\
  animations out.1 = animations d.
Proof.
  intros Hinv. unfold stopScreenAnimation. cbv zeta.
  destruct (screen_animation d) as [a|] eqn:Hk; cbn [fst snd].
  - destruct (stop_task_inv Screen a d w Hinv Hk) as (H1 & H2 & H3).
    split; [exact H1 |]. split; [reflexivity |].
    split; [exact H2 |]. split; [exact H3 |]. split; reflexivity.
  - split; [exact Hinv |]. split; [exact Hk |].
    unfold stop_events. cbn [task_of]. rewrite Hk. cbn. by rewrite app_nil_r.
Qed.

Lemma no_live_worker_without_task t d w tid :
  anim_inv d w -> task_of t d = None ->
  (tid, t) ∉ live_workers (thread_log w).
Proof.
  intros [_ Hl] Ht Hin. destruct (Hl _ _ Hin) as [H _].
  unfold task_thread in H. rewrite Ht in H. discriminate H.
Qed.

Lemma start_task_spec t loop decode store_task d w :
  anim_inv d w -> task_of t d = None ->
  (forall a d0, task_thread t (store_task a d0) = animation_thread a) ->
  (forall a d0 t', t' <> t -> task_thread t' (store_task a d0) = task_thread t' d0) ->
  let out := start_task t loop decode store_task d w in
  anim_inv out.1.2 out.2 /\
  thread_log out.2 = thread_log w ++ start_events out.1.1 (next_tid w) t /\
  (out.1.1 = true -> task_thread t out.1.2 = Some (next_tid w)) /\
  (out.1.1 = false -> out.1.2 = d).
Proof.
  intros Hinv Ht Hsame Hother. unfold start_task. cbv zeta.
  destruct (decode (mkGif [] loop)) as [ok anim].
  assert (Hfail : anim_inv d w /\
            thread_log w = thread_log w ++ start_events false (next_tid w) t /\
            (false = true -> task_thread t d = Some (next_tid w)) /\
            (false = false -> d = d)).
  { split; [exact Hinv |]. split; [by rewrite app_nil_r |]. split; done. }
  destruct ok; cbn [negb]; [| exact Hfail].
  case_bool_decide as Hfr; [exact Hfail |]. clear Hfail.
  cbn [fst snd start_events].
  split; [| split; [| split; [| discriminate]]].
  - destruct Hinv as [Hh Hl].
    assert (Hfresh : forall tid', (tid', t) ∉ live_workers (thread_log w)).
    { intros tid'. by apply (no_live_worker_without_task t d). }
    split.
    + apply history_neutral; [done |].
      rewrite thread_log_log. apply at_all_times_snoc; [exact Hh |].
      rewrite live_workers_snoc. cbn [apply_thread_event bump_tid thread_log].
      unfold one_worker_per_target. rewrite fmap_app. apply NoDup_app.
      split; [apply (at_all_times_now _ _ Hh) |].
      split; [| apply NoDup_singleton].
      intros t' Hin Hin'. apply list_elem_of_singleton in Hin'. subst t'.
      apply list_elem_of_fmap in Hin. destruct Hin as ([tid' t'] & Heq & Hin).
      cbn in Heq. subst t'. by apply (Hfresh tid').
    + intros tid' t'. rewrite !thread_log_log, !live_workers_snoc.
      cbn [apply_thread_event bump_tid thread_log next_tid log_thread].
      rewrite elem_of_app, list_elem_of_singleton.
      intros [Hin | Heq].
      * destruct (Hl _ _ Hin) as [H1 H2]. split; [| lia].
        rewrite Hother; [exact H1 |]. intros ->. by apply (Hfresh tid').
      * injection Heq as -> ->. split; [| lia]. by rewrite Hsame.
  - rewrite !thread_log_log, <- app_assoc. reflexivity.
  - intros _. by rewrite Hsame.
Qed.

Lemma task_thread_store_key_ne k a d t' :
  t' <> Key k -> task_thread t' (store_key k a d) = task_thread t' d.
Proof.
  intros Hne. unfold task_thread. f_equal. destruct t' as [k'|]; cbn; [| done].
  apply lookup_insert_ne. congruence.
Qed.

Lemma task_thread_store_screen a d :
  task_thread Screen (store_screen a d) = animation_thread a.
Proof. reflexivity. Qed.

Lemma task_thread_store_screen_ne a d t' :
  t' <> Screen -> task_thread t' (store_screen a d) = task_thread t' d.
Proof. intros Hne. destruct t' as [k'|]; [reflexivity | done]. Qed.

(** Stop the prior task of [t], then start the new one. *)
Lemma restart_spec t loop decode store_task d w (stopped : Impl * World) :
  anim_inv d w ->
  anim_inv stopped.1 stopped.2 -> task_of t stopped.1 = None ->
  thread_log stopped.2 = thread_log w ++ stop_events (task_of t d) ->
  next_tid stopped.2 = next_tid w ->
  (forall a d0, task_thread t (store_task a d0) = animation_thread a) ->
  (forall a d0 t', t' <> t -> task_thread t' (store_task a d0) = task_thread t' d0) ->
  let out := start_task t loop decode store_task stopped.1 stopped.2 in
  anim_inv out.1.2 out.2 /\ restart_ok t d w out.
Proof.
  intros Hinv Hinv' Hnone Hlog Htid Hsame Hother out.
  destruct (start_task_spec t loop decode store_task _ _ Hinv' Hnone Hsame Hother)
    as (H1 & H2 & H3 & H4).
  fold out in H1, H2, H3, H4. split; [exact H1 |].
  rewrite Htid in H3.
  unfold restart_ok. rewrite H2, Hlog, Htid, <- app_assoc.
  split; [reflexivity |]. split; [exact H3 |].
  intros Hf. rewrite (H4 Hf). exact Hnone.
Qed.

Lemma setKeyGif_like_spec decode k loop d w :
  anim_inv d w -> initialized d = true -> 0 <= k <= 8 ->
  let out :=
    (if bool_decide (k < 0) || bool_decide (k > 8) || negb (initialized d)
     then (false, d, w)
     else let '(d1, w1) := stopKeyAnimation k d w in
          start_task (Key k) loop decode (store_key k) d1 w1) in
  anim_inv out.1.2 out.2 /\ restart_ok (Key k) d w out.
Proof.
  intros Hinv Hinit Hk.
  rewrite Hinit, (bool_decide_eq_false_2 (k < 0)),
    (bool_decide_eq_false_2 (k > 8)) by lia. cbn [orb negb].
  destruct (stopKeyAnimation_spec k d w Hinv) as (H1 & H2 & H3 & H4 & _).
  destruct (stopKeyAnimation k d w) as [d1 w1] eqn:Hstop. cbn [fst snd] in *.
  apply (restart_spec (Key k) loop decode (store_key k) d w (d1, w1));
    try assumption.
  - intros a d0. apply task_thread_store_key.
  - intros a d0 t' Hne. by apply task_thread_store_key_ne.
Qed.

Lemma setScreenGif_like_spec decode loop d w :
  anim_inv d w -> initialized d = true ->
  let out :=
    (if negb (initialized d) then (false, d, w)
     else let '(d1, w1) := stopScreenAnimation d w in
          start_task Screen loop decode store_screen d1 w1) in
  anim_inv out.1.2 out.2 /\ restart_ok Screen d w out.
Proof.
  intros Hinv Hinit. rewrite Hinit. cbn [negb].
  destruct (stopScreenAnimation_spec d w Hinv) as (H1 & H2 & H3 & H4 & _).
  destruct (stopScreenAnimation d w) as [d1 w1] eqn:Hstop. cbn [fst snd] in *.
  apply (restart_spec Screen loop decode store_screen d w (d1, w1));
    try assumption.
  - intros a d0. apply task_thread_store_screen.
  - intros a d0 t' Hne. by apply task_thread_store_screen_ne.
Qed.

(** The four starters keep the invariant whatever their arguments. *)
Lemma setKeyGif_like_inv decode k loop d w :
  anim_inv d w ->
  let out :=
    (if bool_decide (k < 0) || bool_decide (k > 8) || negb (initialized d)
     then (false, d, w)
     else let '(d1, w1) := stopKeyAnimation k d w in
          start_task (Key k) loop decode (store_key k) d1 w1) in
  anim_inv out.1.2 out.2.
Proof.
  intros Hinv.
  destruct (bool_decide (k < 0) || bool_decide (k > 8) || negb (initialized d))
    eqn:Hg; [exact Hinv |].
  apply orb_false_elim in Hg. destruct Hg as [Hg Hi].
  apply orb_false_elim in Hg. destruct Hg as [Hlt Hgt].
  apply bool_decide_eq_false_1 in Hlt, Hgt. apply negb_false_iff in Hi.
  pose proof (setKeyGif_like_spec decode k loop d w Hinv Hi ltac:(lia)) as H.
  cbv zeta in H. rewrite Hi, (bool_decide_eq_false_2 (k < 0)),
    (bool_decide_eq_false_2 (k > 8)) in H by lia.
  cbn [orb negb] in H. apply H.
Qed.

Lemma setScreenGif_like_inv decode loop d w :
  anim_inv d w ->
  let out :=
    (if negb (initialized d) then (false, d, w)
     else let '(d1, w1) := stopScreenAnimation d w in
          start_task Screen loop decode store_screen d1 w1) in
  anim_inv out.1.2 out.2.
Proof.
  intros Hinv. destruct (initialized d) eqn:Hi; cbn [negb]; [| exact Hinv].
  pose proof (setScreenGif_like_spec decode loop d w Hinv Hi) as H.
  cbv zeta in H. rewrite Hi in H. cbn [negb] in H. apply H.
Qed.

Lemma foldl_stop_tasks (l : list (Z * KeyAnimation)) : forall w,
  at_all_times one_worker_per_target (thread_log w) ->
  (forall tid t, (tid, t) ∈ live_workers (thread_log w) ->
     exists x, x ∈ l /\ animation_thread x.2 = Some tid) ->
  let w' := foldl (fun w pair => stop_task pair.2 w) w l in
  at_all_times one_worker_per_target (thread_log w') /\
  live_workers (thread_log w') = [].
Proof.
  induction l as [|x l IH]; intros w Hh Hq; cbn [foldl].
  - split; [exact Hh |]. apply elem_of_nil_inv. intros [tid t] Hin.
    destruct (Hq _ _ Hin) as (x & Hx & _). by apply elem_of_nil in Hx.
  - apply IH.
    + unfold stop_task. destruct (animation_thread x.2); [| exact Hh].
      apply history_join. by apply history_neutral.
    + intros tid t. unfold stop_task.
      destruct (animation_thread x.2) as [tid0|] eqn:Hx.
      * rewrite !thread_log_log, !live_workers_snoc.
        cbn [apply_thread_event]. rewrite list_elem_of_filter. cbn.
        intros [Hne Hin]. destruct (Hq _ _ Hin) as (x' & Hx' & Hth).
        exists x'. split; [| exact Hth].
        apply elem_of_cons in Hx'. destruct Hx' as [-> | Hx']; [| exact Hx'].
        congruence.
      * intros Hin. destruct (Hq _ _ Hin) as (x' & Hx' & Hth).
        exists x'. split; [| exact Hth].
        apply elem_of_cons in Hx'. destruct Hx' as [-> | Hx']; [| exact Hx'].
        congruence.
Qed.

Lemma stopAllAnimations_inv d w :
  anim_inv d w ->
  anim_inv (stopAllAnimations d w).1 (stopAllAnimations d w).2.
Proof.
  intros Hinv. unfold stopAllAnimations.
  destruct (stopScreenAnimation_spec d w Hinv) as (H1 & H2 & _ & _ & _ & H6).
  destruct (stopScreenAnimation d w) as [d1 w1]. cbn [fst snd] in *.
  destruct H1 as [Hh Hl].
  destruct (foldl_stop_tasks (merge_sort by_key (map_to_list (animations d1)))
              w1 Hh) as [Hh' Hnil].
  - intros tid t Hin. destruct (Hl _ _ Hin) as [Ht _].
    unfold task_thread in Ht. destruct t as [k|]; cbn [task_of] in Ht.
    + destruct (animations d1 !! k) as [a|] eqn:Hk; [| discriminate Ht].
      exists (k, a). split; [| exact Ht].
      rewrite merge_sort_Permutation. by apply elem_of_map_to_list.
    + cbn [task_of] in H2. rewrite H2 in Ht. discriminate Ht.
  - split; [exact Hh' |]. intros tid t Hin. rewrite Hnil in Hin.
    by apply elem_of_nil in Hin.
Qed.

Lemma anim_step_inv decodeGif decodeGifFromFile op s :
  anim_inv s.1 s.2 ->
  anim_inv (anim_step decodeGif decodeGifFromFile op s).1
           (anim_step decodeGif decodeGifFromFile op s).2.
Proof.
  destruct s as [d w]. cbn [fst snd]. intros Hinv.
  destruct op as [k g l | k g l | g l | g l | k | |]; cbn [anim_step].
  - pose proof (setKeyGif_like_inv
                  (fun a => decodeGif g a LCD_SIZE LCD_SIZE) k l d w Hinv) as H.
    cbv zeta in H. unfold setKeyGif.
    destruct (if _ : bool then _ else _) as [[ok d'] w']. exact H.
  - pose proof (setKeyGif_like_inv
                  (fun a => decodeGifFromFile g a LCD_SIZE LCD_SIZE) k l d w Hinv)
      as H.
    cbv zeta in H. unfold setKeyGifFromFile.
    destruct (if _ : bool then _ else _) as [[ok d'] w']. exact H.
  - pose proof (setScreenGif_like_inv
                  (fun a => decodeGif g a SCREEN_WIDTH SCREEN_HEIGHT) l d w Hinv)
      as H.
    cbv zeta in H. unfold setScreenGif.
    destruct (if _ : bool then _ else _) as [[ok d'] w']. exact H.
  - pose proof (setScreenGif_like_inv
                  (fun a => decodeGifFromFile g a SCREEN_WIDTH SCREEN_HEIGHT)
                  l d w Hinv) as H.
    cbv zeta in H. unfold setScreenGifFromFile.
    destruct (if _ : bool then _ else _) as [[ok d'] w']. exact H.
  - apply (stopKeyAnimation_spec k d w Hinv).
  - apply (stopScreenAnimation_spec d w Hinv).
  - by apply stopAllAnimations_inv.
Qed.

Lemma anim_run_inv decodeGif decodeGifFromFile ops : forall s,
  anim_inv s.1 s.2 ->
  anim_inv (anim_run decodeGif decodeGifFromFile ops s).1
           (anim_run decodeGif decodeGifFromFile ops s).2.
Proof.
  induction ops as [|op ops IH]; intros s Hinv; [exact Hinv |].
  cbn [anim_run foldl]. apply IH. by apply anim_step_inv.
Qed.

Lemma anim_inv_fresh d w :
  thread_log w = [] -> anim_inv d w.
Proof.
  intros Hlog. split.
  - rewrite Hlog. apply at_all_times_nil. constructor.
  - intros tid t. rewrite Hlog. intros Hin. by apply elem_of_nil in Hin.
Qed.

(** C9.  From a state in which every live worker is the stored task of
    its target, each of the four [set...Gif] calls on an initialized
    session first tells the prior task of its target to stop and joins
    its thread, and only then creates and stores the new worker; and
    after any sequence of animation calls there has been, at every point
    of the thread history, at most one unjoined worker per target. *)
Theorem one_animation_task_per_target
    (decodeGif decodeGifFromFile :
       list Z -> GifAnimation -> Z -> Z -> bool * GifAnimation)
    (d : Impl) (w : World) (k : Z) (data : list Z) (loop : bool)
    (ops : list anim_op) :
  anim_inv d w -> initialized d = true -> 0 <= k <= 8 ->
  restart_ok (Key k) d w (setKeyGif decodeGif k data loop d w) /\
  restart_ok (Key k) d w (setKeyGifFromFile decodeGifFromFile k data loop d w) /\
  restart_ok Screen d w (setScreenGif decodeGif data loop d w) /\
  restart_ok Screen d w (setScreenGifFromFile decodeGifFromFile data loop d w) /\
  at_all_times one_worker_per_target
    (thread_log (anim_run decodeGif decodeGifFromFile ops (d, w)).2).
Proof.
  intros Hinv Hinit Hk.
  split; [apply (setKeyGif_like_spec _ k loop d w Hinv Hinit Hk) |].
  split; [apply (setKeyGif_like_spec _ k loop d w Hinv Hinit Hk) |].
  split; [apply (setScreenGif_like_spec _ loop d w Hinv Hinit) |].
  split; [apply (setScreenGif_like_spec _ loop d w Hinv Hinit) |].
  apply (anim_run_inv decodeGif decodeGifFromFile ops (d, w) Hinv).
Qed.

Lemma one_animation_task_per_target_witness :
  let ops := [OpSetKeyGif 4 [1] true; OpSetScreenGif [2] true;
              OpSetKeyGif 4 [3] false] in
  (anim_inv ready_impl fresh_world /\ initialized ready_impl = true /\
   0 <= 4 <= 8) /\
  restart_ok (Key 4) ready_impl fresh_world
    (setKeyGif one_frame_decoder 4 [1] true ready_impl fresh_world) /\
  at_all_times one_worker_per_target
    (thread_log (anim_run one_frame_decoder one_frame_decoder ops
                   (ready_impl, fresh_world)).2).
Proof.
  assert (Hinv : anim_inv ready_impl fresh_world) by (by apply anim_inv_fresh).
  assert (Hk : 0 <= 4 <= 8) by lia.
  split; [split; [exact Hinv | split; [reflexivity | exact Hk]] |].
  destruct (one_animation_task_per_target one_frame_decoder one_frame_decoder
              ready_impl fresh_world 4 [1] true
              [OpSetKeyGif 4 [1] true; OpSetScreenGif [2] true;
               OpSetKeyGif 4 [3] false]
              Hinv eq_refl Hk) as (H1 & _ & _ & _ & H5).
  split; [exact H1 | exact H5].
Defined.

Example replace_key_animation :
  thread_log (anim_run one_frame_decoder one_frame_decoder
                [OpSetKeyGif 4 [1] true; OpSetScreenGif [2] true;
                 OpSetKeyGif 4 [3] false]
                (ready_impl, fresh_world)).2
  = [EvSpawn 0 (Key 4); EvStore (Key 4) 0;
     EvSpawn 1 Screen; EvStore Screen 1;
     EvRunFlagFalse 0; EvJoin 0; EvSpawn 2 (Key 4); EvStore (Key 4) 2].
Proof. vm_compute. reflexivity. Qed.
(** ** Two writers on one descriptor *)

Lemma run_schedule_solo_0 n : forall sched t0 t1 sh,
  run_schedule (replicate n false ++ sched) t0 t1 sh =
  run_schedule sched (solo_steps 0 n t0 sh).1 t1 (solo_steps 0 n t0 sh).2.
Proof.
  induction n as [|n IH]; intros sched t0 t1 sh; [reflexivity |].
  cbn [replicate app run_schedule solo_steps].
  destruct (thread_step 0 t0 sh) as [t0' sh']. apply IH.
Qed.

Lemma run_schedule_solo_1 n : forall t0 t1 sh,
  run_schedule (replicate n true) t0 t1 sh =
  (t0, (solo_steps 1 n t1 sh).1, (solo_steps 1 n t1 sh).2).
Proof.
  induction n as [|n IH]; intros t0 t1 sh; [reflexivity |].
  cbn [replicate run_schedule solo_steps].
  destruct (thread_step 1 t1 sh) as [t1' sh']. apply IH.
Qed.

Lemma solo_steps_add tid n m : forall t sh,
  solo_steps tid (n + m) t sh =
  solo_steps tid m (solo_steps tid n t sh).1 (solo_steps tid n t sh).2.
Proof.
  induction n as [|n IH]; intros t sh; [reflexivity |].
  cbn [Nat.add solo_steps]. destruct (thread_step tid t sh) as [t' sh']. apply IH.
Qed.

Lemma solo_steps_S tid n t sh :
  solo_steps tid (S n) t sh =
  solo_steps tid n (thread_step tid t sh).1 (thread_step tid t sh).2.
Proof. cbn [solo_steps]. by destruct (thread_step tid t sh). Qed.

(** Inside [writev]: one packet per step, then the return to user code. *)
Lemma solo_steps_in_writev tid k rest : forall n sh,
  solo_steps tid (S (length rest)) (InWritev rest n k) sh =
  (InUser (k (n + Z.of_nat (length (concat rest))) 0),
   mkShared (sh_flags sh) (wire sh ++ tagged tid rest)).
Proof.
  induction rest as [|pkt rest IH]; intros n sh.
  - cbn. rewrite Z.add_0_r, app_nil_r. by destruct sh.
  - cbn [length]. rewrite solo_steps_S. cbn [thread_step fst snd].
    rewrite IH. cbn [sh_flags wire].
    f_equal.
    + do 2 f_equal. cbn [concat]. rewrite length_app. lia.
    + f_equal. cbn [tagged map]. by rewrite <- app_assoc.
Qed.

Lemma solo_transmit tid packets sh :
  Forall (fun p => length p = MAX_PACKET_SIZE) packets ->
  solo_steps tid (length packets + 5) (InUser (transmit packets)) sh =
  (InUser (Ret true), mkShared (sh_flags sh) (wire sh ++ tagged tid packets)).
Proof.
  intros Hsize.
  replace (length packets + 5)%nat with (3 + (S (length packets) + 1))%nat by lia.
  unfold transmit. rewrite (solo_steps_add tid 3).
  cbn [solo_steps thread_step fst snd].
  rewrite solo_steps_add, solo_steps_in_writev. cbn [fst snd sh_flags wire].
  rewrite (length_concat_uniform MAX_PACKET_SIZE) by exact Hsize.
  rewrite (bool_decide_eq_false_2 (_ < 0)) by lia.
  cbn [solo_steps thread_step]. do 3 f_equal.
  apply bool_decide_eq_true_2. lia.
Qed.

Lemma tagged_writers tid packets :
  ((tagged tid packets).*1) = replicate (length packets) tid.
Proof. induction packets as [|p l IH]; [done |]. cbn. by rewrite <- IH. Qed.

Lemma tagged_other tid tid' packets :
  tid <> tid' -> Forall (fun p : nat * list Z => p.1 <> tid') (tagged tid packets).
Proof.
  intros Hne. apply Forall_forall. intros p Hp.
  apply list_elem_of_fmap in Hp. destruct Hp as (pkt & -> & _). exact Hne.
Qed.

(** C1 (amended).  The write path takes no lock and uses no queue.  When
    one image update runs to completion before the next one starts, the
    packets of each reach the device as one uninterrupted run and both
    calls report success. *)
Theorem sequences_contiguous_when_not_overlapping
    (packetsA packetsB : list (list Z)) (sh : shared_fd) :
  Forall (fun p => length p = MAX_PACKET_SIZE) packetsA ->
  Forall (fun p => length p = MAX_PACKET_SIZE) packetsB ->
  let sched := one_after_the_other (length packetsA + 5) (length packetsB + 5) in
  let out := run_schedule sched (InUser (transmit packetsA))
                          (InUser (transmit packetsB)) sh in
  out.1.1 = InUser (Ret true) /\ out.1.2 = InUser (Ret true) /\
  exists new, wire out.2 = wire sh ++ new /\
    transmitted_as_unit 0 packetsA new /\ transmitted_as_unit 1 packetsB new.
Proof.
  intros HA HB sched out. unfold out, sched, one_after_the_other.
  rewrite run_schedule_solo_0, run_schedule_solo_1.
  rewrite (solo_transmit 0 packetsA sh HA). cbn [fst snd].
  rewrite (solo_transmit 1 packetsB _ HB). cbn [fst snd wire].
  split; [reflexivity |]. split; [reflexivity |].
  exists (tagged 0 packetsA ++ tagged 1 packetsB).
  split; [by rewrite <- app_assoc |]. split.
  - exists [], (tagged 1 packetsB). split; [reflexivity |].
    split; [constructor | by apply tagged_other].
  - exists (tagged 0 packetsA), []. split; [by rewrite app_nil_r |].
    split; [by apply tagged_other | constructor].
Qed.

Lemma two_packets_sizes :
  Forall (fun p => length p = MAX_PACKET_SIZE) two_packets_A /\
  Forall (fun p => length p = MAX_PACKET_SIZE) two_packets_B.
Proof.
  split; apply Forall_forall; intros p Hp;
    apply list_elem_of_lookup in Hp; destruct Hp as [k Hk];
    apply (generated_padded _ _ _ _ _ _ fresh_pool_wf) in Hk; apply Hk.
Qed.

Lemma sequences_contiguous_when_not_overlapping_witness :
  let out := run_schedule (one_after_the_other 7 7)
               (InUser (transmit two_packets_A))
               (InUser (transmit two_packets_B)) (mkShared O_RDWR []) in
  (Forall (fun p => length p = MAX_PACKET_SIZE) two_packets_A /\
   Forall (fun p => length p = MAX_PACKET_SIZE) two_packets_B) /\
  out.1.1 = InUser (Ret true) /\ out.1.2 = InUser (Ret true) /\
  exists new, wire out.2 = [] ++ new /\
    transmitted_as_unit 0 two_packets_A new /\
    transmitted_as_unit 1 two_packets_B new.
Proof.
  split; [exact two_packets_sizes |].
  apply (sequences_contiguous_when_not_overlapping two_packets_A two_packets_B
           (mkShared O_RDWR [])); apply two_packets_sizes.
Defined.

Lemma unit_writers tid packets w :
  transmitted_as_unit tid packets w ->
  exists before after : list nat,
    (w.*1) = before ++ replicate (length packets) tid ++ after /\
    (tid ∉ before) /\ (tid ∉ after).
Proof.
  intros (before & after & -> & Hb & Ha).
  exists (before.*1), (after.*1). rewrite !fmap_app, tagged_writers.
  split; [reflexivity |].
  split; intros Hin; apply list_elem_of_fmap in Hin;
    destruct Hin as (p & -> & Hp); rewrite Forall_forall in Hb, Ha;
    [by apply (Hb p) | by apply (Ha p)].
Qed.

Lemma no_unit_in_alternation tid (packets : list (list Z)) w :
  length packets = 2%nat -> (w.*1) = [0; 1; 0; 1]%nat ->
  ~ transmitted_as_unit tid packets w.
Proof.
  intros Hlen Hw Hunit. apply unit_writers in Hunit.
  destruct Hunit as (before & after & Heq & Hb & Ha).
  rewrite Hlen, Hw in Heq. cbn [replicate app] in Heq.
  destruct before as [|b1 [|b2 [|b3 before]]]; cbn [app] in Heq.
  - injection Heq as <- ? ?. discriminate.
  - injection Heq as <- <- ? ?. discriminate.
  - injection Heq as <- <- <- ? ?. discriminate.
  - apply (f_equal length) in Heq. cbn [length] in Heq.
    rewrite length_app in Heq. cbn [length] in Heq. lia.
Qed.

(** C1, as stated, fails: with two image updates of two packets each in
    flight at once, a schedule that alternates between the two threads
    inside [writev] puts the packets on the wire in the order A, B, A, B.
    Neither sequence arrives as a unit, and both calls report success. *)
Lemma concurrent_sequences_interleave :
  let out := run_schedule alternating
               (InUser (transmit two_packets_A))
               (InUser (transmit two_packets_B)) (mkShared O_RDWR []) in
  out.1.1 = InUser (Ret true) /\ out.1.2 = InUser (Ret true) /\
  ((wire out.2).*1) = [0; 1; 0; 1]%nat /\
  ~ transmitted_as_unit 0 two_packets_A (wire out.2) /\
  ~ transmitted_as_unit 1 two_packets_B (wire out.2).
Proof.
  intros out.
  assert (Hw : ((wire out.2).*1) = [0; 1; 0; 1]%nat) by (vm_compute; reflexivity).
  split; [vm_compute; reflexivity |]. split; [vm_compute; reflexivity |].
  split; [exact Hw |].
  split; apply no_unit_in_alternation; try exact Hw; vm_compute; reflexivity.
Qed.
(** ** More on the packetizer *)

(** X1.  The packets do not depend on what the pool held before, nor on
    its counter: whatever well-formed pool the packetizer starts from, it
    produces the packets it produces from a fresh one, and it leaves the
    pool well formed. *)
Theorem packets_independent_of_pool
    (p0 : PacketBufferPool) (x y width height keyIndex : Z) (jpegData : list Z) :
  pool_wf p0 ->
  (generateRawImagePackets x y width height jpegData p0).1 =
    (generateRawImagePackets x y width height jpegData fresh_pool).1 /\
  (generateImagePackets keyIndex jpegData p0).1 =
    (generateImagePackets keyIndex jpegData fresh_pool).1 /\
  pool_wf (generateRawImagePackets x y width height jpegData p0).2 /\
  pool_wf (generateImagePackets keyIndex jpegData p0).2.
Proof.
  intros Hwf. unfold generateRawImagePackets, generateImagePackets. cbv zeta.
  cbn [fst snd].
  repeat match goal with
  | |- context [generate_packets ?a ?b ?c ?d ?j p0] =>
      let H := fresh "H" in
      destruct (generate_packets_spec a b c d j p0 Hwf) as (_ & ? & H);
      rewrite H; clear H
  | |- context [generate_packets ?a ?b ?c ?d ?j fresh_pool] =>
      let H := fresh "H" in
      destruct (generate_packets_spec a b c d j fresh_pool fresh_pool_wf)
        as (_ & _ & H);
      rewrite H; clear H
  end.
  split; [reflexivity |]. split; [reflexivity |].
  split; apply generate_packets_spec; exact Hwf.
Qed.

Lemma packets_independent_of_pool_witness :
  let dirty := mkPool (replicate POOL_SIZE (replicate MAX_PACKET_SIZE 0xaa)) 37 in
  pool_wf dirty /\
  (generateImagePackets 4 [1; 2; 3] dirty).1 =
  (generateImagePackets 4 [1; 2; 3] fresh_pool).1.
Proof.
  intros dirty.
  assert (Hwf : pool_wf dirty).
  { split; [reflexivity | split; [| cbn; lia]].
    apply Forall_forall. intros b Hb. apply elem_of_replicate in Hb.
    destruct Hb as [-> _]. apply length_replicate. }
  split; [exact Hwf |].
  apply (packets_independent_of_pool dirty 23 6 434 434 4 [1; 2; 3] Hwf).
Defined.

(** X2.  The packet loop always runs to its end: no byte of the image is
    left over, and the number of packets produced is exactly the count
    computed up front for [reserve]. *)
Theorem packet_loop_consumes_everything
    (p0 : PacketBufferPool) (x y width height keyIndex : Z) (jpegData : list Z) :
  pool_wf p0 ->
  remainingBytes (generate_packets x y width height jpegData p0) = 0%nat /\
  length (generateRawImagePackets x y width height jpegData p0).1
    = totalPackets (length jpegData) /\
  length (generateImagePackets keyIndex jpegData p0).1
    = totalPackets (length jpegData).
Proof.
  intros Hwf. unfold generateRawImagePackets, generateImagePackets. cbv zeta.
  cbn [fst]. split; [apply generate_packets_spec; exact Hwf |].
  split; apply generate_packets_terminates; exact Hwf.
Qed.

Lemma packet_loop_consumes_everything_witness :
  pool_wf fresh_pool /\
  length (generateImagePackets 4 (replicate 5000 1) fresh_pool).1
    = totalPackets (length (replicate 5000 1)).
Proof.
  split; [exact fresh_pool_wf |].
  apply (packet_loop_consumes_everything fresh_pool 0 0 0 0 4 (replicate 5000 1)
           fresh_pool_wf).
Defined.

Lemma header1_prefix x y w h n :
  take 4 (packet1_header x y w h n) = PACKET_BASE_HEADER /\
  take 4 (drop 5 (packet1_header x y w h n)) = [0x01; 0x00; 0x01; 0x00] /\
  packet1_header x y w h n !! 17%nat = Some 0.
Proof. split; [| split]; reflexivity. Qed.

Lemma header1_rect x y w h n :
  let hdr := packet1_header x y w h n in
  hdr !! 9%nat = Some (Z.land (Z.shiftr x 8) 0xff) /\
  hdr !! 10%nat = Some (Z.land x 0xff) /\
  hdr !! 11%nat = Some (Z.land (Z.shiftr y 8) 0xff) /\
  hdr !! 12%nat = Some (Z.land y 0xff) /\
  hdr !! 13%nat = Some (Z.land (Z.shiftr w 8) 0xff) /\
  hdr !! 14%nat = Some (Z.land w 0xff) /\
  hdr !! 15%nat = Some (Z.land (Z.shiftr h 8) 0xff) /\
  hdr !! 16%nat = Some (Z.land h 0xff).
Proof. repeat split; reflexivity. Qed.

Lemma be16_small n :
  0 <= n < 65536 ->
  Z.land (Z.shiftr n 8) 0xff * 256 + Z.land n 0xff = n.
Proof. intros Hn. rewrite be16_value by lia. apply Z.mod_small. lia. Qed.

Lemma rect_of_packet_at_0 x y w h (jpeg : list Z) :
  0 <= x < 65536 -> 0 <= y < 65536 -> 0 <= w < 65536 -> 0 <= h < 65536 ->
  rect_of (packet_at x y w h jpeg 0) = (x, y, w, h).
Proof.
  intros Hx Hy Hw Hh.
  destruct (header1_rect x y w h (length jpeg))
    as (H9 & H10 & H11 & H12 & H13 & H14 & H15 & H16).
  unfold rect_of, be16, byte_at, packet_at, mk_packet.
  rewrite !lookup_app_l by (rewrite length_packet1_header; lia).
  rewrite H9, H10, H11, H12, H13, H14, H15, H16. cbn [from_option id].
  by rewrite !be16_small.
Qed.

Lemma packet_at_signature x y w h (jpeg : list Z) k :
  take 4 (packet_at x y w h jpeg k) = PACKET_BASE_HEADER.
Proof.
  unfold packet_at, mk_packet. destruct k as [|k].
  - rewrite take_app_le by (rewrite length_packet1_header; lia). reflexivity.
  - rewrite take_app_le by (rewrite length_packet_header; lia). reflexivity.
Qed.

(** X3.  The first packet of a raw image announces the rectangle it was
    given: its header carries the 0x14 0xff 0x02 0x2b signature, the tag
    01 00 01 00 at offsets 5-8, and [x], [y], [width], [height] big-endian
    at offsets 9-16, read back unchanged for all 16-bit values; every
    later packet opens with the same signature. *)
Theorem raw_header_round_trip
    (p0 : PacketBufferPool) (x y width height : Z) (jpegData : list Z) :
  pool_wf p0 ->
  0 <= x < 65536 -> 0 <= y < 65536 ->
  0 <= width < 65536 -> 0 <= height < 65536 ->
  let pkts := (generateRawImagePackets x y width height jpegData p0).1 in
  (exists pkt, pkts !! 0%nat = Some pkt /\
     rect_of pkt = (x, y, width, height) /\
     take 4 (drop 5 pkt) = [0x01; 0x00; 0x01; 0x00] /\ byte_at pkt 17 = 0) /\
  Forall (fun pkt => take 4 pkt = PACKET_BASE_HEADER) pkts.
Proof.
  intros Hwf Hx Hy Hw Hh pkts. unfold pkts, generateRawImagePackets. cbn [fst].
  destruct (generate_packets_spec x y width height jpegData p0 Hwf)
    as (_ & _ & ->).
  split.
  - exists (packet_at x y width height jpegData 0). split; [reflexivity |].
    split; [by apply rect_of_packet_at_0 |].
    destruct (header1_prefix x y width height (length jpegData)) as (_ & Hg & H17).
    unfold packet_at, mk_packet, byte_at. split.
    + rewrite drop_app_le by (rewrite length_packet1_header; lia).
      rewrite take_app_le by (rewrite length_drop, length_packet1_header; lia).
      exact Hg.
    + rewrite lookup_app_l by (rewrite length_packet1_header; lia).
      by rewrite H17.
  - apply Forall_forall. intros pkt Hin. apply list_elem_of_fmap in Hin.
    destruct Hin as (k & -> & _). apply packet_at_signature.
Qed.

Lemma raw_header_round_trip_witness :
  (pool_wf fresh_pool /\ 0 <= 300 < 65536 /\ 0 <= 7 < 65536 /\
   0 <= 1000 < 65536 /\ 0 <= 2 < 65536) /\
  exists pkt,
    (generateRawImagePackets 300 7 1000 2 [1; 2; 3] fresh_pool).1 !! 0%nat
      = Some pkt /\
    rect_of pkt = (300, 7, 1000, 2).
Proof.
  split; [split; [exact fresh_pool_wf | lia] |].
  destruct (raw_header_round_trip fresh_pool 300 7 1000 2 [1; 2; 3]
              fresh_pool_wf ltac:(lia) ltac:(lia) ltac:(lia) ltac:(lia))
    as [(pkt & H0 & Hr & _) _].
  exists pkt. split; [exact H0 | exact Hr].
Defined.

Lemma key_rect_facts k k' :
  0 <= k <= 8 -> 0 <= k' <= 8 ->
  inside_rect (key_rect k) (23, 6, SCREEN_WIDTH, SCREEN_HEIGHT) /\
  (k <> k' -> disjoint_rects (key_rect k) (key_rect k')).
Proof.
  intros Hk Hk'. unfold inside_rect, disjoint_rects, key_rect, SCREEN_WIDTH,
    SCREEN_HEIGHT. split; [lia |]. intros Hne. lia.
Qed.

(** X4.  For every key index 0-8 the first packet announces the square
    of side 118 at [x = 23 + (k mod 3) * 158], [y = 6 + (k / 3) * 158];
    these nine squares are pairwise disjoint and all lie inside the
    rectangle (23, 6, 434, 434) that [setScreenImage] announces. *)
Theorem key_rectangles
    (p0 : PacketBufferPool) (k k' : Z) (jpegData screenData : list Z) :
  pool_wf p0 -> 0 <= k <= 8 -> 0 <= k' <= 8 ->
  (exists pkt, (generateImagePackets k jpegData p0).1 !! 0%nat = Some pkt /\
               rect_of pkt = key_rect k) /\
  (exists pkt,
     (generateRawImagePackets 23 6 SCREEN_WIDTH SCREEN_HEIGHT screenData p0).1
       !! 0%nat = Some pkt /\
     rect_of pkt = (23, 6, SCREEN_WIDTH, SCREEN_HEIGHT)) /\
  inside_rect (key_rect k) (23, 6, SCREEN_WIDTH, SCREEN_HEIGHT) /\
  (k <> k' -> disjoint_rects (key_rect k) (key_rect k')).
Proof.
  intros Hwf Hk Hk'. split; [| split; [| by apply key_rect_facts]].
  - unfold generateImagePackets. cbv zeta. cbn [fst].
    destruct (generate_packets_spec
                ((23 + Z.rem k 3 * (118 + 40)) mod 65536)
                ((6 + Z.quot k 3 * (118 + 40)) mod 65536)
                LCD_SIZE LCD_SIZE jpegData p0 Hwf) as (_ & _ & ->).
    eexists. split; [reflexivity |].
    rewrite rect_of_packet_at_0 by (unfold LCD_SIZE; lia).
    unfold key_rect, LCD_SIZE.
    rewrite Z.rem_mod_nonneg, Z.quot_div_nonneg by lia.
    rewrite !Z.mod_small by lia. do 3 f_equal; lia.
  - unfold generateRawImagePackets. cbn [fst].
    destruct (generate_packets_spec 23 6 SCREEN_WIDTH SCREEN_HEIGHT screenData
                p0 Hwf) as (_ & _ & ->).
    eexists. split; [reflexivity |].
    apply rect_of_packet_at_0; unfold SCREEN_WIDTH, SCREEN_HEIGHT; lia.
Qed.

Lemma key_rectangles_witness :
  (pool_wf fresh_pool /\ 0 <= 4 <= 8 /\ 0 <= 5 <= 8) /\
  (exists pkt, (generateImagePackets 4 [1; 2; 3] fresh_pool).1 !! 0%nat = Some pkt /\
               rect_of pkt = (181, 164, 118, 118)) /\
  disjoint_rects (key_rect 4) (key_rect 5).
Proof.
  split; [split; [exact fresh_pool_wf | lia] |].
  destruct (key_rectangles fresh_pool 4 5 [1; 2; 3] [] fresh_pool_wf
              ltac:(lia) ltac:(lia)) as (H1 & _ & _ & H4).
  split; [exact H1 | apply H4; lia].
Defined.

Lemma same_count_and_low_bits (N1 N2 : Z) :
  0 <= N1 -> 0 <= N2 ->
  packetCount N1 = packetCount N2 -> N1 mod 65536 = N2 mod 65536 -> N1 = N2.
Proof. unfold packetCount, ceil_div. lia. Qed.

(** X5.  The packet sequence determines the image: two images sent to
    the same rectangle give the same packets only if they are the same
    image, whatever their sizes. *)
Theorem packets_determine_image
    (p0 q0 : PacketBufferPool) (x y width height : Z) (jpeg1 jpeg2 : list Z) :
  pool_wf p0 -> pool_wf q0 ->
  (generateRawImagePackets x y width height jpeg1 p0).1 =
  (generateRawImagePackets x y width height jpeg2 q0).1 ->
  jpeg1 = jpeg2.
Proof.
  intros Hp Hq. unfold generateRawImagePackets. cbn [fst]. intros Heq.
  destruct (generated_ok x y width height jpeg1 p0 Hp) as (Hc1 & Hp1 & _).
  destruct (generated_ok x y width height jpeg2 q0 Hq) as (Hc2 & Hp2 & _).
  destruct (generated_padded x y width height jpeg1 p0 Hp)
    as (_ & pkt1 & Hk1 & Hf1 & _).
  destruct (generated_padded x y width height jpeg2 q0 Hq)
    as (_ & pkt2 & Hk2 & Hf2 & _).
  rewrite Heq in Hc1, Hp1, Hk1. rewrite Hk2 in Hk1. injection Hk1 as <-.
  assert (HN : Z.of_nat (length jpeg1) = Z.of_nat (length jpeg2)).
  { apply same_count_and_low_bits; [lia | lia | congruence | congruence]. }
  apply Nat2Z.inj in HN. rewrite HN in Hp1. congruence.
Qed.

Lemma packets_determine_image_witness :
  (pool_wf fresh_pool /\ pool_wf fresh_pool /\
   (generateRawImagePackets 0 0 10 10 [1; 2] fresh_pool).1 =
   (generateRawImagePackets 0 0 10 10 [1; 2] fresh_pool).1) /\
  [1; 2] = [1; 2].
Proof.
  split; [split; [exact fresh_pool_wf | split; [exact fresh_pool_wf | reflexivity]] |].
  apply (packets_determine_image fresh_pool fresh_pool 0 0 10 10 [1; 2] [1; 2]
           fresh_pool_wf fresh_pool_wf eq_refl).
Defined.

Lemma lor_mod_256 a b : Z.lor (a mod 256) b mod 256 = Z.lor a b mod 256.
Proof.
  change 256 with (2 ^ 8). rewrite <- !Z.land_ones by lia.
  apply Z.bits_inj'. intros n Hn.
  rewrite !Z.land_spec, !Z.lor_spec, !Z.land_spec.
  destruct (Z.testbit a n), (Z.testbit b n), (Z.testbit (Z.ones 8) n); reflexivity.
Qed.

Lemma write_packet_byte_any i f l :
  let v := generateWritePacketByte i f l in
  v = Z.lor (Z.lor i 0x20) (flags_value f l) mod 256 /\
  Z.testbit v 5 = true /\
  (f = true -> Z.testbit v 7 = true) /\
  (l = true -> Z.testbit v 6 = true).
Proof.
  cbv zeta.
  assert (Hv : generateWritePacketByte i f l
               = Z.lor (Z.lor i 0x20) (flags_value f l) mod 256).
  { unfold generateWritePacketByte, flags_value.
    destruct f, l.
    - rewrite lor_mod_256, <- Z.lor_assoc, lor_mod_256. reflexivity.
    - rewrite lor_mod_256. reflexivity.
    - rewrite lor_mod_256. reflexivity.
    - change (Z.lor 0 0) with 0. by rewrite Z.lor_0_r. }
  rewrite Hv. change 256 with (2 ^ 8). split; [reflexivity |].
  rewrite !Z.mod_pow2_bits_low, !Z.lor_spec by lia.
  split; [by rewrite orb_true_r |].
  split; intros ->; unfold flags_value; rewrite Z.lor_spec; cbn;
    rewrite ?orb_true_r; reflexivity.
Qed.

Lemma generated_control_flags x y w h (jpeg : list Z) p0 :
  pool_wf p0 ->
  control_flags_ok (result (generate_packets x y w h jpeg p0)).
Proof.
  intros Hwf k pkt Hk.
  destruct (generated_lookup _ _ _ _ _ _ _ _ Hwf Hk) as (-> & Hlt & Hlen).
  rewrite Hlen in *. cbv zeta. rewrite control_byte_packet_at. unfold ctl_at.
  rewrite (bool_decide_ext _ _ (last_test_iff _ _ Hlt)).
  destruct (write_packet_byte_any (Z.of_nat k + 1) (bool_decide (k = 0%nat))
              (bool_decide (S k = S (loop_iterations
                 (length jpeg - (MAX_PACKET_SIZE - PACKET1_HEADER))))))
    as (Hv & H5 & H7 & H6).
  split; [exact Hv |]. split; [exact H5 |].
  split; intros Heq; [apply H7 | apply H6]; by apply bool_decide_eq_true_2.
Qed.

(** X6.  For images of any size, the sequence-control byte of the packet
    at position [i] is [(i | 0x20 | flags) mod 256]; bit 0x20 is set on
    every packet, bit 0x80 on the first and bit 0x40 on the last. *)
Theorem control_flags_any_size
    (p0 : PacketBufferPool) (x y width height keyIndex : Z) (jpegData : list Z) :
  pool_wf p0 ->
  control_flags_ok (generateRawImagePackets x y width height jpegData p0).1 /\
  control_flags_ok (generateImagePackets keyIndex jpegData p0).1.
Proof.
  intros Hwf. split; apply generated_control_flags; exact Hwf.
Qed.

Lemma control_flags_any_size_witness :
  pool_wf fresh_pool /\
  control_flags_ok
    (generateRawImagePackets 23 6 434 434 (replicate 4100 5) fresh_pool).1.
Proof.
  split; [exact fresh_pool_wf |].
  apply (control_flags_any_size fresh_pool 23 6 434 434 0 (replicate 4100 5)
           fresh_pool_wf).
Defined.

Lemma packet1_header_bytes x y w h n :
  Forall is_byte (packet1_header x y w h n).
Proof.
  assert (Hland : forall a, is_byte (Z.land a 0xff)).
  { intros a. unfold is_byte. change 0xff with (Z.ones 8).
    rewrite Z.land_ones by lia. apply Z.mod_pos_bound. lia. }
  assert (Hc : is_byte (generateWritePacketByte 1 true
                          (bool_decide (n <= MAX_PACKET_SIZE - PACKET1_HEADER)%nat))).
  { destruct (bool_decide _); unfold is_byte; cbn; lia. }
  unfold packet1_header. cbv zeta.
  repeat (apply Forall_insert; [| first [apply Hland | exact Hc]]).
  unfold memcpy. cbn -[generateWritePacketByte].
  repeat (apply Forall_cons; split; [first [exact Hc | unfold is_byte; lia] |]).
  apply Forall_nil_2.
Qed.

Lemma packet_header_bytes c : is_byte c -> Forall is_byte (packet_header c).
Proof.
  intros Hc. unfold packet_header. apply Forall_insert; [| exact Hc].
  cbn. repeat (apply Forall_cons; split; [unfold is_byte; lia |]).
  apply Forall_nil_2.
Qed.

Lemma write_packet_byte_is_byte i f l : is_byte (generateWritePacketByte i f l).
Proof.
  destruct (write_packet_byte_any i f l) as (-> & _). apply Z.mod_pos_bound. lia.
Qed.

(** X7.  Every byte the packetizer emits is a byte: when the image holds
    values 0-255, so does every packet, for any rectangle and any part
    index. *)
Theorem packets_hold_bytes
    (p0 : PacketBufferPool) (x y width height keyIndex : Z) (jpegData : list Z) :
  pool_wf p0 -> Forall is_byte jpegData ->
  Forall (Forall is_byte)
    (generateRawImagePackets x y width height jpegData p0).1 /\
  Forall (Forall is_byte) (generateImagePackets keyIndex jpegData p0).1.
Proof.
  intros Hwf Hb.
  assert (Hgen : forall a b c d,
            Forall (Forall is_byte) (result (generate_packets a b c d jpegData p0))).
  { intros a b c d.
    destruct (generate_packets_spec a b c d jpegData p0 Hwf) as (_ & _ & ->).
    apply Forall_forall. intros pkt Hin. apply list_elem_of_fmap in Hin.
    destruct Hin as (k & -> & _).
    assert (Hchunk : Forall is_byte (chunk_at jpegData k)).
    { unfold chunk_at. by apply Forall_take, Forall_drop. }
    assert (Hz : forall m, Forall is_byte (replicate m 0)).
    { intros m. apply Forall_replicate. unfold is_byte. lia. }
    unfold packet_at, mk_packet. destruct k as [|k]; rewrite !Forall_app.
    - split; [apply packet1_header_bytes | split; [exact Hchunk | apply Hz]].
    - split; [apply packet_header_bytes, write_packet_byte_is_byte |].
      split; [exact Hchunk | apply Hz]. }
  split; apply Hgen.
Qed.

Lemma packets_hold_bytes_witness :
  (pool_wf fresh_pool /\ Forall is_byte [1; 2; 255]) /\
  Forall (Forall is_byte) (generateImagePackets 4 [1; 2; 255] fresh_pool).1.
Proof.
  assert (Hb : Forall is_byte [1; 2; 255]).
  { repeat (apply Forall_cons; split; [unfold is_byte; lia |]). apply Forall_nil_2. }
  split; [split; [exact fresh_pool_wf | exact Hb] |].
  apply (packets_hold_bytes fresh_pool 0 0 0 0 4 [1; 2; 255] fresh_pool_wf Hb).
Defined.
(** ** More on the input decoder *)

Lemma process_report_other bytes_read report dev :
  is_p_button_report bytes_read report = false ->
  is_grid_report bytes_read report = false ->
  process_report bytes_read report dev = ([], dev).
Proof.
  unfold is_grid_report, process_report. intros Hp. rewrite Hp. cbn [negb andb].
  intros Hg. destruct dev as [i cb]. cbn [impl_ event_callback_].
  destruct (bool_decide (bytes_read > 0) && bool_decide (bytes_read >= 7)) eqn:E;
    cbn [andb] in Hg |- *; [| reflexivity].
  rewrite Hg. reflexivity.
Qed.

Lemma report_shape bytes_read report :
  is_p_button_report bytes_read report = true \/
  is_grid_report bytes_read report = true \/
  (is_p_button_report bytes_read report = false /\
   is_grid_report bytes_read report = false).
Proof.
  destruct (is_p_button_report bytes_read report); [by left |].
  destruct (is_grid_report bytes_read report); [right; by left | right; by right].
Qed.

Lemma process_p_button_cases cb report i :
  let out := process_p_button (Some cb) report i in
  (out = ([press_event (byte_at report 5)],
          set_last_p_button (byte_at report 5) i) /\
   nav_code (byte_at report 5)) \/
  (out = ([release_event (last_p_button i)], set_last_p_button 0 i) /\
   last_p_button i <> 0) \/
  out = ([], i).
Proof.
  cbv zeta. unfold process_p_button, deliver, nav_code.
  rewrite (bool_decide_eq_true_2 (is_Some (Some cb))) by eauto.
  repeat case_bool_decide; cbn [andb orb negb]; auto.
Qed.

Lemma filter_eq_NoDup (b : Z) (l : list Z) :
  NoDup l -> filter (fun x => x = b) l = if bool_decide (b ∈ l) then [b] else [].
Proof.
  induction 1 as [|x l Hx Hl IH]; [reflexivity |].
  rewrite filter_cons, IH. destruct (decide (x = b)) as [-> | Hne].
  - rewrite (bool_decide_eq_false_2 (b ∈ l)) by exact Hx.
    rewrite bool_decide_eq_true_2 by left. reflexivity.
  - destruct (decide (b ∈ l)) as [Hin | Hnin].
    + rewrite !bool_decide_eq_true_2; [reflexivity | by right | exact Hin].
    + rewrite !bool_decide_eq_false_2; [reflexivity | | exact Hnin].
      intros Hin. apply elem_of_cons in Hin. destruct Hin; congruence.
Qed.

Lemma button_events_fmap (f : Z -> ButtonEvent) b (l : list Z) :
  (forall x, button_code (f x) = x) ->
  button_events b (f <$> l) = f <$> filter (fun x => x = b) l.
Proof.
  intros Hf. unfold button_events. induction l as [|x l IH]; [reflexivity |].
  cbn [fmap list_fmap]. rewrite !filter_cons, Hf.
  fold (fmap f l). rewrite IH. destruct (decide (x = b)); reflexivity.
Qed.

Lemma button_events_app b l1 l2 :
  button_events b (l1 ++ l2) = button_events b l1 ++ button_events b l2.
Proof. apply filter_app. Qed.

Lemma alternates_app b h1 l1 h2 l2 h3 :
  alternates b h1 l1 h2 -> alternates b h2 l2 h3 -> alternates b h1 (l1 ++ l2) h3.
Proof.
  induction 1; intros H2; cbn [app]; [exact H2 | |]; constructor; auto.
Qed.

(** One grid report: at most one event of [b], in step with the sets. *)
Lemma grid_step_alternates b (C P : list Z) :
  NoDup C -> NoDup P ->
  alternates b (bool_decide (b ∈ P))
    (button_events b ((press_event <$> list_difference C P)
                      ++ (release_event <$> list_difference P C)))
    (bool_decide (b ∈ C)).
Proof.
  intros HC HP. rewrite button_events_app, !button_events_fmap by reflexivity.
  rewrite !filter_eq_NoDup by (by apply NoDup_list_difference).
  destruct (decide (b ∈ C)) as [HbC | HbC], (decide (b ∈ P)) as [HbP | HbP].
  - rewrite !(bool_decide_eq_false_2 (b ∈ list_difference _ _))
      by (rewrite list_elem_of_difference; tauto).
    rewrite !bool_decide_eq_true_2 by assumption. constructor.
  - rewrite (bool_decide_eq_true_2 (b ∈ list_difference C P))
      by (rewrite list_elem_of_difference; tauto).
    rewrite (bool_decide_eq_false_2 (b ∈ list_difference P C))
      by (rewrite list_elem_of_difference; tauto).
    rewrite (bool_decide_eq_false_2 (b ∈ P)), (bool_decide_eq_true_2 (b ∈ C))
      by assumption.
    cbn. repeat constructor.
  - rewrite (bool_decide_eq_false_2 (b ∈ list_difference C P))
      by (rewrite list_elem_of_difference; tauto).
    rewrite (bool_decide_eq_true_2 (b ∈ list_difference P C))
      by (rewrite list_elem_of_difference; tauto).
    rewrite (bool_decide_eq_true_2 (b ∈ P)), (bool_decide_eq_false_2 (b ∈ C))
      by assumption.
    cbn. repeat constructor.
  - rewrite !(bool_decide_eq_false_2 (b ∈ list_difference _ _))
      by (rewrite list_elem_of_difference; tauto).
    rewrite !bool_decide_eq_false_2 by assumption. constructor.
Qed.

(** What one report does, whatever its shape, on a device with a
    callback whose decoder fields are well formed. *)
Lemma process_report_step bytes_read report dev cb b :
  event_callback_ dev = Some cb -> decoder_inv (impl_ dev) ->
  ~ nav_code b ->
  let out := process_report bytes_read report dev in
  event_callback_ out.2 = Some cb /\ decoder_inv (impl_ out.2) /\
  Forall event_ok out.1 /\
  monitoring (impl_ out.2) = monitoring (impl_ dev) /\
  alternates b (bool_decide (b ∈ pressed_buttons (impl_ dev)))
    (button_events b out.1)
    (bool_decide (b ∈ pressed_buttons (impl_ out.2))).
Proof.
  intros Hcb (Hok & Hrange & Hlast) Hb. cbv zeta.
  destruct (report_shape bytes_read report) as [Hp | [Hg | [Hp Hg]]].
  - rewrite (process_report_navigation _ _ _ Hp). cbv zeta. rewrite Hcb.
    cbn [fst snd event_callback_ impl_].
    destruct (process_p_button_cases cb report (impl_ dev))
      as [[-> Hnav] | [[-> Hne] | ->]]; cbn [fst snd].
    + split; [reflexivity |]. split; [by repeat split; [| | right] |].
      split; [| split; [reflexivity |]].
      * apply Forall_cons. split; [| apply Forall_nil_2].
        split; [by left | by right].
      * unfold button_events. rewrite filter_cons, filter_nil.
        cbn [press_event button_code set_last_p_button pressed_buttons].
        rewrite decide_False by (intros <-; by apply Hb). constructor.
    + assert (Hnav : nav_code (last_p_button (impl_ dev))) by tauto.
      split; [reflexivity |]. split; [by repeat split; [| | left] |].
      split; [| split; [reflexivity |]].
      * apply Forall_cons. split; [| apply Forall_nil_2].
        split; [by right | by right].
      * unfold button_events. rewrite filter_cons, filter_nil.
        cbn [release_event button_code set_last_p_button pressed_buttons].
        rewrite decide_False by (intros <-; by apply Hb). constructor.
    + split; [reflexivity |]. split; [done |].
      split; [constructor |]. split; [reflexivity | constructor].
  - rewrite (process_report_grid _ _ _ Hg). cbv zeta.
    rewrite Hcb, process_grid_events. cbn [fst snd event_callback_ impl_].
    destruct (current_pressed_ok bytes_read report) as [HC HCr].
    set (C := current_pressed_of bytes_read report) in *.
    split; [reflexivity |]. split; [by repeat split |].
    split; [| split; [reflexivity |]].
    + apply Forall_app. split; apply Forall_forall; intros e He;
        apply list_elem_of_fmap in He; destruct He as (x & -> & Hx);
        apply list_elem_of_difference in Hx; destruct Hx as [Hx _].
      * rewrite Forall_forall in HCr. split; [by left | left; by apply HCr].
      * rewrite Forall_forall in Hrange. split; [by right | left; by apply Hrange].
    + cbn [set_pressed_buttons pressed_buttons].
      apply grid_step_alternates; by apply set_ok_NoDup.
  - rewrite (process_report_other _ _ _ Hp Hg). cbn [fst snd].
    split; [exact Hcb |]. split; [done |]. split; [constructor |].
    split; [reflexivity | constructor].
Qed.

Lemma decoder_inv_fresh : decoder_inv fresh_impl.
Proof. repeat split; [constructor | constructor | by left]. Qed.

(** What holds of the monitoring thread after any number of passes. *)
Lemma monitor_pass_step inp st cb b held :
  ~ nav_code b ->
  event_callback_ (m_dev st) = Some cb -> decoder_inv (impl_ (m_dev st)) ->
  Forall event_ok (m_delivered st) ->
  alternates b held (button_events b (m_delivered st))
    (bool_decide (b ∈ pressed_buttons (impl_ (m_dev st)))) ->
  let st' := monitor_pass inp st in
  event_callback_ (m_dev st') = Some cb /\ decoder_inv (impl_ (m_dev st')) /\
  Forall event_ok (m_delivered st') /\
  alternates b held (button_events b (m_delivered st'))
    (bool_decide (b ∈ pressed_buttons (impl_ (m_dev st')))).
Proof.
  intros Hb Hcb Hinv Hev Halt. cbv zeta. unfold monitor_pass.
  destruct (m_exited st); [done |].
  set (dev := if flag_cleared inp then _ else m_dev st).
  assert (Hdev : event_callback_ dev = Some cb /\ decoder_inv (impl_ dev) /\
                 pressed_buttons (impl_ dev) = pressed_buttons (impl_ (m_dev st))).
  { unfold dev. destruct (flag_cleared inp); [| done]. done. }
  destruct Hdev as (Hcb' & Hinv' & Hpr). rewrite <- Hpr in Halt.
  destruct (negb (monitoring (impl_ dev))); [done |].
  destruct (polled inp); try done.
  cbn [m_report m_errno m_delivered].
  destruct (read_report (was_read inp) (m_report st)) as [bytes_read report].
  destruct (process_report_step bytes_read report dev cb b Hcb' Hinv' Hb)
    as (H1 & H2 & H3 & _ & H5).
  destruct (process_report bytes_read report dev) as [events dev'].
  cbn [fst snd] in *.
  assert (Hall : Forall event_ok (m_delivered st ++ events))
    by (by apply Forall_app).
  assert (Halt' : alternates b held (button_events b (m_delivered st ++ events))
                    (bool_decide (b ∈ pressed_buttons (impl_ dev')))).
  { rewrite button_events_app. eapply alternates_app; eassumption. }
  match goal with |- context [if ?c then _ else _] => destruct c end; done.
Qed.

Lemma monitor_loop_inv inputs cb b held : forall st,
  ~ nav_code b ->
  event_callback_ (m_dev st) = Some cb -> decoder_inv (impl_ (m_dev st)) ->
  Forall event_ok (m_delivered st) ->
  alternates b held (button_events b (m_delivered st))
    (bool_decide (b ∈ pressed_buttons (impl_ (m_dev st)))) ->
  let st' := monitor_loop inputs st in
  decoder_inv (impl_ (m_dev st')) /\ Forall event_ok (m_delivered st') /\
  alternates b held (button_events b (m_delivered st'))
    (bool_decide (b ∈ pressed_buttons (impl_ (m_dev st')))).
Proof.
  induction inputs as [|inp inputs IH]; intros st Hb Hcb Hinv Hev Halt; [done |].
  cbn [monitor_loop foldl]. fold (monitor_loop inputs (monitor_pass inp st)).
  destruct (monitor_pass_step inp st cb b held Hb Hcb Hinv Hev Halt)
    as (H1 & H2 & H3 & H4).
  by apply IH.
Qed.

Lemma not_nav_code_0 : ~ nav_code 0.
Proof. intros [H | H]; discriminate H. Qed.

(** X8.  Whatever the monitoring thread reads, and in whatever order,
    the decoder's fields stay well formed (the pressed set is a set of
    indices 0-8, the remembered navigation code is none, 0xa1 or 0xa2),
    and every event that reaches the callback is a press or a release,
    with its [pressed] flag to match, of a grid button 0-8 or of
    0xa1/0xa2. *)
Theorem decoder_stays_well_formed
    (inputs : list loop_input) (dev : Device) (cb : nat) :
  event_callback_ dev = Some cb -> decoder_inv (impl_ dev) ->
  let st := monitor_loop inputs (monitor_start dev) in
  decoder_inv (impl_ (m_dev st)) /\ Forall event_ok (m_delivered st).
Proof.
  intros Hcb Hinv.
  destruct (monitor_loop_inv inputs cb 0
              (bool_decide (0 ∈ pressed_buttons (impl_ dev)))
              (monitor_start dev) not_nav_code_0 Hcb Hinv)
    as (H1 & H2 & _); [constructor | constructor | done].
Qed.

(** X9.  The events of any one grid button come strictly as press,
    release, press, ...: starting from whether the button was held when
    the thread started, and ending with the button in the pressed set
    exactly when its last event was a press. *)
Theorem grid_button_events_alternate
    (inputs : list loop_input) (dev : Device) (cb : nat) (b : Z) :
  event_callback_ dev = Some cb -> decoder_inv (impl_ dev) ->
  0 <= b <= 8 ->
  let st := monitor_loop inputs (monitor_start dev) in
  alternates b (bool_decide (b ∈ pressed_buttons (impl_ dev)))
    (button_events b (m_delivered st))
    (bool_decide (b ∈ pressed_buttons (impl_ (m_dev st)))).
Proof.
  intros Hcb Hinv Hb.
  assert (Hnn : ~ nav_code b) by (unfold nav_code; lia).
  destruct (monitor_loop_inv inputs cb b
              (bool_decide (b ∈ pressed_buttons (impl_ dev)))
              (monitor_start dev) Hnn Hcb Hinv)
    as (_ & _ & H3); [constructor | constructor | done].
Qed.

Lemma decoder_inv_ready : decoder_inv (impl_ monitored_device).
Proof. repeat split; [constructor | constructor | by left]. Qed.

Lemma decoder_stays_well_formed_witness :
  let inputs := [mkInput false PollIn (ReadData (grid_report [3; 1]));
                 mkInput false PollTimeout (ReadError 0);
                 mkInput false PollIn (ReadData (p_press_report 0xa2));
                 mkInput false PollIn (ReadData (grid_report []))] in
  (event_callback_ monitored_device = Some 0%nat /\
   decoder_inv (impl_ monitored_device)) /\
  Forall event_ok
    (m_delivered (monitor_loop inputs (monitor_start monitored_device))).
Proof.
  intros inputs.
  split; [split; [reflexivity | exact decoder_inv_ready] |].
  apply (decoder_stays_well_formed inputs monitored_device 0%nat eq_refl
           decoder_inv_ready).
Defined.

Lemma grid_button_events_alternate_witness :
  let inputs := [mkInput false PollIn (ReadData (grid_report [3; 1]));
                 mkInput false PollIn (ReadData (grid_report [3]));
                 mkInput false PollIn (ReadData (grid_report [1; 3]))] in
  (event_callback_ monitored_device = Some 0%nat /\
   decoder_inv (impl_ monitored_device) /\ 0 <= 0 <= 8) /\
  alternates 0 false
    (button_events 0
       (m_delivered (monitor_loop inputs (monitor_start monitored_device))))
    (bool_decide
       (0 ∈ pressed_buttons
              (impl_ (m_dev (monitor_loop inputs
                               (monitor_start monitored_device)))))).
Proof.
  intros inputs.
  split; [split; [reflexivity | split; [exact decoder_inv_ready | lia]] |].
  apply (grid_button_events_alternate inputs monitored_device 0%nat 0
           eq_refl decoder_inv_ready ltac:(lia)).
Defined.

Example three_reports_of_button_0 :
  button_events 0
    (m_delivered
       (monitor_loop
          [mkInput false PollIn (ReadData (grid_report [3; 1]));
           mkInput false PollIn (ReadData (grid_report [3]));
           mkInput false PollIn (ReadData (grid_report [1; 3]))]
          (monitor_start monitored_device)))
  = [press_event 0; release_event 0; press_event 0].
Proof. vm_compute. reflexivity. Qed.

Lemma short_report_ignored bytes_read report dev :
  bytes_read < 6 -> process_report bytes_read report dev = ([], dev).
Proof.
  intros Hlt. apply process_report_other.
  - unfold is_p_button_report.
    by rewrite (bool_decide_eq_false_2 (bytes_read >= 6)) by lia.
  - unfold is_grid_report.
    rewrite (bool_decide_eq_false_2 (bytes_read >= 7)) by lia.
    by rewrite andb_false_r.
Qed.

(** X10.  A report is ignored, with no event and no change of state,
    when fewer than 6 bytes were read (a failed read included), or when
    it is not navigation-shaped and either has fewer than 7 bytes or does
    not open with 0x13. *)
Theorem unrecognized_reports_ignored
    (bytes_read : Z) (report : list Z) (dev : Device) :
  bytes_read < 6 \/
  (byte_at report 0 <> 0x11 /\ (bytes_read < 7 \/ byte_at report 0 <> 0x13)) ->
  process_report bytes_read report dev = ([], dev).
Proof.
  intros [Hshort | [H11 Hgrid]]; [by apply short_report_ignored |].
  apply process_report_other.
  - unfold is_p_button_report.
    rewrite (bool_decide_eq_false_2 (byte_at report 0 = 17)) by exact H11.
    by rewrite andb_false_r.
  - unfold is_grid_report, has_grid_signature. destruct Hgrid as [H7 | H13].
    + rewrite (bool_decide_eq_false_2 (bytes_read >= 7)) by lia.
      by rewrite andb_false_r.
    + rewrite (bool_decide_eq_false_2 (byte_at report 0 = 19)) by exact H13.
      cbn [andb]. by rewrite andb_false_r.
Qed.

Lemma unrecognized_reports_ignored_witness :
  (8 < 6 \/ (byte_at [0x12; 1; 2; 3; 4; 5; 6; 7] 0 <> 0x11 /\
             (8 < 7 \/ byte_at [0x12; 1; 2; 3; 4; 5; 6; 7] 0 <> 0x13))) /\
  process_report 8 [0x12; 1; 2; 3; 4; 5; 6; 7] monitored_device
  = ([], monitored_device).
Proof.
  assert (H : 8 < 6 \/ (byte_at [0x12; 1; 2; 3; 4; 5; 6; 7] 0 <> 0x11 /\
             (8 < 7 \/ byte_at [0x12; 1; 2; 3; 4; 5; 6; 7] 0 <> 0x13))).
  { right. split; [discriminate | right; discriminate]. }
  split; [exact H |].
  apply (unrecognized_reports_ignored 8 [0x12; 1; 2; 3; 4; 5; 6; 7]
           monitored_device H).
Defined.

Lemma flat_map_nil_fun {A B} (f : A -> list B) (l : list A) :
  (forall a, f a = []) -> flat_map f l = [].
Proof. intros Hf. induction l as [|a l IH]; [done |]. cbn. by rewrite Hf, IH. Qed.

(** X11.  Without a callback the decoder delivers nothing, yet it keeps
    its state exactly as it would with one: the pressed set and the
    remembered navigation button follow the reports either way. *)
Theorem decoder_state_ignores_callback
    (bytes_read : Z) (report : list Z) (i : Impl) (callback : option nat) :
  (process_report bytes_read report (mkDevice i None)).1 = [] /\
  impl_ (process_report bytes_read report (mkDevice i None)).2
  = impl_ (process_report bytes_read report (mkDevice i callback)).2.
Proof.
  destruct (report_shape bytes_read report) as [Hp | [Hg | [Hp Hg]]].
  - rewrite !(process_report_navigation _ _ _ Hp). cbv zeta.
    cbn [fst snd impl_ event_callback_]. unfold process_p_button, deliver.
    rewrite (bool_decide_eq_false_2 (is_Some None)) by (by intros [? ?]).
    repeat match goal with |- context [if ?c then _ else _] => destruct c end;
      done.
  - rewrite !(process_report_grid _ _ _ Hg). cbv zeta.
    cbn [fst snd impl_ event_callback_]. unfold process_grid, deliver.
    rewrite (bool_decide_eq_false_2 (is_Some None)) by (by intros [? ?]).
    cbv zeta. cbn [fst snd]. split; [| reflexivity].
    rewrite !flat_map_nil_fun; [reflexivity | done |].
    intros a. by destruct (set_mem a (pressed_buttons i)).
  - by rewrite !(process_report_other _ _ _ Hp Hg).
Qed.

(** ** The monitoring loop as a whole *)

Lemma process_report_keeps_flag bytes_read report dev :
  monitoring (impl_ (process_report bytes_read report dev).2)
  = monitoring (impl_ dev) /\
  event_callback_ (process_report bytes_read report dev).2
  = event_callback_ dev.
Proof.
  destruct (report_shape bytes_read report) as [Hp | [Hg | [Hp Hg]]].
  - rewrite (process_report_navigation _ _ _ Hp). cbv zeta.
    cbn [fst snd impl_ event_callback_]. unfold process_p_button.
    repeat match goal with |- context [if ?c then _ else _] => destruct c end;
      done.
  - rewrite (process_report_grid _ _ _ Hg). cbv zeta.
    cbn [fst snd impl_ event_callback_]. unfold process_grid. done.
  - by rewrite (process_report_other _ _ _ Hp Hg).
Qed.

Lemma reports_read_cons inp rest :
  reports_read (inp :: rest)
  = match polled inp, was_read inp with
    | PollIn, ReadData data => data :: reports_read rest
    | _, _ => reports_read rest
    end.
Proof.
  unfold reports_read. cbn.
  by destruct (polled inp), (was_read inp).
Qed.

Lemma monitor_loop_exited inputs st :
  m_exited st = true -> monitor_loop inputs st = st.
Proof.
  intros Hex. induction inputs as [|inp rest IH]; [done |].
  unfold monitor_loop in *. cbn [foldl].
  replace (monitor_pass inp st) with st; [exact IH |].
  unfold monitor_pass. by rewrite Hex.
Qed.

Lemma monitor_pass_ending inp st :
  m_exited st = false -> monitoring (impl_ (m_dev st)) = true ->
  ends_loop inp = true ->
  m_exited (monitor_pass inp st) = true /\
  m_delivered (monitor_pass inp st) = m_delivered st /\
  m_dev (monitor_pass inp st) = monitor_thread_exit (m_dev st).
Proof.
  intros Hex Hmon He. destruct st as [dev report errno delivered exited].
  cbn [m_exited m_dev] in Hex, Hmon. subst exited.
  destruct inp as [fc p r]. unfold ends_loop in He.
  cbn [flag_cleared polled was_read] in He.
  unfold monitor_pass.
  cbn [m_exited m_dev m_report m_errno m_delivered flag_cleared polled was_read].
  destruct fc.
  - cbn [impl_ event_callback_ set_monitoring monitoring negb].
    by destruct dev as [i cb].
  - rewrite Hmon. cbn [negb]. cbn [orb] in He. destruct p; try done.
    destruct r as [data | e]; [done |].
    cbn [read_report read_errno].
    rewrite short_report_ignored by lia.
    rewrite (bool_decide_eq_true_2 (-1 < 0)) by lia. cbn [andb].
    rewrite He. cbn [leave_loop m_exited m_dev m_delivered].
    by rewrite app_nil_r.
Qed.

Lemma monitor_loop_decodes inputs : forall st,
  m_exited st = false -> monitoring (impl_ (m_dev st)) = true ->
  let st' := monitor_loop inputs st in
  let out := decode_reports (reports_read (before_end inputs))
                            (m_report st) (m_dev st) in
  m_delivered st' = m_delivered st ++ out.1 /\
  m_exited st' = existsb ends_loop inputs /\
  m_dev st' = (if existsb ends_loop inputs
               then monitor_thread_exit out.2 else out.2).
Proof.
  induction inputs as [|inp rest IH]; intros st Hex Hmon; cbv zeta.
  { cbn. by rewrite app_nil_r. }
  unfold monitor_loop. cbn [foldl before_end existsb].
  fold (monitor_loop rest (monitor_pass inp st)).
  destruct (ends_loop inp) eqn:He.
  - destruct (monitor_pass_ending inp st Hex Hmon He) as (H1 & H2 & H3).
    rewrite (monitor_loop_exited _ _ H1), H1, H2, H3.
    cbn. by rewrite app_nil_r.
  - cbn [orb].
    destruct st as [dev report errno delivered exited].
    cbn [m_exited m_dev m_report m_delivered] in *. subst exited.
    destruct inp as [fc p r]. unfold ends_loop in He.
    cbn [flag_cleared polled was_read] in He.
    apply orb_false_elim in He as [-> He].
    unfold monitor_pass at 1 2 3.
    cbn [m_exited m_dev m_report m_errno m_delivered flag_cleared polled
         was_read].
    rewrite Hmon. cbn [negb].
    destruct p; [done | | |].
    + exact (IH (mkMonitor dev report errno delivered false) eq_refl Hmon).
    + exact (IH (mkMonitor dev report errno delivered false) eq_refl Hmon).
    + destruct r as [data | e].
      * rewrite reports_read_cons. cbn [polled was_read decode_reports].
        destruct (read_report (ReadData data) report) as [bytes_read report']
          eqn:Hread.
        assert (Hbr : ~ bytes_read < 0).
        { cbn [read_report] in Hread. injection Hread as <- _. lia. }
        destruct (process_report_keeps_flag bytes_read report' dev)
          as [Hflag _].
        destruct (process_report bytes_read report' dev) as [events dev'].
        cbn [snd] in Hflag.
        rewrite (bool_decide_eq_false_2 _ Hbr). cbn [andb].
        specialize (IH (mkMonitor dev' report'
                          (read_errno (ReadData data) errno)
                          (delivered ++ events) false) eq_refl).
        cbn [m_exited m_dev m_report m_delivered] in IH.
        rewrite Hflag in IH. specialize (IH Hmon). cbv zeta in IH.
        destruct (decode_reports (reports_read (before_end rest)) report' dev')
          as [events' dev''].
        cbn [fst snd] in *. rewrite <- app_assoc in IH. exact IH.
      * cbn [read_report read_errno].
        rewrite short_report_ignored by lia.
        rewrite (bool_decide_eq_true_2 (-1 < 0)) by lia. cbn [andb].
        rewrite He, app_nil_r.
        exact (IH (mkMonitor dev report e delivered false) eq_refl Hmon).
Qed.

(** X12.  The monitoring thread, started on a device whose flag is set,
    decodes exactly the reports read before the first pass on which the
    flag was found cleared, [poll] failed or [read] failed with
    anything but EAGAIN; time-outs, polls without input and EAGAIN do not
    stop it.  It hands the callback the events of those reports and
    nothing later, and it has left the loop, with the flag cleared, exactly
    when such a pass occurred. *)
Theorem monitor_loop_runs_until_first_end
    (inputs : list loop_input) (dev : Device) :
  monitoring (impl_ dev) = true ->
  let st := monitor_loop inputs (monitor_start dev) in
  let out := decode_reports (reports_read (before_end inputs))
                            (replicate REPORT_SIZE 0) dev in
  m_delivered st = out.1 /\
  m_exited st = existsb ends_loop inputs /\
  m_dev st = (if existsb ends_loop inputs
              then monitor_thread_exit out.2 else out.2) /\
  (m_exited st = true -> monitoring (impl_ (m_dev st)) = false).
Proof.
  intros Hmon. cbv zeta.
  destruct (monitor_loop_decodes inputs (monitor_start dev) eq_refl Hmon)
    as (H1 & H2 & H3).
  cbn [monitor_start m_delivered m_report m_dev app] in H1, H2, H3.
  repeat split; [exact H1 | exact H2 | exact H3 |].
  rewrite H3, H2. intros ->. reflexivity.
Qed.

Lemma monitor_loop_runs_until_first_end_witness :
  let inputs := [mkInput false PollIn (ReadData (grid_report [2]));
                 mkInput false PollTimeout (ReadError 0);
                 mkInput false PollIn (ReadError EAGAIN);
                 mkInput false PollIn (ReadData (p_press_report 0xa1));
                 mkInput false PollIn (ReadError 5);
                 mkInput false PollIn (ReadData (grid_report [2; 4]))] in
  monitoring (impl_ monitored_device) = true /\
  m_delivered (monitor_loop inputs (monitor_start monitored_device))
  = [press_event 1; press_event 0xa1].
Proof.
  intros inputs. split; [reflexivity |].
  rewrite (proj1 (monitor_loop_runs_until_first_end inputs monitored_device
                    eq_refl)).
  vm_compute. reflexivity.
Defined.

Lemma process_report_keeps_thread bytes_read report dev :
  monitor_thread (impl_ (process_report bytes_read report dev).2)
  = monitor_thread (impl_ dev).
Proof.
  destruct (report_shape bytes_read report) as [Hp | [Hg | [Hp Hg]]].
  - rewrite (process_report_navigation _ _ _ Hp). cbv zeta.
    cbn [fst snd impl_ event_callback_]. unfold process_p_button.
    repeat match goal with |- context [if ?c then _ else _] => destruct c end;
      done.
  - rewrite (process_report_grid _ _ _ Hg). cbv zeta.
    cbn [fst snd impl_ event_callback_]. unfold process_grid. done.
  - by rewrite (process_report_other _ _ _ Hp Hg).
Qed.

Lemma decode_reports_keeps_thread reads : forall report dev,
  monitor_thread (impl_ (decode_reports reads report dev).2)
  = monitor_thread (impl_ dev) /\
  event_callback_ (decode_reports reads report dev).2 = event_callback_ dev.
Proof.
  induction reads as [|data rest IH]; intros report dev; [done |].
  cbn [decode_reports].
  destruct (read_report (ReadData data) report) as [bytes_read report'].
  pose proof (process_report_keeps_thread bytes_read report' dev) as Ht.
  destruct (process_report_keeps_flag bytes_read report' dev) as [_ Hc].
  destruct (process_report bytes_read report' dev) as [events dev'].
  specialize (IH report' dev').
  destruct (decode_reports rest report' dev') as [events' dev''].
  cbn [snd] in *. destruct IH as [IH1 IH2]. split; congruence.
Qed.

Lemma monitor_run_terminated ops s :
  terminated s.2 = true -> monitor_run ops s = s.
Proof.
  intros Ht. induction ops as [|op ops IH]; [done |].
  unfold monitor_run in *. cbn [foldl].
  replace (monitor_step op s) with s; [exact IH |].
  unfold monitor_step. by rewrite Ht.
Qed.

(** X13.  A monitoring thread that ends by itself, because [open]
    failed or because it left its loop on an error, clears the flag but
    keeps its handle: a later [stopMonitoring] finds the flag down and
    returns without joining it.  The next [startMonitoring] then creates
    a second thread and assigns it over the handle that is still
    joinable, which calls [std::terminate]: no call runs after it. *)
Theorem self_ended_monitor_is_not_joined
    (dev : Device) (w : World) (cb : nat) (opened : bool)
    (inputs : list loop_input) :
  event_callback_ dev = Some cb -> monitoring (impl_ dev) = false ->
  monitor_thread (impl_ dev) = None ->
  opened = false \/ existsb ends_loop inputs = true ->
  let started := startMonitoring dev w in
  let after := monitor_thread_body opened inputs started.1 in
  let restarted := startMonitoring after started.2 in
  monitoring (impl_ after) = false /\
  monitor_thread (impl_ after) = Some (next_tid w) /\
  stopMonitoring after started.2 = (after, started.2) /\
  thread_log restarted.2
  = thread_log w ++ [EvSpawnMonitor (next_tid w);
                     EvSpawnMonitor (S (next_tid w)); EvTerminate] /\
  terminated restarted.2 = true /\
  (forall ops, monitor_run ops restarted = restarted).
Proof.
  intros Hcb Hmon Hnone Hend. cbv zeta.
  assert (Hs : startMonitoring dev w
               = (mkDevice (set_monitor_thread (Some (next_tid w))
                              (set_monitoring true (impl_ dev))) (Some cb),
                  log_thread (EvSpawnMonitor (next_tid w)) (bump_tid w))).
  { unfold startMonitoring. rewrite Hmon, Hcb.
    rewrite (bool_decide_eq_true_2 (is_Some (Some cb))) by eauto.
    cbn [orb negb set_monitoring monitor_thread]. by rewrite Hnone. }
  rewrite Hs. cbn [fst snd].
  set (dev1 := mkDevice _ _).
  assert (Hafter : monitoring (impl_ (monitor_thread_body opened inputs dev1))
                   = false /\
                   monitor_thread (impl_ (monitor_thread_body opened inputs dev1))
                   = Some (next_tid w) /\
                   event_callback_ (monitor_thread_body opened inputs dev1)
                   = Some cb).
  { unfold monitor_thread_body. destruct opened.
    - destruct Hend as [Hend | Hend]; [done |].
      destruct (monitor_loop_decodes inputs (monitor_start dev1) eq_refl eq_refl)
        as (_ & _ & H3).
      rewrite H3, Hend.
      cbn [monitor_start m_report m_dev].
      destruct (decode_reports_keeps_thread (reports_read (before_end inputs))
                  (replicate REPORT_SIZE 0) dev1) as [Ht Hc].
      cbn [monitor_thread_exit impl_ event_callback_ set_monitoring monitoring
           monitor_thread].
      by rewrite Ht, Hc.
    - done. }
  destruct Hafter as (Hm & Ht & Hc).
  split; [exact Hm |]. split; [exact Ht |].
  split; [unfold stopMonitoring; by rewrite Hm |].
  assert (Hr : startMonitoring (monitor_thread_body opened inputs dev1)
                 (log_thread (EvSpawnMonitor (next_tid w)) (bump_tid w))
               = (mkDevice (set_monitoring true
                              (impl_ (monitor_thread_body opened inputs dev1)))
                           (Some cb),
                  log_thread EvTerminate
                    (log_thread (EvSpawnMonitor (S (next_tid w)))
                       (bump_tid (log_thread (EvSpawnMonitor (next_tid w))
                                    (bump_tid w)))))).
  { unfold startMonitoring. rewrite Hm, Hc.
    rewrite (bool_decide_eq_true_2 (is_Some (Some cb))) by eauto.
    cbn [orb negb set_monitoring monitor_thread]. by rewrite Ht. }
  rewrite Hr. cbn [snd].
  assert (Hlog : thread_log
                   (log_thread EvTerminate
                      (log_thread (EvSpawnMonitor (S (next_tid w)))
                         (bump_tid (log_thread (EvSpawnMonitor (next_tid w))
                                      (bump_tid w)))))
                 = thread_log w ++ [EvSpawnMonitor (next_tid w);
                                    EvSpawnMonitor (S (next_tid w)); EvTerminate]).
  { cbn [log_thread bump_tid thread_log next_tid]. by rewrite <- !app_assoc. }
  assert (Hterm : terminated
                    (log_thread EvTerminate
                       (log_thread (EvSpawnMonitor (S (next_tid w)))
                          (bump_tid (log_thread (EvSpawnMonitor (next_tid w))
                                       (bump_tid w))))) = true).
  { unfold terminated. rewrite Hlog. apply bool_decide_eq_true_2.
    rewrite elem_of_app, !elem_of_cons. right. right. right. by left. }
  split; [exact Hlog |]. split; [exact Hterm |].
  intros ops. by apply monitor_run_terminated.
Qed.

Lemma self_ended_monitor_is_not_joined_witness :
  let inputs := [mkInput false PollIn (ReadData (grid_report [2]));
                 mkInput false PollError (ReadError 0)] in
  let started := startMonitoring (listening ready_impl) fresh_world in
  let after := monitor_thread_body true inputs started.1 in
  (event_callback_ (listening ready_impl) = Some 0%nat /\
   monitoring (impl_ (listening ready_impl)) = false /\
   monitor_thread (impl_ (listening ready_impl)) = None /\
   (true = false \/ existsb ends_loop inputs = true)) /\
  stopMonitoring after started.2 = (after, started.2) /\
  thread_log (startMonitoring after started.2).2
  = [EvSpawnMonitor 0; EvSpawnMonitor 1; EvTerminate].
Proof.
  intros inputs started after.
  split; [split; [reflexivity | split; [reflexivity | split; [reflexivity | by right]]] |].
  destruct (self_ended_monitor_is_not_joined (listening ready_impl) fresh_world
              0%nat true inputs eq_refl eq_refl eq_refl (or_intror eq_refl))
    as (_ & _ & Hstop & Hlog & _).
  split; [exact Hstop | exact Hlog].
Defined.

(** ** Animation bookkeeping beyond the one-task rule *)

Lemma stop_task_log a w :
  next_tid (stop_task a w) = next_tid w /\
  thread_log (stop_task a w) = thread_log w ++ stop_events (Some a).
Proof.
  unfold stop_task, stop_events. cbn [mbind option_bind].
  destruct (animation_thread a) as [tid|].
  - cbn [log_thread next_tid thread_log]. by rewrite <- app_assoc.
  - by rewrite app_nil_r.
Qed.

Lemma foldl_stop_tasks_log (l : list (Z * KeyAnimation)) : forall w,
  let w' := foldl (fun w pair => stop_task pair.2 w) w l in
  thread_log w' = thread_log w
                  ++ flat_map (fun pair : Z * KeyAnimation =>
                                 stop_events (Some pair.2)) l /\
  next_tid w' = next_tid w.
Proof.
  induction l as [|x l IH]; intros w; cbn [foldl flat_map].
  - by rewrite app_nil_r.
  - destruct (IH (stop_task x.2 w)) as (H1 & H4).
    destruct (stop_task_log x.2 w) as (G4 & G1).
    rewrite H1, H4, G1, G4. by rewrite <- app_assoc.
Qed.

Lemma stopScreenAnimation_log d w :
  let out := stopScreenAnimation d w in
  thread_log out.2 = thread_log w ++ stop_events (screen_animation d) /\
  animations out.1 = animations d /\ screen_animation out.1 = None.
Proof.
  unfold stopScreenAnimation. destruct (screen_animation d) as [a|] eqn:Hs.
  - cbn [fst snd]. destruct (stop_task_log a w) as (_ & H4).
    by rewrite H4.
  - cbn [fst snd stop_events mbind option_bind]. by rewrite app_nil_r.
Qed.

Lemma stopAllAnimations_again d w :
  animations d = ∅ -> screen_animation d = None ->
  stopAllAnimations d w = (d, w).
Proof.
  destruct d as [i m mt pb lp anims scr].
  cbn [animations screen_animation]. intros -> ->.
  unfold stopAllAnimations, stopScreenAnimation, set_animations.
  cbn [screen_animation animations initialized monitoring monitor_thread
       pressed_buttons last_p_button].
  rewrite map_to_list_empty. reflexivity.
Qed.

Lemma stopAllAnimations_summary d w :
  anim_inv d w ->
  animations (stopAllAnimations d w).1 = ∅ /\
  screen_animation (stopAllAnimations d w).1 = None /\
  thread_log (stopAllAnimations d w).2
  = thread_log w ++ stop_events (screen_animation d) ++ key_stop_events d /\
  live_workers (thread_log (stopAllAnimations d w).2) = [] /\
  monitoring (stopAllAnimations d w).1 = monitoring d /\
  monitor_thread (stopAllAnimations d w).1 = monitor_thread d.
Proof.
  intros Hinv. unfold stopAllAnimations.
  destruct (stopScreenAnimation_spec d w Hinv) as (H1 & H2 & _ & _ & _ & _).
  destruct (stopScreenAnimation_log d w) as (Hlog & Hanim & Hscr).
  assert (Hrest : monitoring (stopScreenAnimation d w).1 = monitoring d /\
                  monitor_thread (stopScreenAnimation d w).1 = monitor_thread d).
  { unfold stopScreenAnimation. by destruct (screen_animation d). }
  destruct (stopScreenAnimation d w) as [d1 w1]. cbn [fst snd] in *.
  destruct H1 as [Hh Hl].
  destruct (foldl_stop_tasks (merge_sort by_key (map_to_list (animations d1)))
              w1 Hh) as [_ Hnil].
  { intros tid t Hin. destruct (Hl _ _ Hin) as [Ht _].
    unfold task_thread in Ht. destruct t as [k|]; cbn [task_of] in Ht.
    - destruct (animations d1 !! k) as [a|] eqn:Hk; [| discriminate Ht].
      exists (k, a). split; [| exact Ht].
      rewrite merge_sort_Permutation. by apply elem_of_map_to_list.
    - rewrite Hscr in Ht. discriminate Ht. }
  destruct (foldl_stop_tasks_log
              (merge_sort by_key (map_to_list (animations d1))) w1)
    as (Hlog' & _).
  cbv zeta in Hnil, Hlog'.
  split; [reflexivity |]. split; [exact Hscr |].
  split; [| split; [exact Hnil | exact Hrest]].
  rewrite Hlog', Hlog, <- app_assoc. unfold key_stop_events.
  by rewrite Hanim.
Qed.

(** X14.  [stopAllAnimations] leaves no animation behind: the screen task
    is stopped and joined first, then the key tasks in ascending key
    order, after which the map is empty, no worker thread is alive, and
    a second call changes nothing. *)
Theorem stopAllAnimations_joins_every_worker (d : Impl) (w : World) :
  anim_inv d w ->
  let out := stopAllAnimations d w in
  animations out.1 = ∅ /\ screen_animation out.1 = None /\
  thread_log out.2
  = thread_log w ++ stop_events (screen_animation d) ++ key_stop_events d /\
  live_workers (thread_log out.2) = [] /\
  stopAllAnimations out.1 out.2 = out.
Proof.
  intros Hinv. cbv zeta.
  destruct (stopAllAnimations_summary d w Hinv) as (A & B & C & D & _).
  destruct (stopAllAnimations d w) as [d' w']. cbn [fst snd] in *.
  repeat split; try assumption. by apply stopAllAnimations_again.
Qed.

Lemma stopAllAnimations_joins_every_worker_witness :
  let s := anim_run one_frame_decoder one_frame_decoder
             [OpSetKeyGif 7 [1] true; OpSetScreenGif [2] true;
              OpSetKeyGif 2 [3] false]
             (ready_impl, fresh_world) in
  anim_inv s.1 s.2 /\
  thread_log (stopAllAnimations s.1 s.2).2
  = thread_log s.2 ++ [EvRunFlagFalse 1; EvJoin 1; EvRunFlagFalse 2; EvJoin 2;
                       EvRunFlagFalse 0; EvJoin 0].
Proof.
  intros s.
  assert (Hinv : anim_inv s.1 s.2).
  { apply anim_run_inv. by apply anim_inv_fresh. }
  split; [exact Hinv |].
  destruct (stopAllAnimations_joins_every_worker s.1 s.2 Hinv)
    as (_ & _ & Hlog & _).
  rewrite Hlog. f_equal.
Defined.

Lemma same_rest_refl d : same_rest d d.
Proof. by repeat split. Qed.

Lemma same_rest_trans d1 d2 d3 :
  same_rest d1 d2 -> same_rest d2 d3 -> same_rest d1 d3.
Proof.
  unfold same_rest. intros (?&?&?&?&?) (?&?&?&?&?).
  repeat split; congruence.
Qed.

Lemma stop_target_local t d w :
  let out := match t with
             | Key k => stopKeyAnimation k d w
             | Screen => stopScreenAnimation d w
             end in
  same_rest d out.1 /\
  forall t', t' <> t -> task_of t' out.1 = task_of t' d.
Proof.
  destruct t as [k|]; cbv zeta.
  - unfold stopKeyAnimation. destruct (animations d !! k) as [a|] eqn:Hk.
    + cbn [fst snd]. split; [by repeat split |].
      intros [k'|] Hne; cbn [task_of set_animations animations screen_animation];
        [| done].
      apply lookup_delete_ne. congruence.
    + split; [apply same_rest_refl | done].
  - unfold stopScreenAnimation. destruct (screen_animation d) as [a|] eqn:Hs.
    + cbn [fst snd]. split; [by repeat split |].
      by intros [k'|] Hne.
    + split; [apply same_rest_refl | done].
Qed.

Lemma start_task_local t loop decode d w :
  let store_task := match t with
                    | Key k => store_key k
                    | Screen => store_screen
                    end in
  let out := start_task t loop decode store_task d w in
  same_rest d out.1.2 /\
  forall t', t' <> t -> task_of t' out.1.2 = task_of t' d.
Proof.
  cbv zeta. unfold start_task. destruct (decode (mkGif [] loop)) as [ok anim].
  destruct ok; cbn [negb]; [| split; [apply same_rest_refl | done]].
  destruct (bool_decide (frames anim = []));
    [split; [apply same_rest_refl | done] |].
  cbn [fst snd]. split.
  - destruct t as [k|]; by repeat split.
  - intros t' Hne. destruct t as [k|], t' as [k'|];
      cbn [task_of store_key store_screen set_animations set_screen_animation
           animations screen_animation]; try done.
    apply lookup_insert_ne. congruence.
Qed.

Lemma restart_local t loop decode d w :
  let store_task := match t with
                    | Key k => store_key k
                    | Screen => store_screen
                    end in
  let stopped := match t with
                 | Key k => stopKeyAnimation k d w
                 | Screen => stopScreenAnimation d w
                 end in
  let out := start_task t loop decode store_task stopped.1 stopped.2 in
  same_rest d out.1.2 /\
  forall t', t' <> t -> task_of t' out.1.2 = task_of t' d.
Proof.
  cbv zeta. destruct (stop_target_local t d w) as [H1 H2]. cbv zeta in H1, H2.
  set (stopped := match t with
                  | Key k => stopKeyAnimation k d w
                  | Screen => stopScreenAnimation d w
                  end) in *.
  destruct (start_task_local t loop decode stopped.1 stopped.2) as [G1 G2].
  cbv zeta in G1, G2. split.
  - eapply same_rest_trans; [exact H1 | exact G1].
  - intros t' Hne. rewrite (G2 t' Hne). by apply H2.
Qed.

(** X15.  The animation calls are local in the device object.  A call
    that addresses one target, a key or the screen, leaves in place the
    task of every other target, with its thread handle and its decoded
    animation; and no call of the interface, [stopAllAnimations]
    included, writes the initialized flag, the monitoring flag, the
    monitoring thread's handle, the pressed set or the remembered
    navigation button. *)
Theorem animation_calls_are_local
    (decodeGif decodeGifFromFile :
       list Z -> GifAnimation -> Z -> Z -> bool * GifAnimation)
    (op : anim_op) (d : Impl) (w : World) :
  let out := anim_step decodeGif decodeGifFromFile op (d, w) in
  same_rest d out.1 /\
  forall t t', op_target op = Some t -> t' <> t ->
    task_identity t' out.1 = task_identity t' d.
Proof.
  cbv zeta. unfold task_identity.
  assert (H : same_rest d (anim_step decodeGif decodeGifFromFile op (d, w)).1 /\
              forall t t', op_target op = Some t -> t' <> t ->
                task_of t' (anim_step decodeGif decodeGifFromFile op (d, w)).1
                = task_of t' d);
    [| destruct H as [H1 H2]; split; [exact H1 |];
       intros t t' Ht Hne; by rewrite (H2 t t' Ht Hne)].
  destruct op as [k g l | k g l | g l | g l | k | |];
    cbn [anim_step op_target].
  - unfold setKeyGif.
    destruct (bool_decide (k < 0) || bool_decide (k > 8) || negb (initialized d)).
    + split; [apply same_rest_refl | done].
    + pose proof (restart_local (Key k) l
                    (fun a => decodeGif g a LCD_SIZE LCD_SIZE) d w) as H.
      cbv zeta in H. destruct (stopKeyAnimation k d w) as [d1 w1].
      cbn [fst snd] in H.
      destruct (start_task _ _ _ _ d1 w1) as [[r d2] w2]. cbn [fst snd] in *.
      split; [apply H |]. intros t t' [= <-]. apply H.
  - unfold setKeyGifFromFile.
    destruct (bool_decide (k < 0) || bool_decide (k > 8) || negb (initialized d)).
    + split; [apply same_rest_refl | done].
    + pose proof (restart_local (Key k) l
                    (fun a => decodeGifFromFile g a LCD_SIZE LCD_SIZE) d w) as H.
      cbv zeta in H. destruct (stopKeyAnimation k d w) as [d1 w1].
      cbn [fst snd] in H.
      destruct (start_task _ _ _ _ d1 w1) as [[r d2] w2]. cbn [fst snd] in *.
      split; [apply H |]. intros t t' [= <-]. apply H.
  - unfold setScreenGif. destruct (negb (initialized d)).
    + split; [apply same_rest_refl | done].
    + pose proof (restart_local Screen l
                    (fun a => decodeGif g a SCREEN_WIDTH SCREEN_HEIGHT) d w) as H.
      cbv zeta in H. destruct (stopScreenAnimation d w) as [d1 w1].
      cbn [fst snd] in H.
      destruct (start_task _ _ _ _ d1 w1) as [[r d2] w2]. cbn [fst snd] in *.
      split; [apply H |]. intros t t' [= <-]. apply H.
  - unfold setScreenGifFromFile. destruct (negb (initialized d)).
    + split; [apply same_rest_refl | done].
    + pose proof (restart_local Screen l
                    (fun a => decodeGifFromFile g a SCREEN_WIDTH SCREEN_HEIGHT)
                    d w) as H.
      cbv zeta in H. destruct (stopScreenAnimation d w) as [d1 w1].
      cbn [fst snd] in H.
      destruct (start_task _ _ _ _ d1 w1) as [[r d2] w2]. cbn [fst snd] in *.
      split; [apply H |]. intros t t' [= <-]. apply H.
  - destruct (stop_target_local (Key k) d w) as [H1 H2]. cbv zeta in H1, H2.
    split; [exact H1 |]. intros t t' [= <-]. apply H2.
  - destruct (stop_target_local Screen d w) as [H1 H2]. cbv zeta in H1, H2.
    split; [exact H1 |]. intros t t' [= <-]. apply H2.
  - split; [| done]. unfold stopAllAnimations.
    pose proof (stop_target_local Screen d w) as [G _]. cbv zeta in G.
    destruct (stopScreenAnimation d w) as [d1 w1]. cbn [fst snd] in *.
    destruct G as (?&?&?&?&?).
    repeat split; cbn [set_animations initialized monitoring monitor_thread
                       pressed_buttons last_p_button]; congruence.
Qed.

(** ** The worker thread *)

Section Worker.

Variable channel : nat -> writev_result.
Variable t : target.
Variable d : Impl.

Lemma worker_run_none stops :
  foldl (fun o stop_requested => o ≫= worker_pass channel t d stop_requested)
        None stops = None.
Proof. induction stops as [|s stops IH]; [done | exact IH]. Qed.

Lemma worker_run_cons s stops st :
  worker_run channel t d (s :: stops) st
  = worker_pass channel t d s st ≫= worker_run channel t d stops.
Proof.
  unfold worker_run. cbn [foldl mbind option_bind].
  destruct (worker_pass channel t d s st) as [st'|]; [done |].
  apply worker_run_none.
Qed.

Lemma worker_run_app stops1 stops2 st :
  worker_run channel t d (stops1 ++ stops2) st
  = worker_run channel t d stops1 st ≫= worker_run channel t d stops2.
Proof.
  revert st. induction stops1 as [|s stops1 IH]; intros st; [done |].
  cbn [app]. rewrite !worker_run_cons.
  destruct (worker_pass channel t d s st) as [st'|]; [| done].
  cbn [mbind option_bind]. apply IH.
Qed.

Lemma worker_stopped stops anim th cf w shown :
  worker_run channel t d stops (mkWorker (mkAnim anim false th cf) w shown)
  = Some (mkWorker (mkAnim anim false th cf) w shown).
Proof.
  induction stops as [|s stops IH]; [done |].
  rewrite worker_run_cons.
  replace (worker_pass channel t d s (mkWorker (mkAnim anim false th cf) w shown))
    with (Some (mkWorker (mkAnim anim false th cf) w shown));
    [exact IH |].
  unfold worker_pass. cbn [wk_anim running]. by destruct s.
Qed.

Lemma worker_stop_request stops anim r th cf w shown :
  worker_run channel t d (true :: stops) (mkWorker (mkAnim anim r th cf) w shown)
  = Some (mkWorker (mkAnim anim false th cf) w shown).
Proof. rewrite worker_run_cons. cbn. apply worker_stopped. Qed.

Lemma stops_split stops :
  stops = replicate (quiet_passes stops) false ++ drop (quiet_passes stops) stops /\
  (stop_seen stops = false /\ drop (quiet_passes stops) stops = [] \/
   stop_seen stops = true /\
   exists rest, drop (quiet_passes stops) stops = true :: rest).
Proof.
  unfold stop_seen. induction stops as [|s stops [IH1 IH2]].
  - split; [done |]. left. split; [| done].
    apply bool_decide_eq_false_2. apply not_elem_of_nil.
  - destruct s; cbn [quiet_passes replicate drop app].
    + split; [done |]. right. split; [| by eexists].
      apply bool_decide_eq_true_2. apply elem_of_cons. by left.
    + split; [by rewrite <- IH1 |].
      destruct IH2 as [[H1 H2] | [H1 H2]]; [left | right]; (split; [| exact H2]).
      * apply bool_decide_eq_false_2. apply bool_decide_eq_false_1 in H1.
        rewrite elem_of_cons. intros [? | ?]; [done | by apply H1].
      * apply bool_decide_eq_true_2. apply bool_decide_eq_true_1 in H1.
        apply elem_of_cons. by right.
Qed.

Lemma succ_mod (n len : nat) :
  (0 < len)%nat ->
  (S n mod len)%nat
  = if bool_decide (len <= S (n mod len))%nat then 0%nat else S (n mod len).
Proof.
  intros Hlen.
  pose proof (Nat.mod_upper_bound n len ltac:(lia)) as Hub.
  pose proof (Nat.div_mod_eq n len) as Hdm.
  destruct (bool_decide_reflect (len <= S (n mod len))%nat) as [Hle | Hgt].
  - symmetry. apply (Nat.mod_unique (S n) len (S (n / len)) 0); [lia |]. nia.
  - symmetry. apply (Nat.mod_unique (S n) len (n / len) (S (n mod len))); lia.
Qed.

Lemma cycled_S fs n frame :
  fs !! (n mod length fs)%nat = Some frame ->
  cycled fs (S n) = cycled fs n ++ [frame].
Proof.
  intros Hf. unfold cycled. rewrite seq_S, omap_app. cbn [omap list_omap plus].
  by rewrite Hf.
Qed.

Lemma length_cycled fs n : fs <> [] -> length (cycled fs n) = n.
Proof.
  intros Hne. assert (Hlen : (0 < length fs)%nat).
  { destruct fs; [done | cbn; lia]. }
  induction n as [|n IH]; [done |].
  destruct (lookup_lt_is_Some_2 fs (n mod length fs)%nat) as [frame Hf].
  { apply Nat.mod_upper_bound. lia. }
  rewrite (cycled_S _ _ _ Hf), length_app, IH. cbn. lia.
Qed.

Lemma after_frames_snoc shown frame w :
  after_frames channel t d (shown ++ [frame]) w
  = (show_frame channel t (jpeg_data frame) d (after_frames channel t d shown w)).2.
Proof. unfold after_frames. by rewrite foldl_snoc. Qed.

(** [n] passes of a looping worker nobody stops. *)
Lemma looping_passes anim th w n :
  frames anim <> [] -> loop anim = true ->
  worker_run channel t d (replicate n false)
    (mkWorker (mkAnim anim true th 0) w [])
  = Some (mkWorker (mkAnim anim true th (n mod length (frames anim)))
            (after_frames channel t d (cycled (frames anim) n) w)
            (cycled (frames anim) n)).
Proof.
  intros Hne Hloop. assert (Hlen : (0 < length (frames anim))%nat).
  { destruct (frames anim); [done | cbn; lia]. }
  induction n as [|n IH].
  - cbn [replicate]. unfold worker_run. cbn [foldl].
    by rewrite Nat.Div0.mod_0_l.
  - replace (replicate (S n) false) with (replicate n false ++ [false])
      by (by rewrite <- replicate_S_end).
    rewrite worker_run_app, IH. cbn [mbind option_bind].
    rewrite worker_run_cons. unfold worker_pass.
    cbn [wk_anim wk_world wk_shown running animation animation_thread
         current_frame negb].
    destruct (lookup_lt_is_Some_2 (frames anim) (n mod length (frames anim))%nat)
      as [frame Hf].
    { apply Nat.mod_upper_bound. lia. }
    rewrite Hf, Hloop. rewrite (cycled_S _ _ _ Hf), after_frames_snoc.
    rewrite (succ_mod n _ Hlen).
    by destruct (bool_decide (length (frames anim) <= S (n mod length (frames anim)))%nat).
Qed.

(** [n] passes of a worker that plays its frames once. *)
Lemma once_passes anim th w n :
  frames anim <> [] -> loop anim = false ->
  worker_run channel t d (replicate n false)
    (mkWorker (mkAnim anim true th 0) w [])
  = Some (mkWorker
            (mkAnim anim (bool_decide (n < length (frames anim))%nat) th
                    (n `min` length (frames anim)))
            (after_frames channel t d (take n (frames anim)) w)
            (take n (frames anim))).
Proof.
  intros Hne Hloop. assert (Hlen : (0 < length (frames anim))%nat).
  { destruct (frames anim); [done | cbn; lia]. }
  induction n as [|n IH].
  - cbn [replicate]. unfold worker_run. cbn [foldl take].
    rewrite (bool_decide_eq_true_2 _ Hlen). by rewrite Nat.min_0_l.
  - replace (replicate (S n) false) with (replicate n false ++ [false])
      by (by rewrite <- replicate_S_end).
    rewrite worker_run_app, IH. cbn [mbind option_bind].
    destruct (bool_decide_reflect (n < length (frames anim))%nat) as [Hlt | Hge].
    + rewrite worker_run_cons. unfold worker_pass.
      cbn [wk_anim wk_world wk_shown running animation animation_thread
           current_frame negb].
      rewrite Nat.min_l by lia.
      destruct (lookup_lt_is_Some_2 (frames anim) n Hlt) as [frame Hf].
      rewrite Hf, Hloop. rewrite (take_S_r _ _ _ Hf), after_frames_snoc.
      destruct (bool_decide_reflect (length (frames anim) <= S n)%nat)
        as [Hle | Hgt]; cbn [mbind option_bind].
      * rewrite (bool_decide_eq_false_2 (S n < length (frames anim))%nat) by lia.
        by rewrite Nat.min_l by lia.
      * rewrite (bool_decide_eq_true_2 (S n < length (frames anim))%nat) by lia.
        by rewrite Nat.min_l by lia.
    + rewrite worker_stopped.
      rewrite (bool_decide_eq_false_2 (S n < length (frames anim))%nat) by lia.
      rewrite !Nat.min_r by lia. by rewrite !take_ge by lia.
Qed.

(** X16.  A looping animation worker plays the frames round and round:
    the [i]-th frame it displays is frame [i mod n] of the [n] decoded
    ones, it never reads past the last frame, and it goes on until it is
    told to stop; nothing is displayed after the stop request. *)
Theorem looping_worker_cycles_through_frames
    (anim : GifAnimation) (tid : nat) (w : World) (stops : list bool) :
  frames anim <> [] -> loop anim = true ->
  exists st,
    worker_run channel t d stops (mkWorker (new_task anim tid) w []) = Some st /\
    wk_shown st = cycled (frames anim) (quiet_passes stops) /\
    length (wk_shown st) = quiet_passes stops /\
    wk_world st = after_frames channel t d (wk_shown st) w /\
    running (wk_anim st) = negb (stop_seen stops) /\
    current_frame (wk_anim st)
    = (quiet_passes stops mod length (frames anim))%nat.
Proof.
  intros Hne Hloop. destruct (stops_split stops) as [Hsplit Hrest].
  set (m := quiet_passes stops) in *.
  unfold new_task.
  replace (worker_run channel t d stops)
    with (worker_run channel t d (replicate m false ++ drop m stops))
    by (by rewrite <- Hsplit).
  rewrite worker_run_app, (looping_passes _ _ _ _ Hne Hloop).
  cbn [mbind option_bind].
  destruct Hrest as [[-> ->] | [-> [rest ->]]].
  - eexists. split; [reflexivity |].
    cbn [wk_shown wk_world wk_anim running current_frame negb].
    by rewrite length_cycled.
  - rewrite worker_stop_request. eexists. split; [reflexivity |].
    cbn [wk_shown wk_world wk_anim running current_frame negb].
    by rewrite length_cycled.
Qed.

(** X17.  A worker of an animation that does not loop displays the
    frames once, in order, then clears [running] itself and ends with
    [current_frame] equal to the number of frames; stopped earlier, it
    has displayed a prefix of them. *)
Theorem once_worker_plays_frames_in_order
    (anim : GifAnimation) (tid : nat) (w : World) (stops : list bool) :
  frames anim <> [] -> loop anim = false ->
  exists st,
    worker_run channel t d stops (mkWorker (new_task anim tid) w []) = Some st /\
    wk_shown st = take (quiet_passes stops) (frames anim) /\
    wk_world st = after_frames channel t d (wk_shown st) w /\
    running (wk_anim st)
    = negb (stop_seen stops)
      && bool_decide (quiet_passes stops < length (frames anim))%nat /\
    current_frame (wk_anim st)
    = (quiet_passes stops `min` length (frames anim))%nat.
Proof.
  intros Hne Hloop. destruct (stops_split stops) as [Hsplit Hrest].
  set (m := quiet_passes stops) in *.
  unfold new_task.
  replace (worker_run channel t d stops)
    with (worker_run channel t d (replicate m false ++ drop m stops))
    by (by rewrite <- Hsplit).
  rewrite worker_run_app, (once_passes _ _ _ _ Hne Hloop).
  cbn [mbind option_bind].
  destruct Hrest as [[-> ->] | [-> [rest ->]]].
  - eexists. split; [reflexivity |].
    by cbn [wk_shown wk_world wk_anim running current_frame negb andb].
  - rewrite worker_stop_request. eexists. split; [reflexivity |].
    by cbn [wk_shown wk_world wk_anim running current_frame negb andb].
Qed.

End Worker.

Lemma looping_worker_cycles_through_frames_witness :
  let anim := mkGif [mkFrame [1] 40; mkFrame [2] 40; mkFrame [3] 40] true in
  let stops := [false; false; false; false; false; true; false] in
  (frames anim <> [] /\ loop anim = true) /\
  exists st,
    worker_run busy_then_ok (Key 4) ready_impl stops
      (mkWorker (new_task anim 0) fresh_world []) = Some st /\
    wk_shown st = [mkFrame [1] 40; mkFrame [2] 40; mkFrame [3] 40;
                   mkFrame [1] 40; mkFrame [2] 40] /\
    running (wk_anim st) = false /\
    current_frame (wk_anim st) = 2%nat.
Proof.
  intros anim stops.
  assert (Hne : frames anim <> []) by discriminate.
  split; [split; [exact Hne | reflexivity] |].
  destruct (looping_worker_cycles_through_frames busy_then_ok (Key 4) ready_impl
              anim 0 fresh_world stops Hne eq_refl)
    as (st & Hrun & Hshown & _ & _ & Hrunning & Hframe).
  exists st. split; [exact Hrun |].
  split; [rewrite Hshown; reflexivity |].
  split; [rewrite Hrunning; reflexivity | rewrite Hframe; reflexivity].
Defined.

Lemma once_worker_plays_frames_in_order_witness :
  let anim := mkGif [mkFrame [1] 40; mkFrame [2] 40; mkFrame [3] 40] false in
  let stops := [false; false; false; false; false] in
  (frames anim <> [] /\ loop anim = false) /\
  exists st,
    worker_run busy_then_ok Screen ready_impl stops
      (mkWorker (new_task anim 0) fresh_world []) = Some st /\
    wk_shown st = frames anim /\
    running (wk_anim st) = false /\
    current_frame (wk_anim st) = 3%nat.
Proof.
  intros anim stops.
  assert (Hne : frames anim <> []) by discriminate.
  split; [split; [exact Hne | reflexivity] |].
  destruct (once_worker_plays_frames_in_order busy_then_ok Screen ready_impl
              anim 0 fresh_world stops Hne eq_refl)
    as (st & Hrun & Hshown & _ & Hrunning & Hframe).
  exists st. split; [exact Hrun |].
  split; [rewrite Hshown; reflexivity |].
  split; [rewrite Hrunning; reflexivity | rewrite Hframe; reflexivity].
Defined.

(** ** Sessions of image operations *)

Lemma transmit_effect channel packets o :
  let o' := (run channel (transmit packets) o).2 in
  fd_flags o' = fd_flags o /\ (nwritev o < nwritev o' <= nwritev o + 2)%nat.
Proof.
  cbv zeta. unfold transmit. cbn [run fd_flags errno nwritev io_log].
  destruct (channel (nwritev o)) as [n | e]; cbn [writev_return].
  - rewrite (bool_decide_eq_false_2 (Z.of_N n < 0)) by lia.
    cbn [run snd fd_flags nwritev]. split; [reflexivity | lia].
  - rewrite (bool_decide_eq_true_2 (-1 < 0)) by lia.
    destruct (bool_decide (e = EAGAIN) || bool_decide (e = EWOULDBLOCK));
      cbn [run snd fd_flags nwritev]; (split; [reflexivity | lia]).
Qed.

Lemma generated_pool_wf x y width height jpegData p0 :
  pool_wf p0 ->
  pool_wf (generateRawImagePackets x y width height jpegData p0).2.
Proof.
  intros Hwf. unfold generateRawImagePackets. cbn [snd].
  by destruct (generate_packets_spec x y width height jpegData p0 Hwf)
    as (_ & H & _).
Qed.

Lemma generated_key_pool_wf keyIndex jpegData p0 :
  pool_wf p0 -> pool_wf (generateImagePackets keyIndex jpegData p0).2.
Proof.
  intros Hwf. unfold generateImagePackets. cbv zeta. cbn [snd].
  match goal with
  | |- pool_wf (lpool (generate_packets ?x ?y ?wd ?h _ _)) =>
      by destruct (generate_packets_spec x y wd h jpegData p0 Hwf) as (_ & H & _)
  end.
Qed.

Lemma channel_kept_refl w : pool_wf (packet_pool w) -> channel_kept w w.
Proof. intros Hwf. repeat split; [apply Hwf.. | lia | lia]. Qed.

Lemma setRawImage_keeps channel x y width height jpegData d w :
  pool_wf (packet_pool w) ->
  channel_kept w (setRawImage channel x y width height jpegData d w).2.
Proof.
  intros Hwf. destruct (initialized d) eqn:Hinit.
  - rewrite (setRawImage_transmits _ _ _ _ _ _ _ _ Hinit Hwf). cbv zeta.
    unfold channel_kept, set_os, set_packet_pool.
    cbn [snd packet_pool os thread_log].
    destruct (transmit_effect channel
                (generateRawImagePackets x y width height jpegData
                   (packet_pool w)).1 (os w)) as [Hf Hn].
    split; [by apply generated_pool_wf |]. split; [exact Hf |].
    split; [lia | reflexivity].
  - unfold setRawImage. rewrite Hinit. cbn [negb snd].
    by apply channel_kept_refl.
Qed.

Lemma setKeyImage_keeps channel keyIndex jpegData d w :
  pool_wf (packet_pool w) ->
  channel_kept w (setKeyImage channel keyIndex jpegData d w).2.
Proof.
  intros Hwf.
  destruct (decide (0 <= keyIndex <= 8 /\ initialized d = true)) as [[Hk Hinit] | Hbad].
  - rewrite (setKeyImage_transmits _ _ _ _ _ Hinit Hwf Hk). cbv zeta.
    unfold channel_kept, set_os, set_packet_pool.
    cbn [snd packet_pool os thread_log].
    destruct (transmit_effect channel
                (generateImagePackets keyIndex jpegData (packet_pool w)).1 (os w))
      as [Hf Hn].
    split; [by apply generated_key_pool_wf |]. split; [exact Hf |].
    split; [lia | reflexivity].
  - unfold setKeyImage.
    replace (bool_decide (keyIndex < 0) || bool_decide (keyIndex > 8)
             || negb (initialized d)) with true.
    + cbn [snd]. by apply channel_kept_refl.
    + symmetry. destruct (initialized d); cbn [negb]; [| by rewrite orb_true_r].
      rewrite orb_false_r. apply orb_true_iff.
      destruct (decide (keyIndex < 0)) as [Hlt | Hge].
      * left. by apply bool_decide_eq_true_2.
      * right. apply bool_decide_eq_true_2. lia.
Qed.

Lemma still_op_keeps channel op d w :
  pool_wf (packet_pool w) -> channel_kept w (run_still_op channel op d w).2.
Proof.
  intros Hwf. destruct op as [k j | x y wd h j | j]; cbn [run_still_op].
  - by apply setKeyImage_keeps.
  - by apply setRawImage_keeps.
  - unfold setScreenImage. by apply setRawImage_keeps.
Qed.

(** X18.  What one still-image update needs in order to behave, every
    such update re-establishes.  Over any sequence of [setKeyImage],
    [setRawImage] and [setScreenImage] calls made one after the other
    while no animation worker is alive, accepted or rejected, the packet
    pool stays well formed, the descriptor ends with the file status
    flags it started with, at most two [writev] calls are made per
    update, and no thread is created. *)
Theorem image_session_keeps_channel
    (channel : nat -> writev_result) (ops : list still_op)
    (d : Impl) (w : World) :
  pool_wf (packet_pool w) -> live_workers (thread_log w) = [] ->
  let w' := still_session channel ops d w in
  pool_wf (packet_pool w') /\
  fd_flags (os w') = fd_flags (os w) /\
  (nwritev (os w) <= nwritev (os w') <= nwritev (os w) + 2 * length ops)%nat /\
  live_workers (thread_log w') = [].
Proof.
  cbv zeta. revert w. induction ops as [|op ops IH]; intros w Hwf Hlive.
  - cbn. repeat split; [apply Hwf.. | lia | lia | exact Hlive].
  - unfold still_session. cbn [foldl length].
    destruct (still_op_keeps channel op d w Hwf) as (H1 & H2 & H3 & H4).
    destruct (IH (run_still_op channel op d w).2 H1) as (G1 & G2 & G3 & G4).
    { by rewrite H4. }
    unfold still_session in G1, G2, G3, G4.
    split; [exact G1 |]. split; [congruence |]. split; [lia | exact G4].
Qed.

Lemma image_session_keeps_channel_witness :
  let ops := [StillKeyImage 4 [1; 2; 3]; StillKeyImage 9 [1];
              StillScreenImage [7; 7]; StillRawImage 0 0 10 10 []] in
  (pool_wf (packet_pool fresh_world) /\
   live_workers (thread_log fresh_world) = []) /\
  fd_flags (os (still_session busy_then_ok ops ready_impl fresh_world)) = O_RDWR.
Proof.
  intros ops. split; [split; [exact fresh_pool_wf | reflexivity] |].
  apply (image_session_keeps_channel busy_then_ok ops ready_impl fresh_world
           fresh_pool_wf eq_refl).
Defined.

(** ** Construction, capabilities and initialization *)

Example event_name_of_event_path :
  event_name_of "/dev/input/event5" = "event5"%string /\
  event_name_of "event12" = "event12"%string /\
  event_name_of "/dev/input/" = ""%string /\
  hidraw_name 13 = "/dev/hidraw13"%string.
Proof. repeat split; reflexivity. Qed.

Lemma to_s16_range bits : -32768 <= to_s16 bits < 32768.
Proof.
  unfold to_s16.
  pose proof (Z.mod_pos_bound (bits + 32768) 65536 ltac:(lia)). lia.
Qed.

(** No answer passes the test: 0xc354 is 50004, and a signed 16-bit
    field reads as at most 32767. *)
Lemma never_mx_keypad a : is_mx_keypad a = false.
Proof.
  destruct a as [| | vendor product]; [done | done |]. cbn [is_mx_keypad].
  pose proof (to_s16_range product) as Hp.
  rewrite (bool_decide_eq_false_2 (to_s16 product = 50004)) by lia.
  apply andb_false_r.
Qed.

Lemma probe_hidraw_all probe remaining : forall i,
  probe_hidraw probe remaining i = (EmptyString, seq i remaining).
Proof.
  induction remaining as [|remaining IH]; intros i; [reflexivity |].
  cbn [probe_hidraw seq]. by rewrite never_mx_keypad, IH.
Qed.

(** X19.  [findHidrawPath] never finds a node.  [info.product] is a
    signed 16-bit field and is compared with 0xc354 = 50004, so the test
    fails for every answer, the keypad's own ids included: for a path
    whose last component begins with [event] all twenty nodes
    [/dev/hidraw0] ... [/dev/hidraw19] are opened, in order, and the
    empty path is returned; for any other path it is returned without
    opening anything. *)
Theorem hidraw_probing_never_matches
    (probe : nat -> probe_answer) (event_path : string) :
  findHidrawPath probe event_path
  = (EmptyString,
     if starts_with "event" (event_name_of event_path) then seq 0 20 else []).
Proof.
  unfold findHidrawPath.
  destruct (starts_with "event" (event_name_of event_path)); cbn [negb];
    [apply probe_hidraw_all | reflexivity].
Qed.

Example keypad_ids_are_not_recognised :
  to_s16 0xc354 = -15532 /\ to_s16 0x046d = 0x046d /\
  is_mx_keypad (RawInfo 0x046d 0xc354) = false /\
  findHidrawPath sample_probe "/dev/input/event5"
  = (EmptyString, seq 0 20).
Proof. repeat split; reflexivity. Qed.

(** X20.  The capabilities are fixed by the hidraw path found at
    construction: every object has BUTTONS; it has LCD_DISPLAY and
    IMAGE_UPLOAD exactly when [hasLCD] holds, that is when the path is
    not empty; it never has ROTATION or HIGH_RES_SCROLL.  A device path
    that already names a hidraw node is taken as it is, without probing.
    The object starts uninitialized, with no descriptor and no
    callback. *)
Theorem capabilities_follow_hidraw_path
    (probe : nat -> probe_answer) (info : DeviceInfo) :
  let k := (MXKeypadDevice_new probe info).1 in
  hasCapability BUTTONS k = true /\
  hasCapability LCD_DISPLAY k = hasLCD k /\
  hasCapability IMAGE_UPLOAD k = hasLCD k /\
  hasCapability ROTATION k = false /\
  hasCapability HIGH_RES_SCROLL k = false /\
  (starts_with "/dev/hidraw" (device_path info) = true ->
   hidraw_path k = device_path info /\ hasLCD k = true /\
   (MXKeypadDevice_new probe info).2 = []) /\
  device k = fresh_device /\ hidraw_fd k = -1.
Proof.
  cbv zeta. unfold MXKeypadDevice_new.
  destruct (starts_with "/dev/hidraw" (device_path info)) eqn:Hpre.
  - assert (Hne : device_path info <> EmptyString).
    { intros Heq. rewrite Heq in Hpre. discriminate Hpre. }
    rewrite (bool_decide_eq_false_2 _ Hne). cbn [negb fst snd app].
    unfold hasCapability, hasLCD. cbn [capabilities_ hidraw_path device hidraw_fd].
    rewrite (bool_decide_eq_false_2 _ Hne).
    repeat split; cbn [negb];
      first [ apply bool_decide_eq_true_2; set_solver
            | apply bool_decide_eq_false_2; set_solver ].
  - destruct (findHidrawPath probe (device_path info)) as [path tried].
    unfold hasCapability, hasLCD.
    destruct (bool_decide_reflect (path = EmptyString)) as [Heq | Hne];
      cbn [negb fst snd app capabilities_ hidraw_path device hidraw_fd].
    + rewrite (bool_decide_eq_true_2 _ Heq). cbn [negb].
      repeat split; try done;
        first [ apply bool_decide_eq_true_2; set_solver
              | apply bool_decide_eq_false_2; set_solver ].
    + rewrite (bool_decide_eq_false_2 _ Hne). cbn [negb].
      repeat split; try done;
        first [ apply bool_decide_eq_true_2; set_solver
              | apply bool_decide_eq_false_2; set_solver ].
Qed.

Lemma uninitialized_rejects channel decodeGif decodeGifFromFile op d w :
  initialized d = false ->
  run_image_op channel decodeGif decodeGifFromFile op d w = (false, d, w).
Proof.
  intros Huninit. destruct op; cbn [run_image_op];
    unfold setKeyImage, setKeyGif, setKeyGifFromFile, setScreenImage, setRawImage;
    rewrite Huninit; cbn [negb]; rewrite ?orb_true_r; reflexivity.
Qed.

(** X21.  Because the product id can never match, an object built from
    an event path tries all twenty nodes and ends without a hidraw path,
    whatever the nodes answer: it has BUTTONS only, [initialize] fails on
    it without opening anything, and every image operation is rejected
    before any I/O. *)
Theorem signed_product_id_never_matches
    (probe : nat -> probe_answer) (info : DeviceInfo) :
  starts_with "/dev/hidraw" (device_path info) = false ->
  starts_with "event" (event_name_of (device_path info)) = true ->
  let k := (MXKeypadDevice_new probe info).1 in
  (MXKeypadDevice_new probe info).2 = seq 0 20 /\
  hasLCD k = false /\ capabilities_ k = [BUTTONS] /\
  (forall opened, initialize opened k = (false, k, [])) /\
  (forall channel decodeGif decodeGifFromFile op w,
     run_image_op channel decodeGif decodeGifFromFile op (impl_ (device k)) w
     = (false, impl_ (device k), w)).
Proof.
  intros Hpre Hev. cbv zeta. unfold MXKeypadDevice_new. rewrite Hpre.
  unfold findHidrawPath. rewrite Hev. cbn [negb].
  rewrite probe_hidraw_all. cbn [fst snd].
  split; [reflexivity |]. split; [reflexivity |]. split; [reflexivity |].
  split; [intros opened; reflexivity |].
  intros. by apply uninitialized_rejects.
Qed.

Lemma signed_product_id_never_matches_witness :
  let info := mkInfo "/dev/input/event5" in
  (starts_with "/dev/hidraw" (device_path info) = false /\
   starts_with "event" (event_name_of (device_path info)) = true) /\
  hasLCD (MXKeypadDevice_new sample_probe info).1 = false.
Proof.
  intros info. split; [split; reflexivity |].
  apply (signed_product_id_never_matches sample_probe info eq_refl eq_refl).
Defined.

(** X22.  [initialize] on an object not yet initialized succeeds exactly
    when there is a hidraw path and [open] gives a descriptor.  It opens
    the path once (not at all when the path is empty); on success it
    writes the two 20-byte reports in order, whatever becomes of the
    writes, and sets the flag it returns; on failure it writes nothing.
    Once it has succeeded, further calls return success without any
    system call. *)
Theorem initialize_opens_once_and_sends_two_reports
    (opened : Z) (k : MXKeypadDevice) :
  initialized (impl_ (device k)) = false ->
  let out := initialize opened k in
  let ok := hasLCD k && bool_decide (0 <= opened) in
  out.1.1 = ok /\
  initialized (impl_ (device out.1.2)) = ok /\
  opens_of out.2 = (if hasLCD k then [hidraw_path k] else []) /\
  writes_of out.2 = (if ok then INIT_REPORTS else []) /\
  Forall (fun report => length report = 20%nat) INIT_REPORTS /\
  capabilities_ out.1.2 = capabilities_ k /\
  hidraw_path out.1.2 = hidraw_path k /\
  (ok = true ->
   hidraw_fd out.1.2 = opened /\
   forall opened', initialize opened' out.1.2 = (true, out.1.2, [])).
Proof.
  intros Huninit. cbv zeta. unfold initialize, hasLCD. rewrite Huninit.
  cbn [orb].
  destruct (bool_decide (hidraw_path k = EmptyString)) eqn:Hpath; cbn [negb andb].
  { cbn [fst snd]. rewrite Huninit.
    repeat split; try done. repeat constructor. }
  destruct (bool_decide_reflect (opened < 0)) as [Hneg | Hpos].
  - rewrite (bool_decide_eq_false_2 (0 <= opened)) by lia.
    cbn [fst snd device hidraw_path capabilities_]. rewrite Huninit.
    repeat split; try done. repeat constructor.
  - rewrite (bool_decide_eq_true_2 (0 <= opened)) by lia.
    cbn [fst snd device hidraw_path capabilities_ hidraw_fd impl_
         set_initialized initialized orb].
    repeat split; try done. repeat constructor.
Qed.

Lemma initialize_opens_once_and_sends_two_reports_witness :
  initialized (impl_ (device hidraw_keypad)) = false /\
  (initialize 7 hidraw_keypad).1.1 = true /\
  writes_of (initialize 7 hidraw_keypad).2 = INIT_REPORTS /\
  (initialize (-1) hidraw_keypad).1.1 = false.
Proof.
  split; [reflexivity |].
  destruct (initialize_opens_once_and_sends_two_reports 7 hidraw_keypad eq_refl)
    as (H1 & _ & _ & H4 & _).
  destruct (initialize_opens_once_and_sends_two_reports (-1) hidraw_keypad eq_refl)
    as (G1 & _).
  split; [rewrite H1; reflexivity |]. split; [rewrite H4; reflexivity |].
  rewrite G1. reflexivity.
Defined.

(** ** The tic-tac-toe example *)

Section TicTacToeFacts.

Import TicTacToe.

Lemma checkWinner_fold gameState :
  checkWinner gameState
  = match winning_tile gameState lines tileState.none with
    | tileState.none =>
        if negb (existsb (fun t => bool_decide (t = tileState.none)) gameState)
        then winningPlayerType.cats else winningPlayerType.none
    | tileState.red => winningPlayerType.red
    | tileState.blue => winningPlayerType.blue
    end.
Proof. reflexivity. Qed.

Lemma winning_tile_kept gameState ls winningTile :
  winningTile <> tileState.none ->
  winning_tile gameState ls winningTile = winningTile.
Proof.
  intros Hne. induction ls as [|line ls IH]; [done |].
  unfold winning_tile in *. cbn [foldl].
  replace (check_line gameState line.1.1 line.1.2 line.2 winningTile)
    with winningTile; [exact IH |].
  unfold check_line. rewrite (bool_decide_eq_false_2 _ Hne).
  by destruct (_ && _).
Qed.

Lemma owns_iff gameState p line :
  owns gameState p line <->
  tile gameState line.1.1 = tile gameState line.1.2 /\
  tile gameState line.1.1 = tile gameState line.2 /\
  tile gameState line.1.1 = tile_of p.
Proof. unfold owns. split; intros (H1 & H2 & H3); repeat split; congruence. Qed.

Lemma tile_of_not_none p : tile_of p <> tileState.none.
Proof. by destruct p. Qed.

Lemma tile_of_cases (t : tileState.t) :
  t = tileState.none \/ exists p, t = tile_of p.
Proof.
  destruct t; [by left | right; by exists player.red | right; by exists player.blue].
Qed.

(** The tests pick the tile of the first line, in their order, that one
    player owns. *)
Lemma winning_tile_first gameState ls :
  (winning_tile gameState ls tileState.none = tileState.none /\
   forall p line, line ∈ ls -> ~ owns gameState p line) \/
  (exists p line, line ∈ ls /\ owns gameState p line /\
     winning_tile gameState ls tileState.none = tile_of p).
Proof.
  induction ls as [|line ls IH].
  - left. split; [done |]. intros p line Hin. by apply elem_of_nil in Hin.
  - unfold winning_tile in *. cbn [foldl].
    assert (Hc : check_line gameState line.1.1 line.1.2 line.2 tileState.none
                 = if bool_decide (tile gameState line.1.1 = tile gameState line.1.2)
                      && bool_decide (tile gameState line.1.1 = tile gameState line.2)
                   then tile gameState line.1.1 else tileState.none).
    { unfold check_line.
      by rewrite (bool_decide_eq_true_2 (tileState.none = tileState.none)). }
    rewrite Hc. clear Hc.
    destruct (bool_decide_reflect
                (tile gameState line.1.1 = tile gameState line.1.2))
      as [H12 | H12]; cbn [andb].
    + destruct (bool_decide_reflect
                  (tile gameState line.1.1 = tile gameState line.2))
        as [H13 | H13].
      * destruct (tile_of_cases (tile gameState line.1.1)) as [Hn | [p Hp]].
        -- rewrite Hn. destruct IH as [[IH1 IH2] | (p & l & Hin & Ho & Hw)].
           ++ left. split; [exact IH1 |]. intros p l Hin.
              apply elem_of_cons in Hin. destruct Hin as [-> | Hin];
                [| by apply IH2].
              rewrite owns_iff. intros (_ & _ & Hp). rewrite Hn in Hp.
              by destruct p.
           ++ right. exists p, l. split; [by apply elem_of_cons; right |].
              by split.
        -- right. exists p, line. split; [by apply elem_of_cons; left |].
           split; [by apply owns_iff |].
           rewrite Hp. apply (winning_tile_kept gameState ls).
           apply tile_of_not_none.
      * destruct IH as [[IH1 IH2] | (p & l & Hin & Ho & Hw)].
        -- left. split; [exact IH1 |]. intros p l Hin.
           apply elem_of_cons in Hin. destruct Hin as [-> | Hin];
             [| by apply IH2].
           rewrite owns_iff. by intros (_ & ? & _).
        -- right. exists p, l. split; [by apply elem_of_cons; right |].
           by split.
    + destruct IH as [[IH1 IH2] | (p & l & Hin & Ho & Hw)].
      * left. split; [exact IH1 |]. intros p l Hin.
        apply elem_of_cons in Hin. destruct Hin as [-> | Hin];
          [| by apply IH2].
        rewrite owns_iff. by intros (? & _ & _).
      * right. exists p, l. split; [by apply elem_of_cons; right |].
        by split.
Qed.

Lemma tiles_left_empty gameState :
  existsb (fun t => bool_decide (t = tileState.none)) gameState = true <->
  exists k, (k < length gameState)%nat /\ tile gameState k = tileState.none.
Proof.
  rewrite existsb_exists. split.
  - intros (t & Hin & Ht). apply bool_decide_eq_true_1 in Ht. subst t.
    apply list_elem_of_In, list_elem_of_lookup in Hin. destruct Hin as [k Hk].
    exists k. split; [by eapply lookup_lt_Some |].
    unfold tile. by rewrite Hk.
  - intros (k & Hk & Ht). destruct (lookup_lt_is_Some_2 _ _ Hk) as [t Hl].
    unfold tile in Ht. rewrite Hl in Ht. cbn in Ht. subst t.
    exists tileState.none. split; [| by apply bool_decide_eq_true_2].
    apply list_elem_of_In. by eapply list_elem_of_lookup_2.
Qed.

(** X23.  [checkWinner] names a player only if that player owns one of
    the eight lines, and it names the player whenever nobody else owns
    one; it answers [none] exactly when no line is owned and a tile is
    free, and [cats] exactly when no line is owned and the board is
    full. *)
Theorem checkWinner_names_line_owner (gameState : list tileState.t) :
  length gameState = 9%nat ->
  let free := exists k, (k < 9)%nat /\ tile gameState k = tileState.none in
  let nobody := ~ has_line gameState player.red /\
                ~ has_line gameState player.blue in
  (checkWinner gameState = winningPlayerType.red ->
   has_line gameState player.red) /\
  (checkWinner gameState = winningPlayerType.blue ->
   has_line gameState player.blue) /\
  (has_line gameState player.red -> ~ has_line gameState player.blue ->
   checkWinner gameState = winningPlayerType.red) /\
  (has_line gameState player.blue -> ~ has_line gameState player.red ->
   checkWinner gameState = winningPlayerType.blue) /\
  (checkWinner gameState = winningPlayerType.none <-> nobody /\ free) /\
  (checkWinner gameState = winningPlayerType.cats <-> nobody /\ ~ free).
Proof.
  intros Hlen. cbv zeta. rewrite checkWinner_fold.
  pose proof (tiles_left_empty gameState) as Hfree. rewrite Hlen in Hfree.
  destruct (winning_tile_first gameState lines)
    as [[Hw Hno] | (p & line & Hin & Ho & Hw)]; rewrite Hw.
  - assert (Hnobody : forall p, ~ has_line gameState p).
    { intros p (line & Hin & Ho). by apply (Hno p line). }
    destruct (existsb _ gameState) eqn:He; cbn [negb].
    + repeat split; try done; try (intros H; by apply Hnobody in H).
      * by apply Hfree.
      * intros [_ Hnf]. destruct Hnf. by apply Hfree.
    + assert (Hnf : ~ exists k, (k < 9)%nat /\ tile gameState k = tileState.none).
      { intros Hk. apply Hfree in Hk. discriminate Hk. }
      repeat split; try done; try (intros H; by apply Hnobody in H).
      by intros [_ Hk].
  - assert (Hhas : has_line gameState p) by (by exists line).
    destruct p; cbn [tile_of];
      repeat split; try done; try (by intros [[? ?] _]).
Qed.


Lemma checkWinner_names_line_owner_witness :
  let gameState := [tileState.red; tileState.blue; tileState.none;
                    tileState.blue; tileState.red; tileState.none;
                    tileState.none; tileState.blue; tileState.red] in
  length gameState = 9%nat /\ has_line gameState player.red.
Proof.
  intros gameState. split; [reflexivity |].
  apply (checkWinner_names_line_owner gameState eq_refl). reflexivity.
Defined.

(** *** Playing *)

Lemma tile_insert gameState i t k :
  (i < length gameState)%nat ->
  tile (<[i := t]> gameState) k = if decide (k = i) then t else tile gameState k.
Proof.
  intros Hi. unfold tile. destruct (decide (k = i)) as [-> | Hne].
  - by rewrite list_lookup_insert_eq.
  - by rewrite list_lookup_insert_ne.
Qed.

Lemma mover_S n : mover (S n) = next_turn (mover n).
Proof. unfold mover. rewrite Nat.even_succ, <- Nat.negb_even. by destruct (Nat.even n). Qed.

Lemma game_ok_start : game_ok start.
Proof.
  unfold game_ok, start. cbn [replicatedGameState painted turn].
  split; [reflexivity |]. split; [reflexivity |]. split; [constructor |].
  split; [constructor |]. split; [intros i m Hm; discriminate Hm |].
  split; [reflexivity |]. intros k. split.
  - intros Hne. destruct Hne. unfold tile.
    destruct (replicate 9 tileState.none !! k) as [t|] eqn:Hk; [| done].
    apply lookup_replicate in Hk. by destruct Hk as [-> _].
  - intros Hin. by apply elem_of_nil in Hin.
Qed.

Lemma onEvent_ok e g :
  game_ok g -> pressed e = true \/ 0 <= button_code e <= 8 ->
  exists g', onEvent e g = Some g' /\ game_ok g'.
Proof.
  intros Hok He. unfold onEvent. destruct (pressed e) eqn:Hp; [by exists g |].
  destruct He as [He | He]; [discriminate He |].
  rewrite (bool_decide_eq_false_2 (button_code e < 0)),
    (bool_decide_eq_false_2 (button_code e >= 9)) by lia.
  cbn [orb].
  destruct (bool_decide_reflect
              (tile (replicatedGameState g) (Z.to_nat (button_code e))
               = tileState.none)) as [Hfree | Hused]; [| by exists g].
  eexists. split; [reflexivity |].
  destruct Hok as (Hlen & Hboard & Hnd & Hrange & Hmov & Hturn & Hocc).
  assert (Hnew : button_code e ∉ (painted g).*1).
  { intros Hin. apply (Hocc (Z.to_nat (button_code e))); [| exact Hfree].
    by rewrite Z2Nat.id by lia. }
  unfold game_ok. cbn [replicatedGameState painted turn].
  split; [by rewrite length_insert |].
  split; [unfold board_of; by rewrite foldl_snoc, Hboard |].
  split.
  { rewrite fmap_app. apply NoDup_app. split; [exact Hnd |].
    split; [| apply NoDup_singleton].
    intros x Hx Hx'. cbn in Hx'. apply list_elem_of_singleton in Hx'.
    subst x. by apply Hnew. }
  split; [apply Forall_app; split; [exact Hrange | by apply Forall_singleton] |].
  split.
  { intros i m Hm. apply lookup_app_Some in Hm.
    destruct Hm as [Hm | [Hge Hm]]; [by eapply Hmov |].
    apply list_lookup_singleton_Some in Hm. destruct Hm as [Hi <-].
    cbn [snd]. rewrite Hturn. f_equal. lia. }
  split; [rewrite length_app; cbn [length]; by rewrite Nat.add_1_r, mover_S, Hturn |].
  intros k. rewrite tile_insert by lia. rewrite fmap_app, elem_of_app.
  destruct (decide (k = Z.to_nat (button_code e))) as [-> | Hne].
  - split; [| intros _; apply tile_of_not_none].
    intros _. right. cbn. apply list_elem_of_singleton. lia.
  - rewrite Hocc. split; [by left |]. intros [Hin | Hin]; [exact Hin |].
    cbn in Hin. apply list_elem_of_singleton in Hin. lia.
Qed.

Lemma play_snoc events e g :
  play (events ++ [e]) g = play events g ≫= onEvent e.
Proof. unfold play. by rewrite foldl_snoc. Qed.

Lemma moves_at_most_nine (moves : list (Z * player.t)) :
  NoDup moves.*1 -> Forall (fun m : Z * player.t => 0 <= m.1 <= 8) moves ->
  (length moves <= 9)%nat.
Proof.
  intros Hnd Hrange.
  assert (Hsub : moves.*1 ⊆+ seqZ 0 9).
  { apply NoDup_submseteq; [exact Hnd |]. intros x Hx.
    apply list_elem_of_fmap in Hx. destruct Hx as (m & -> & Hm).
    rewrite Forall_forall in Hrange. specialize (Hrange m Hm).
    apply elem_of_seqZ. lia. }
  apply submseteq_length in Hsub. by rewrite length_fmap in Hsub.
Qed.

Lemma play_ok events :
  Forall (fun e => pressed e = true \/ 0 <= button_code e <= 8) events ->
  exists g, play events start = Some g /\ game_ok g.
Proof.
  intros Hev. induction events as [|e events IH] using rev_ind.
  - exists start. split; [reflexivity | exact game_ok_start].
  - apply Forall_app in Hev. destruct Hev as [Hev He].
    rewrite Forall_singleton in He.
    destruct (IH Hev) as (g & Hplay & Hok).
    destruct (onEvent_ok e g Hok He) as (g' & Hstep & Hok').
    exists g'. split; [| exact Hok'].
    by rewrite play_snoc, Hplay.
Qed.

(** X24.  As long as the releases it is given are of keys 0-8, the game
    never reads outside its board, and: a tile once taken is never
    rewritten, only releases on free tiles count as moves, the movers
    alternate with red first, each move is painted on the key that was
    released, and there are at most nine moves. *)
Theorem moves_take_free_tiles_in_turn (events : list ButtonEvent) :
  Forall (fun e => pressed e = true \/ 0 <= button_code e <= 8) events ->
  exists g, play events start = Some g /\ game_ok g /\
            (length (painted g) <= 9)%nat.
Proof.
  intros Hev. destruct (play_ok events Hev) as (g & Hplay & Hok). exists g.
  split; [exact Hplay |]. split; [exact Hok |].
  destruct Hok as (_ & _ & Hnd & Hrange & _). by apply moves_at_most_nine.
Qed.

Lemma moves_take_free_tiles_in_turn_witness :
  let events := [press_event 4; release_event 4; release_event 0;
                 release_event 4; release_event 8] in
  Forall (fun e => pressed e = true \/ 0 <= button_code e <= 8) events /\
  exists g, play events start = Some g /\ game_ok g /\
            (length (painted g) <= 9)%nat.
Proof.
  intros events.
  assert (Hev : Forall (fun e => pressed e = true \/ 0 <= button_code e <= 8)
                       events).
  { repeat (apply Forall_cons; split; [cbn; first [by left | right; lia] |]).
    apply Forall_nil_2. }
  split; [exact Hev |].
  apply (moves_take_free_tiles_in_turn events Hev).
Defined.

Example three_moves :
  painted <$> play [press_event 4; release_event 4; release_event 0;
                    release_event 4; release_event 8] start
  = Some [(4, player.red); (0, player.blue); (8, player.red)].
Proof. reflexivity. Qed.

(** X25.  The decoder reports the release of P1 and P2 with the codes
    0xa1 and 0xa2, and the game indexes its nine tiles with the code of
    every release: a press and release of a navigation button, decoded
    by the monitoring loop and handed to [onEvent], reads outside the
    board. *)
Theorem navigation_release_leaves_board
    (i : Impl) (cb : nat) (c : Z) (events : list ButtonEvent) :
  monitoring i = true -> nav_code c ->
  Forall (fun e => pressed e = true \/ 0 <= button_code e <= 8) events ->
  let reads := [mkInput false PollIn (ReadData (p_press_report c));
                mkInput false PollIn (ReadData p_release_report)] in
  let st := monitor_loop reads (monitor_start (mkDevice i (Some cb))) in
  m_delivered st = [press_event c; release_event c] /\
  play (events ++ m_delivered st) start = None.
Proof.
  intros Hmon Hnav Hev. cbv zeta.
  assert (Hd : m_delivered
                 (monitor_loop
                    [mkInput false PollIn (ReadData (p_press_report c));
                     mkInput false PollIn (ReadData p_release_report)]
                    (monitor_start (mkDevice i (Some cb))))
               = [press_event c; release_event c]).
  { destruct i as [ini mon mt pb lp an sc]. cbn [monitoring] in Hmon. subst mon.
    destruct Hnav as [-> | ->]; reflexivity. }
  split; [exact Hd |]. rewrite Hd.
  destruct (play_ok events Hev) as (g & Hplay & _).
  replace (events ++ [press_event c; release_event c])
    with ((events ++ [press_event c]) ++ [release_event c])
    by (by rewrite <- app_assoc).
  rewrite !play_snoc, Hplay. cbn [mbind option_bind].
  unfold onEvent at 2. cbn [pressed press_event]. cbn [mbind option_bind].
  unfold onEvent. cbn [pressed release_event button_code].
  destruct Hnav as [-> | ->]; reflexivity.
Qed.

End TicTacToeFacts.

Lemma navigation_release_leaves_board_witness :
  let events := [release_event 4; release_event 0] in
  (monitoring (impl_ monitored_device) = true /\ nav_code 0xa1 /\
   Forall (fun e => pressed e = true \/ 0 <= button_code e <= 8) events) /\
  TicTacToe.play
    (events ++ [press_event 0xa1; release_event 0xa1]) TicTacToe.start = None.
Proof.
  intros events.
  assert (Hev : Forall (fun e => pressed e = true \/ 0 <= button_code e <= 8)
                       events).
  { repeat (apply Forall_cons; split; [cbn; right; lia |]). apply Forall_nil_2. }
  split; [split; [reflexivity | split; [by left | exact Hev]] |].
  destruct (navigation_release_leaves_board (impl_ monitored_device) 0%nat 0xa1
              events eq_refl (or_introl eq_refl) Hev) as [Hd Hplay].
  rewrite Hd in Hplay. exact Hplay.
Defined.

(** ** The destructor *)

(** X26.  The destructor stops the animations before the monitor: the
    screen worker is joined first, then the key workers in key order,
    then the monitoring thread if the monitoring flag is still set.
    Afterwards no animation worker is alive, no task is stored and the
    flag is down; the descriptor is closed exactly when one was opened.
    A monitoring thread that had cleared the flag itself is not joined,
    and the destruction of its joinable handle ends the process in
    [std::terminate]; in every other case the destructor returns. *)
Theorem destructor_stops_workers_then_monitor
    (k : MXKeypadDevice) (w : World) :
  anim_inv (impl_ (device k)) w ->
  let i := impl_ (device k) in
  let out := MXKeypadDevice_delete k w in
  let i' := impl_ (device out.1.1) in
  thread_log out.1.2
  = thread_log w ++ stop_events (screen_animation i) ++ key_stop_events i
                 ++ monitor_stop_events i
                 ++ (if left_joinable i then [EvTerminate] else []) /\
  live_workers (thread_log out.1.2) = [] /\
  animations i' = ∅ /\ screen_animation i' = None /\ monitoring i' = false /\
  monitor_thread i' = (if monitoring i then None else monitor_thread i) /\
  out.2 = (if bool_decide (hidraw_fd k >= 0) then [SysClose (hidraw_fd k)]
           else []).
Proof.
  intros Hinv. cbv zeta. unfold MXKeypadDevice_delete.
  assert (H : animations (stopAllAnimations (impl_ (device k)) w).1 = ∅ /\
              screen_animation (stopAllAnimations (impl_ (device k)) w).1 = None /\
              thread_log (stopAllAnimations (impl_ (device k)) w).2
              = thread_log w ++ stop_events (screen_animation (impl_ (device k)))
                             ++ key_stop_events (impl_ (device k)) /\
              live_workers (thread_log (stopAllAnimations (impl_ (device k)) w).2)
              = [] /\
              monitoring (stopAllAnimations (impl_ (device k)) w).1
              = monitoring (impl_ (device k)) /\
              monitor_thread (stopAllAnimations (impl_ (device k)) w).1
              = monitor_thread (impl_ (device k))).
  { apply stopAllAnimations_summary. exact Hinv. }
  destruct (stopAllAnimations (impl_ (device k)) w) as [i1 w1].
  cbn [fst snd] in H. destruct H as (Ha & Hs & Hlog & Hlive & Hm & Ht).
  unfold stopMonitoring, monitor_stop_events, left_joinable.
  cbn [impl_ event_callback_].
  rewrite Hm. destruct (monitoring (impl_ (device k))) eqn:Hmon; cbn [negb andb].
  - unfold set_monitoring, set_monitor_thread.
    cbn [monitor_thread monitoring animations screen_animation].
    rewrite Ht. destruct (monitor_thread (impl_ (device k))) as [tid|].
    + cbn [fst snd device impl_ animations screen_animation monitoring
           monitor_thread log_thread thread_log].
      rewrite live_workers_snoc, Hlive, Hlog, <- !app_assoc.
      by repeat split.
    + cbn [fst snd device impl_ animations screen_animation monitoring
           monitor_thread].
      rewrite Hlive, Hlog, !app_nil_r. by repeat split.
  - cbn [fst snd device impl_]. rewrite Ht.
    destruct (monitor_thread (impl_ (device k))) as [tid|].
    + rewrite (bool_decide_eq_true_2 (is_Some (Some tid))) by eauto.
      cbn [fst snd device impl_ log_thread thread_log].
      rewrite live_workers_snoc, Hlive, Hlog, <- !app_assoc.
      by repeat split.
    + rewrite (bool_decide_eq_false_2 (is_Some None)) by (by intros [? ?]).
      cbn [fst snd device impl_]. rewrite Hlive, Hlog, !app_nil_r.
      by repeat split.
Qed.

Lemma destructor_stops_workers_then_monitor_witness :
  let s := anim_run one_frame_decoder one_frame_decoder
             [OpSetKeyGif 7 [1] true; OpSetScreenGif [2] true]
             (ready_impl, fresh_world) in
  let k := mkKeypad (mkDevice s.1 None) 7 "/dev/hidraw3"
                    (mkInfo "/dev/hidraw3")
                    [BUTTONS; LCD_DISPLAY; IMAGE_UPLOAD] in
  anim_inv (impl_ (device k)) s.2 /\
  live_workers (thread_log (MXKeypadDevice_delete k s.2).1.2) = [] /\
  (MXKeypadDevice_delete k s.2).2 = [SysClose 7].
Proof.
  intros s k.
  assert (Hinv : anim_inv (impl_ (device k)) s.2).
  { apply anim_run_inv. by apply anim_inv_fresh. }
  split; [exact Hinv |].
  destruct (destructor_stops_workers_then_monitor k s.2 Hinv)
    as (_ & Hlive & _ & _ & _ & _ & Hclose).
  split; [exact Hlive | exact Hclose].
Defined.

(** A monitor that ended by itself: the destructor ends in
    [std::terminate]. *)
Example destructor_after_self_ended_monitor :
  let dev := monitor_thread_body false [] monitored_device in
  let k := mkKeypad dev (-1) "" (mkInfo "/dev/input/event5") [BUTTONS] in
  thread_log (MXKeypadDevice_delete k (startMonitoring (listening ready_impl)
                                         fresh_world).2).1.2
  = [EvSpawnMonitor 0; EvTerminate].
Proof. reflexivity. Qed.

(** ** The monitor tool *)

Lemma isNavigationButton_spec c : isNavigationButton c = bool_decide (nav_code c).
Proof.
  unfold isNavigationButton, nav_code.
  destruct (bool_decide_reflect (c = 161)) as [-> | H1]; [done |].
  destruct (bool_decide_reflect (c = 162)) as [-> | H2]; [done |].
  symmetry. apply bool_decide_eq_false_2. by intros [? | ?].
Qed.

Lemma printed_filters opts events :
  Forall event_ok events ->
  printed opts events
  = if gridOnly opts
    then (if navOnly opts then []
          else filter (fun e => 0 <= button_code e <= 8) events)
    else (if navOnly opts
          then filter (fun e => nav_code (button_code e)) events
          else events).
Proof.
  intros Hev. unfold printed. induction Hev as [|e events He Hev IH].
  { by destruct (gridOnly opts), (navOnly opts). }
  cbn [flat_map]. rewrite IH. unfold handleEvent. cbv zeta.
  rewrite isNavigationButton_spec.
  destruct He as [_ [Hgrid | Hnav]].
  - assert (Hn : ~ nav_code (button_code e)).
    { intros [H | H]; rewrite H in Hgrid; lia. }
    rewrite (bool_decide_eq_false_2 _ Hn).
    destruct (gridOnly opts), (navOnly opts); cbn [andb negb app]; try done.
    + by rewrite filter_cons_True.
    + by rewrite filter_cons_False.
  - assert (Hg : ~ 0 <= button_code e <= 8).
    { destruct Hnav as [H | H]; rewrite H; lia. }
    rewrite (bool_decide_eq_true_2 _ Hnav).
    destruct (gridOnly opts), (navOnly opts); cbn [andb negb app]; try done.
    + by rewrite filter_cons_False.
    + by rewrite filter_cons_True.
Qed.

(** X27.  What the monitor tool lets through of the events the decoder
    delivers: with [--grid-only] exactly those of the keys 0-8, with
    [--nav-only] exactly those of P1 and P2 (codes 0xa1, 0xa2), with
    neither option all of them, each in the order of delivery. *)
Theorem monitor_tool_filters_decoded_events
    (inputs : list loop_input) (dev : Device) (cb : nat) (opts : Options) :
  event_callback_ dev = Some cb -> decoder_inv (impl_ dev) ->
  gridOnly opts && navOnly opts = false ->
  let delivered := m_delivered (monitor_loop inputs (monitor_start dev)) in
  printed opts delivered
  = if gridOnly opts
    then filter (fun e => 0 <= button_code e <= 8) delivered
    else if navOnly opts
    then filter (fun e => nav_code (button_code e)) delivered
    else delivered.
Proof.
  intros Hcb Hinv Hopts. cbv zeta.
  destruct (monitor_loop_inv inputs cb 0
              (bool_decide (0 ∈ pressed_buttons (impl_ dev)))
              (monitor_start dev) not_nav_code_0 Hcb Hinv)
    as (_ & Hev & _); [constructor | constructor |].
  rewrite (printed_filters _ _ Hev).
  destruct (gridOnly opts), (navOnly opts); try done.
Qed.

Lemma monitor_tool_filters_decoded_events_witness :
  let inputs := [mkInput false PollIn (ReadData (grid_report [3]));
                 mkInput false PollIn (ReadData (p_press_report 0xa2));
                 mkInput false PollIn (ReadData (grid_report []))] in
  let opts := mkOptions true true false in
  (event_callback_ monitored_device = Some 0%nat /\
   decoder_inv (impl_ monitored_device) /\
   gridOnly opts && navOnly opts = false) /\
  printed opts (m_delivered (monitor_loop inputs (monitor_start monitored_device)))
  = [press_event 2; release_event 2].
Proof.
  intros inputs opts.
  split; [split; [reflexivity | split; [exact decoder_inv_ready | reflexivity]] |].
  rewrite (monitor_tool_filters_decoded_events inputs monitored_device 0%nat opts
             eq_refl decoder_inv_ready eq_refl).
  vm_compute. reflexivity.
Defined.
